(** * gen_syscalls.py: the system call table generator

    A shallow embedding of [scripts/gen_syscalls.py] and the properties of
    its declaration parser and of the three artifacts it writes.

    Text is [string]; a character is an [ascii], read as the code point of
    that number.  Exceptions are a sum type, the effects of [main] (the
    standard streams, the files it opens) are threaded through a
    state-and-exception monad over [World], which also holds what the host
    refuses: every call of the operating system may raise. *)

From Stdlib Require Import String Ascii List Bool Arith Lia.
From Stdlib Require Import DecimalString DecimalNat DecimalFacts.
From Stdlib Require Import Sorting.Mergesort Sorting.Sorted Sorting.Permutation.
From Stdlib Require Import Orders.
Import ListNotations.

Local Open Scope list_scope.
Local Open Scope string_scope.

(** ** The parts of Python's [str] the script uses *)

Module Py.

Definition nl : ascii := "010"%char.
Definition tab : ascii := "009"%char.
Definition dquote : ascii := "034"%char.
Definition cr : ascii := "013"%char.

(** [str.isspace] on one character, for the code points below 256. *)
Definition isspace (c : ascii) : bool :=
  let n := nat_of_ascii c in
  (((9 <=? n) && (n <=? 13)) || ((28 <=? n) && (n <=? 32))
   || (n =? 133) || (n =? 160))%nat.

Fixpoint lstrip (s : string) : string :=
  match s with
  | String c s' => if isspace c then lstrip s' else s
  | EmptyString => EmptyString
  end.

Fixpoint rstrip (s : string) : string :=
  match s with
  | String c s' =>
      match rstrip s' with
      | EmptyString => if isspace c then EmptyString else String c EmptyString
      | r => String c r
      end
  | EmptyString => EmptyString
  end.

(** [s.strip()] *)
Definition strip (s : string) : string := rstrip (lstrip s).

(** [c in s] for a one-character [c] *)
Fixpoint contains (c : ascii) (s : string) : bool :=
  match s with
  | String d s' => Ascii.eqb c d || contains c s'
  | EmptyString => false
  end.

(** [s.split(sep)] for a one-character separator: never the empty list. *)
Fixpoint split (sep : ascii) (s : string) : list string :=
  match s with
  | EmptyString => [EmptyString]
  | String c s' =>
      if Ascii.eqb c sep then EmptyString :: split sep s'
      else match split sep s' with
           | piece :: rest => String c piece :: rest
           | [] => [String c EmptyString]
           end
  end.

(** [sep.join(l)] *)
Definition join (sep : string) (l : list string) : string :=
  String.concat sep l.

(** [s.endswith(suffix)] *)
Fixpoint endswith (s suffix : string) : bool :=
  String.eqb s suffix
  || match s with
     | String _ s' => endswith s' suffix
     | EmptyString => false
     end.

(** [s.startswith(p)] *)
Definition startswith (s p : string) : bool := String.prefix p s.

(** [str.upper] on the letters a to z; every other character of the
    identifier alphabet [[A-Za-z0-9_]] is its own upper case, and the
    script upper-cases identifiers only ([typename_split_name] below). *)
Definition upper_char (c : ascii) : ascii :=
  let n := nat_of_ascii c in
  if ((97 <=? n) && (n <=? 122))%nat then ascii_of_nat (n - 32) else c.

Fixpoint upper (s : string) : string :=
  match s with
  | String c s' => String (upper_char c) (upper s')
  | EmptyString => EmptyString
  end.

(** ["%d" % n] for a length *)
Definition fmt_d (n : nat) : string :=
  NilEmpty.string_of_uint (Nat.to_uint n).

(** What [read()] returns for a file opened in text mode with the default
    [newline=None]: a carriage return followed by a newline, and a lone
    carriage return, are each read as one newline. *)
Fixpoint universal_newlines (s : string) : string :=
  match s with
  | EmptyString => EmptyString
  | String c s' =>
      if Ascii.eqb c cr then
        String nl (match s' with
                   | String d s'' =>
                       if Ascii.eqb d nl then universal_newlines s''
                       else universal_newlines s'
                   | EmptyString => EmptyString
                   end)
      else String c (universal_newlines s')
  end.

(** [posixpath.join(a, b)] *)
Definition path_join (a b : string) : string :=
  if startswith b "/" then b
  else if String.eqb a "" || endswith a "/" then a ++ b
  else a ++ "/" ++ b.

End Py.

(** ** The two regular expressions

    Both patterns are matched the way [re] matches them, by backtracking:
    a greedy repetition tries the longer run first, a lazy one the shorter. *)

Module Re.

(** [[A-Za-z0-9_]] *)
Definition is_ident (c : ascii) : bool :=
  let n := nat_of_ascii c in
  (((65 <=? n) && (n <=? 90)) || ((97 <=? n) && (n <=? 122))
   || ((48 <=? n) && (n <=? 57)) || (n =? 95))%nat.

(** [$] without [re.MULTILINE]: the end of the string, or just before a
    newline that is the last character. *)
Definition at_dollar (s : string) : bool :=
  match s with
  | EmptyString => true
  | String c EmptyString => Ascii.eqb c Py.nl
  | _ => false
  end.

(** [([A-Za-z0-9_]+)$] from the start of [s]: the group, if it matches. *)
Fixpoint ident_dollar (s : string) : option string :=
  match s with
  | String c s' =>
      if is_ident c then
        match ident_dollar s' with
        | Some name => Some (String c name)
        | None => if at_dollar s' then Some (String c EmptyString) else None
        end
      else None
  | EmptyString => None
  end.

(** [typename_regex.match(s)], the two groups of
    [(.*?)([A-Za-z0-9_]+)$]; [.] is any character but a newline. *)
Fixpoint typename_match (s : string) : option (string * string) :=
  match ident_dollar s with
  | Some name => Some (EmptyString, name)
  | None =>
      match s with
      | String c s' =>
          if Ascii.eqb c Py.nl then None
          else match typename_match s' with
               | Some (pre, name) => Some (String c pre, name)
               | None => None
               end
      | EmptyString => None
      end
  end.

(** [s] without the literal [lit] it starts with *)
Fixpoint literal (lit s : string) : option string :=
  match lit, s with
  | EmptyString, _ => Some s
  | String a lit', String b s' =>
      if Ascii.eqb a b then literal lit' s' else None
  | String _ _, EmptyString => None
  end.

(** The argument group (a greedy run of characters other than a closing
    parenthesis) and the closing parenthesis: the group and the number of
    characters matched. *)
Fixpoint args_close (s : string) : option (string * nat) :=
  match s with
  | String c s' =>
      if Ascii.eqb c ")" then Some (EmptyString, 1)
      else match args_close s' with
           | Some (a, n) => Some (String c a, S n)
           | None => None
           end
  | EmptyString => None
  end.

(** The opening parenthesis, the argument group, the closing one. *)
Definition open_args_close (s : string) : option (string * nat) :=
  match s with
  | String c s' =>
      if Ascii.eqb c "(" then
        match args_close s' with
        | Some (a, n) => Some (a, S n)
        | None => None
        end
      else None
  | EmptyString => None
  end.

(** The group [([^(]+)] of the return type and name, then the
    parenthesised argument group: both groups and the length. *)
Fixpoint func_args (s : string) : option (string * string * nat) :=
  match s with
  | String c s' =>
      if Ascii.eqb c "(" then None
      else match func_args s' with
           | Some (f, a, n) => Some (String c f, a, S n)
           | None =>
               match open_args_close s' with
               | Some (a, n) => Some (String c EmptyString, a, S n)
               | None => None
               end
           end
  | EmptyString => None
  end.

(** [\s+] and the two groups after it. *)
Fixpoint spaces_func_args (s : string) : option (string * string * nat) :=
  match s with
  | String c s' =>
      if Py.isspace c then
        match spaces_func_args s' with
        | Some (f, a, n) => Some (f, a, S n)
        | None =>
            match func_args s' with
            | Some (f, a, n) => Some (f, a, S n)
            | None => None
            end
        end
      else None
  | EmptyString => None
  end.

(** One alternative of [(syscall|syscall_inline)] and what follows it. *)
Definition variant_then (variant s : string)
  : option (string * string * string * nat) :=
  match literal variant s with
  | Some rest =>
      match spaces_func_args rest with
      | Some (f, a, n) => Some (variant, f, a, String.length variant + n)
      | None => None
      end
  | None => None
  end.

(** [api_regex.match] at the start of [s]: [mo.groups()] and the length of
    the match. *)
Definition api_match (s : string) : option (string * string * string * nat) :=
  match literal "__" s with
  | Some rest =>
      match variant_then "syscall" rest with
      | Some (v, f, a, n) => Some (v, f, a, 2 + n)
      | None =>
          match variant_then "syscall_inline" rest with
          | Some (v, f, a, n) => Some (v, f, a, 2 + n)
          | None => None
          end
      end
  | None => None
  end.

(** [api_regex.finditer(s)], the groups of every match: the scan resumes
    where a match ended, [skip] counts the characters of the current match
    still to pass. *)
Fixpoint finditer_from (skip : nat) (s : string)
  : list (string * string * string) :=
  match skip with
  | S k =>
      match s with
      | String _ s' => finditer_from k s'
      | EmptyString => []
      end
  | O =>
      match api_match s with
      | Some (v, f, a, n) =>
          (v, f, a) :: match s with
                       | String _ s' => finditer_from (n - 1) s'
                       | EmptyString => []
                       end
      | None =>
          match s with
          | String _ s' => finditer_from 0 s'
          | EmptyString => []
          end
      end
  end.

Definition finditer (s : string) : list (string * string * string) :=
  finditer_from 0 s.

End Re.

(** ** The script *)

(** What the host may raise on a call. *)
Inductive os_error : Type :=
| FileNotFoundError (path : string)
| FileExistsError (path : string)
| UnicodeDecodeError (path : string)
| OSError (path : string).

(** The exceptions a run can end with: the script's own
    [SyscallParseException], and those of the host. *)
Inductive exn : Type :=
| SyscallParseException (message : string)
| HostError (err : os_error).

(** The calls of the host a run makes. *)
Inductive Request : Type :=
| OpenRead (path : string)
| ReadText (path : string)
| OpenWrite (path : string)
| WriteText (path : string)
| Makedirs (path : string)
| WriteStdout.

(** What the run does to its surroundings, in the order it happens:
    [open(path, "w")] empties the file, [fp.write] fills it. *)
Inductive Event : Type :=
| EvTruncate (path : string)
| EvWrite (path content : string)
| EvMakedirs (path : string).

(** The surroundings of a run.  [files] holds, for every file, the text that
    is stored in it; a file is known by [ident] of a path, so that two paths
    that name one file ([out/foo.h] and [./out/foo.h], or two spellings on a
    file system that ignores case) share its text.  [refuses] is the host:
    given what the run has done so far it tells whether a call raises, and
    what (a directory that is missing, a file that cannot be decoded, a
    full disk).  The scanned include tree is an argument of its own ([Dir]
    below).  The host is a POSIX one, as [posixpath.join] above
    has it: [os.linesep] is the newline, and text is stored as it is
    written. *)
Record World : Type := mkWorld {
  files : string -> option string;
  stdout : string;
  stderr : string;
  events : list Event;
  ident : string -> string;
  refuses : list Event -> Request -> option os_error
}.

(** *** State and exceptions *)

Definition M (A : Type) : Type := World -> World * (exn + A).

Definition ret {A : Type} (a : A) : M A := fun w => (w, inr a).

Definition bind {A B : Type} (m : M A) (k : A -> M B) : M B :=
  fun w =>
    match m w with
    | (w', inr a) => k a w'
    | (w', inl e) => (w', inl e)
    end.

Definition lift {A : Type} (r : exn + A) : M A := fun w => (w, r).

(** [try: m  except ...: handler; raise] *)
Definition reraising {A : Type} (m : M A) (handler : World -> World) : M A :=
  fun w =>
    match m w with
    | (w', inl e) => (handler w', inl e)
    | done => done
    end.

Declare Scope monad_scope.
Delimit Scope monad_scope with monad.
Notation "x <- m ;; k" := (bind m (fun x => k))
  (at level 61, m at next level, right associativity) : monad_scope.
Notation "' pat <- m ;; k" := (bind m (fun x => match x with pat => k end))
  (at level 61, pat pattern, m at next level, right associativity)
  : monad_scope.
Notation "m ;; k" := (bind m (fun _ => k))
  (at level 61, right associativity) : monad_scope.
Local Open Scope monad_scope.

(** A list comprehension whose element expression may raise. *)
Fixpoint comprehension {A B : Type} (f : A -> M B) (l : list A) : M (list B) :=
  match l with
  | [] => ret []
  | a :: l' => b <- f a ;; bs <- comprehension f l' ;; ret (b :: bs)
  end.

(** A [for] loop over [l] whose body updates the local state [s]. *)
Fixpoint for_each {A S : Type} (l : list A) (body : A -> S -> M S) (s : S)
  : M S :=
  match l with
  | [] => ret s
  | a :: l' => s' <- body a s ;; for_each l' body s'
  end.

(** *** The world and the calls of the host *)

Definition stderr_write (text : string) (w : World) : World :=
  mkWorld (files w) (stdout w) (stderr w ++ text) (events w)
          (ident w) (refuses w).

Definition with_stdout (text : string) (w : World) : World :=
  mkWorld (files w) (stdout w ++ text) (stderr w) (events w)
          (ident w) (refuses w).

(** The file [path] names holds [content]. *)
Definition with_file (path content : string) (w : World) : World :=
  mkWorld (fun k => if String.eqb k (ident w path) then Some content
                    else files w k)
          (stdout w) (stderr w) (events w) (ident w) (refuses w).

Definition with_event (ev : Event) (w : World) : World :=
  mkWorld (files w) (stdout w) (stderr w) (events w ++ [ev])%list
          (ident w) (refuses w).

(** A call of the host: it raises what the host refuses it with. *)
Definition attempt (rq : Request) : M unit :=
  fun w =>
    match refuses w (events w) rq with
    | Some err => (w, inl (HostError err))
    | None => (w, inr tt)
    end.

(** The world after [open(path, "w")]. *)
Definition truncated (path : string) (w : World) : World :=
  with_event (EvTruncate path) (with_file path "" w).

(** The world after [with open(path, "w") as fp: fp.write(content)]. *)
Definition written (path content : string) (w : World) : World :=
  with_event (EvWrite path content) (with_file path content (truncated path w)).

(** [with open(path, "w") as fp: fp.write(content)] *)
Definition open_write (path content : string) : M unit :=
  attempt (OpenWrite path) ;;
  (fun w => (truncated path w, inr tt)) ;;
  attempt (WriteText path) ;;
  (fun w => (with_event (EvWrite path content) (with_file path content w),
             inr tt)).

(** [sys.stdout.write(text)] *)
Definition stdout_write (text : string) : M unit :=
  attempt WriteStdout ;; (fun w => (with_stdout text w, inr tt)).

(** [os.path.exists(path)] *)
Definition path_exists (path : string) : M bool :=
  fun w => (w, inr (match files w (ident w path) with
                    | Some _ => true
                    | None => false
                    end)).

(** [with open(path, "r") as fp: fp.read()] *)
Definition open_read (path : string) : M string :=
  attempt (OpenRead path) ;;
  attempt (ReadText path) ;;
  (fun w =>
     match files w (ident w path) with
     | Some stored => (w, inr (Py.universal_newlines stored))
     | None => (w, inl (HostError (FileNotFoundError path)))
     end).

(** [os.makedirs(path, exist_ok=True)] *)
Definition makedirs (path : string) : M unit :=
  attempt (Makedirs path) ;;
  (fun w => (with_event (EvMakedirs path) w, inr tt)).

(** *** typename_split *)

Definition msg_array (item : string) : string :=
  "Please pass arrays to syscalls as pointers, unable to process '"
    ++ item ++ "'".
Definition msg_function_pointer : string :=
  "Please use typedefs for function pointers".
Definition msg_malformed : string :=
  "Malformed system call invocation".

Definition typename_split (item : string) : exn + (string * string) :=
  if Py.contains "[" item then inl (SyscallParseException (msg_array item))
  else if Py.contains "(" item then
    inl (SyscallParseException msg_function_pointer)
  else match Re.typename_match item with
       | None => inl (SyscallParseException msg_malformed)
       | Some (m0, m1) => inr (Py.strip m0, m1)
       end.

(** *** analyze_fn *)

(** The tuple [analyze_fn] returns, field by field. *)
Record Syscall : Type := mkSyscall {
  fn : string;
  handler : string;
  invocation : string;
  sys_id : string;
  table_entry : string
}.

(** ["K_SYSCALL_DECLARE%d%s%s" % (n, "_VOID" if is_void else "",
    "_INLINE" if is_inline else "")] *)
Definition macro (n : nat) (is_void is_inline : bool) : string :=
  "K_SYSCALL_DECLARE" ++ Py.fmt_d n
    ++ (if is_void then "_VOID" else "")
    ++ (if is_inline then "_INLINE" else "").

(** [[typename_split(a.strip()) for a in pieces]] *)
Fixpoint split_pieces (pieces : list string) : exn + list (string * string) :=
  match pieces with
  | [] => inr []
  | a :: rest =>
      match typename_split (Py.strip a) with
      | inl e => inl e
      | inr tn =>
          match split_pieces rest with
          | inl e => inl e
          | inr tns => inr (tn :: tns)
          end
      end
  end.

(** The list [args] of the script after its [if args == "void"]. *)
Definition split_args (args : string) : exn + list (string * string) :=
  if String.eqb args "void" then inr []
  else split_pieces (Py.split "," args).

Definition flatten (args : list (string * string)) : list string :=
  flat_map (fun sublist => [fst sublist; snd sublist]) args.

(** Lines 57 to 82 of the script: the tuple built once the declaration is
    split. *)
Definition syscall_record (variant fn : string) (args : list (string * string))
           (func_type func_name : string) : Syscall :=
  let sys_id := "K_SYSCALL_" ++ Py.upper func_name in
  let is_void := String.eqb func_type "void" in
  let macro := macro (List.length args) is_void
                     (String.eqb variant "syscall_inline") in
  let flat_args := flatten args in
  let flat_args := if is_void then flat_args else func_type :: flat_args in
  let flat_args := sys_id :: func_name :: flat_args in
  let argslist := Py.join ", " flat_args in
  let invocation := macro ++ "(" ++ argslist ++ ");" in
  let handler := "_handler_" ++ func_name in
  let table_entry := "[" ++ sys_id ++ "] = " ++ handler in
  mkSyscall fn handler invocation sys_id table_entry.

Definition analyze_fn (match_group : string * string * string) (fn : string)
  : M Syscall :=
  let '(variant, func, args) := match_group in
  '(args, (func_type, func_name)) <-
    reraising
      (args <- lift (split_args args) ;;
       func_split <- lift (typename_split func) ;;
       ret (args, func_split))
      (stderr_write ("In declaration of " ++ func ++ String Py.nl "")) ;;
  ret (syscall_record variant fn args func_type func_name).

(** *** analyze_headers *)

(** A directory as [os.walk] lists it: its files, each with the text
    stored in it, and its subdirectories, all by name and in listing
    order. *)
#[warning="-register-all"]
Inductive Dir : Type :=
| mkDir (dir_files : list (string * string)) (dirs : list (string * Dir)).

(** [os.walk(top)] top-down: every directory with its path and files. *)
Fixpoint walk (top : string) (d : Dir) : list (string * list (string * string)) :=
  match d with
  | mkDir dir_files dirs =>
      (top, dir_files)
        :: flat_map (fun sub => walk (Py.path_join top (fst sub)) (snd sub)) dirs
  end.

(** Whether the loop body [continue]s on the file [fn] of directory [root]. *)
Definition skipped (root fn : string) : bool :=
  let path := Py.path_join root fn in
  negb (Py.endswith fn ".h") || Py.endswith path "toolchain/common.h".

(** The [try] block under [with open(path, "r") as fp]: [fp.read()], which
    the host may refuse and which reads every line end as a newline, and the
    comprehension over the matches of what was read. *)
Definition scan_file (path fn text : string) : M (list Syscall) :=
  reraising
    (attempt (ReadText path) ;;
     comprehension (fun mo => analyze_fn mo fn)
                   (Re.finditer (Py.universal_newlines text)))
    (stderr_write ("While parsing " ++ fn ++ String Py.nl "")).

(** The body of the inner loop, over the files of the directory [root]. *)
Definition visit_file (root : string) (f : string * string)
           (ret_ : list Syscall) : M (list Syscall) :=
  let '(fn, text) := f in
  if skipped root fn then ret ret_
  else
    attempt (OpenRead (Py.path_join root fn)) ;;
    result <- scan_file (Py.path_join root fn) fn text ;;
    ret (ret_ ++ result)%list.

(** The body of the outer loop, over the directories of the walk. *)
Definition visit_dir (d : string * list (string * string))
           (ret_ : list Syscall) : M (list Syscall) :=
  let '(root, dir_files) := d in
  for_each dir_files (visit_file root) ret_.

Definition analyze_headers (base_path : string) (tree : Dir)
  : M (list Syscall) :=
  for_each (walk base_path tree) visit_dir [].

(** *** The templates

    [text] writes the lines of a triple-quoted literal, each with its
    newline; a template is a function of what its [%s] receive. *)

Definition text (lines : list string) : string :=
  String.concat "" (map (fun l => l ++ String Py.nl "") lines).

Definition table_template (weak_defines entries : string) : string :=
  text ["/* auto-generated by gen_syscalls.py, don't edit */";
        "";
        "/* Weak handler functions that get replaced by the real ones unles a system";
        " * call is not implemented due to kernel configuration";
        " */"]
  ++ weak_defines
  ++ text [""; "";
           "const _k_syscall_handler_t _k_syscall_table[K_SYSCALL_LIMIT] = {"]
  ++ String Py.tab entries
  ++ text [""; "};"].

Definition extern_C : string :=
  "extern " ++ String Py.dquote "C" ++ String Py.dquote " {".

Definition list_template (ids handler_defines : string) : string :=
  text ["";
        "/* auto-generated by gen_syscalls.py, don't edit */";
        "#ifndef _ZEPHYR_SYSCALL_LIST_H_";
        "#define _ZEPHYR_SYSCALL_LIST_H_";
        "";
        "#ifndef _ASMLANGUAGE";
        "";
        "#ifdef __cplusplus";
        extern_C;
        "#endif";
        "";
        "enum {"]
  ++ String Py.tab ids
  ++ text [""; "};"; ""]
  ++ handler_defines
  ++ text [""; "";
           "#ifdef __cplusplus";
           "}";
           "#endif";
           "";
           "#endif /* _ASMLANGUAGE */";
           "";
           "#endif /* _ZEPHYR_SYSCALL_LIST_H_ */"].

Definition syscall_template (invocations : string) : string :=
  text ["";
        "/* auto-generated by gen_syscalls.py, don't edit */";
        "";
        "#ifndef _ASMLANGUAGE";
        "";
        "#include <syscall_list.h>";
        "#include <syscall_macros.h>";
        "";
        "#ifdef __cplusplus";
        extern_C;
        "#endif";
        ""]
  ++ invocations
  ++ text [""; "";
           "#ifdef __cplusplus";
           "}";
           "#endif";
           "";
           "#endif"].

Definition handler_template (name : string) : string :=
  text [""]
  ++ "extern u32_t " ++ name
  ++ text ["(u32_t arg1, u32_t arg2, u32_t arg3,";
           "                u32_t arg4, u32_t arg5, u32_t arg6, void *ssf);"].

Definition weak_template (name : string) : string :=
  text [""; "__weak ALIAS_OF(_handler_no_syscall)"]
  ++ "u32_t " ++ name
  ++ text ["(u32_t arg1, u32_t arg2, u32_t arg3,";
           "         u32_t arg4, u32_t arg5, u32_t arg6, void *ssf);"].

(** *** main *)

(** [ids.sort()]: the sorted arrangement of a list of strings, which for a
    total order on the elements themselves is the same whatever the sorting
    algorithm. *)
Module StringOrder <: TotalLeBool.
Definition t := string.
Definition leb := String.leb.
Definition leb_total : forall a1 a2, leb a1 a2 = true \/ leb a2 a1 = true :=
  String.leb_total.
End StringOrder.

Module StringSort := Sort StringOrder.

(** The parsed command line. *)
Record Args : Type := mkArgs {
  include : string;
  syscall_dispatch : string;
  base_output : string
}.

(** [invocations[fn].append(inv)] after [if fn not in invocations:
    invocations[fn] = []], on a dict in insertion order. *)
Fixpoint dict_append (key value : string) (d : list (string * list string))
  : list (string * list string) :=
  match d with
  | [] => [(key, [value])]
  | (k, vs) :: d' =>
      if String.eqb k key then (k, vs ++ [value])%list :: d'
      else (k, vs) :: dict_append key value d'
  end.

(** The four accumulators of the first loop of [main]. *)
Record Collected : Type := mkCollected {
  invocations : list (string * list string);
  ids : list string;
  table_entries : list string;
  handlers : list string
}.

Definition collect (syscalls : list Syscall) : Collected :=
  fold_left
    (fun acc r =>
       mkCollected (dict_append (fn r) (invocation r) (invocations acc))
                   (ids acc ++ [sys_id r])%list
                   (table_entries acc ++ [table_entry r])%list
                   (handlers acc ++ [handler r])%list)
    syscalls (mkCollected [] [] [] []).

Definition sep_entries : string := "," ++ String Py.nl (String Py.tab "").
Definition sep_blank_line : string := String Py.nl (String Py.nl "").

(** The text written to [args.syscall_dispatch]. *)
Definition dispatch_text (c : Collected) : string :=
  let table_entries :=
    (table_entries c ++ ["[K_SYSCALL_BAD] = _handler_bad_syscall"])%list in
  let weak_defines := Py.join "" (map weak_template (handlers c)) in
  table_template weak_defines (Py.join sep_entries table_entries).

(** The list [ids] when the listing is written. *)
Definition listing_ids (c : Collected) : list string :=
  (StringSort.sort (ids c) ++ ["K_SYSCALL_BAD"; "K_SYSCALL_LIMIT"])%list.

(** The text written to [sys.stdout]. *)
Definition listing_text (c : Collected) : string :=
  let handler_defines := Py.join "" (map handler_template (handlers c)) in
  list_template (Py.join sep_entries (listing_ids c)) handler_defines.

Definition header_text (invo_list : list string) : string :=
  syscall_template (Py.join sep_blank_line invo_list).

(** The body of the last loop of [main]. *)
Definition write_header (base_output : string)
           (item : string * list string) : M unit :=
  let '(fn, invo_list) := item in
  let out_fn := Py.path_join base_output fn in
  let header := header_text invo_list in
  there <- path_exists out_fn ;;
  unchanged <-
    (if there : bool then
       old_data <- open_read out_fn ;; ret (String.eqb old_data header)
     else ret false) ;;
  if unchanged : bool then ret tt else open_write out_fn header.

(** The last loop of [main]. *)
Definition write_headers (base_output : string)
           (items : list (string * list string)) : M unit :=
  for_each items (fun item _ => write_header base_output item) tt.

(** What [main] does once the records are collected. *)
Definition write_outputs (args : Args) (c : Collected) : M unit :=
  open_write (syscall_dispatch args) (dispatch_text c) ;;
  stdout_write (listing_text c) ;;
  makedirs (base_output args) ;;
  write_headers (base_output args) (invocations c).

Definition main (args : Args) (tree : Dir) : M unit :=
  syscalls <- analyze_headers (include args) tree ;;
  write_outputs args (collect syscalls).


(** ** Definitions the statements below are written with *)

(** A string of identifier characters only. *)
Fixpoint all_ident (s : string) : bool :=
  match s with
  | String c s' => Re.is_ident c && all_ident s'
  | EmptyString => true
  end.

(** [s] without the newline it ends with, if it ends with one. *)
Fixpoint chomp (s : string) : string :=
  match s with
  | EmptyString => EmptyString
  | String c EmptyString => if Ascii.eqb c Py.nl then EmptyString else s
  | String c s' => String c (chomp s')
  end.

(** [s] cut before its longest suffix of identifier characters. *)
Fixpoint split_trailing_ident (s : string) : string * string :=
  match s with
  | EmptyString => (EmptyString, EmptyString)
  | String c s' =>
      if all_ident s then (EmptyString, s)
      else let (pre, name) := split_trailing_ident s' in (String c pre, name)
  end.

(** A string of decimal digits only. *)
Definition is_digit (c : ascii) : bool :=
  let n := nat_of_ascii c in ((48 <=? n) && (n <=? 57))%nat.

Fixpoint all_digits (s : string) : bool :=
  match s with
  | String c s' => is_digit c && all_digits s'
  | EmptyString => true
  end.

(** A string that does not go on with a digit. *)
Definition no_digit_first (s : string) : bool :=
  match s with
  | String c _ => negb (is_digit c)
  | EmptyString => true
  end.

(** What [macro] appends to the argument count. *)
Definition macro_suffix (is_void is_inline : bool) : string :=
  (if is_void then "_VOID" else "") ++ (if is_inline then "_INLINE" else "").

(** The name of the macro in an invocation: the text before the first
    opening parenthesis. *)
Fixpoint macro_of (invocation : string) : string :=
  match invocation with
  | String c s' => if Ascii.eqb c "(" then EmptyString else String c (macro_of s')
  | EmptyString => EmptyString
  end.

(** [analyze_fn] without its message on [sys.stderr]. *)
Definition analyze_pure (match_group : string * string * string) (fn : string)
  : exn + Syscall :=
  let '(variant, func, args) := match_group in
  match split_args args with
  | inl e => inl e
  | inr args =>
      match typename_split func with
      | inl e => inl e
      | inr (func_type, func_name) =>
          inr (syscall_record variant fn args func_type func_name)
      end
  end.

(** The records of the declarations of one file that analyze. *)
Definition file_records (fn text : string) : list Syscall :=
  flat_map (fun mo => match analyze_pure mo fn with
                      | inr r => [r]
                      | inl _ => []
                      end)
           (Re.finditer (Py.universal_newlines text)).

(** The records of a directory's files, the skipped ones left out. *)
Definition dir_records (root : string) (dir_files : list (string * string))
  : list Syscall :=
  flat_map (fun f => if skipped root (fst f) then []
                     else file_records (fst f) (snd f))
           dir_files.

(** The records of a whole tree, in the order of the walk. *)
Definition tree_records (base_path : string) (tree : Dir) : list Syscall :=
  flat_map (fun d => dir_records (fst d) (snd d)) (walk base_path tree).

(** The files the invocation headers of a run are, one for each key of the
    dict. *)
Definition header_files (w : World) (base_output : string)
           (syscalls : list Syscall) : list string :=
  map (fun item => ident w (Py.path_join base_output (fst item)))
      (invocations (collect syscalls)).

(** The records with origin file [key], in their order. *)
Definition from_file (key : string) (syscalls : list Syscall) : list Syscall :=
  filter (fun r => String.eqb (fn r) key) syscalls.

(** [d.get(key)] on a dict in insertion order. *)
Fixpoint dict_get (key : string) (d : list (string * list string))
  : option (list string) :=
  match d with
  | [] => None
  | (k, vs) :: d' => if String.eqb k key then Some vs else dict_get key d'
  end.

(** The path of the invocation header of a dict item. *)
Definition header_path (base_output : string) (item : string * list string)
  : string :=
  Py.path_join base_output (fst item).

(** The world when the last loop of [main] starts. *)
Definition before_headers (args : Args) (c : Collected) (w : World) : World :=
  with_event (EvMakedirs (base_output args))
             (with_stdout (listing_text c)
                          (written (syscall_dispatch args) (dispatch_text c) w)).

(** Two worlds with the same files, standard output and actions: nothing
    but [sys.stderr] lies between them. *)
Definition same_artifacts (w w' : World) : Prop :=
  files w' = files w /\ stdout w' = stdout w /\ events w' = events w.

(** Two worlds of one host: paths name the same files and the host refuses
    the same calls. *)
Definition same_host (w w' : World) : Prop :=
  ident w' = ident w /\ refuses w' = refuses w.

(** No file at any path yet, and a host that refuses nothing: the
    directories the run writes into are there, every header can be read. *)
Definition empty_world : World :=
  mkWorld (fun _ => None) "" "" [] (fun path => path) (fun _ _ => None).

(** The same, on a host where the output directory [out] is missing until
    it is made. *)
Definition no_out_dir : World :=
  mkWorld (fun _ => None) "" "" [] (fun path => path)
          (fun done rq =>
             match rq with
             | OpenWrite path =>
                 if Py.startswith path "out/"
                    && negb (existsb (fun ev => match ev with
                                                | EvMakedirs "out" => true
                                                | _ => false
                                                end) done)
                 then Some (FileNotFoundError path) else None
             | _ => None
             end).

(** [s] with every newline written as a carriage return and a newline. *)
Fixpoint to_crlf (s : string) : string :=
  match s with
  | String c s' =>
      if Ascii.eqb c Py.nl then String Py.cr (String Py.nl (to_crlf s'))
      else String c (to_crlf s')
  | EmptyString => EmptyString
  end.

(** The events of a second run that are not about an invocation header. *)
Definition dispatch_or_makedirs (args : Args) (c : Collected) (ev : Event)
  : Prop :=
  ev = EvTruncate (syscall_dispatch args) \/
  ev = EvWrite (syscall_dispatch args) (dispatch_text c) \/
  ev = EvMakedirs (base_output args).

(** The events of the last loop of [main]: the file of a header is emptied,
    and the header written to it. *)
Definition header_write (base_output : string)
           (items : list (string * list string)) (ev : Event) : Prop :=
  exists item,
    In item items /\
    (ev = EvTruncate (header_path base_output item) \/
     ev = EvWrite (header_path base_output item) (header_text (snd item))).

(** A host that refuses nothing. *)
Definition permissive (w : World) : Prop :=
  forall done rq, refuses w done rq = None.

(** A world where a path and the same path after [./] name one file. *)
Definition dot_slash_world : World :=
  mkWorld (fun _ => None) "" "" []
          (fun path => if Py.startswith path "./"
                       then String.substring 2 (String.length path - 2) path
                       else path)
          (fun _ _ => None).

(** The dispatch table asked for at the file of a header, under another
    spelling of its path. *)
Definition aliasing_args : Args := mkArgs "include" "./out/foo.h" "out".


(** The scenario of a single header [foo.h]. *)
Definition foo_h : Dir :=
  mkDir [("foo.h", "__syscall int bar(int a, void *b);")] [].

Definition bar_invocation : string :=
  "K_SYSCALL_DECLARE2(K_SYSCALL_BAR, bar, int, int, a, void *, b);".

Definition bar_record : Syscall :=
  mkSyscall "foo.h" "_handler_bar" bar_invocation
            "K_SYSCALL_BAR" "[K_SYSCALL_BAR] = _handler_bar".

(** Two headers of the same base name in two subdirectories. *)
Definition two_dirs : Dir :=
  mkDir []
        [("drivers", mkDir [("uart.h", "__syscall int poll(int dev);")] []);
         ("net", mkDir [("uart.h", "__syscall void flush(void);");
                        ("ip.h", "__syscall_inline int ttl(void);")] [])].

(** The same function declared in two headers. *)
Definition declared_twice : Dir :=
  mkDir [("a.h", "__syscall void ping(void);");
         ("b.h", "__syscall void ping(void);")] [].

(** A header with a declaration the parser rejects. *)
Definition with_array : Dir :=
  mkDir [("ok.h", "__syscall void ping(void);");
         ("bad.h", "__syscall int fill(int buf[4]);")] [].

Definition sample_args : Args := mkArgs "include" "out/syscall_dispatch.c" "out".

(** The dispatch table asked for at the path of a header. *)
Definition clashing_args : Args := mkArgs "include" "out/foo.h" "out".

(** A declaration whose argument list is [void] between blanks. *)
Definition padded_void : string := "__syscall int foo( void );".

(** A return fragment broken over two lines. *)
Definition two_line_fragment : string := "int" ++ String Py.nl "foo".

(** ** Further definitions for the properties of the extractor, the
    splitter and the run *)

(** A string of whitespace only. *)
Fixpoint all_space (s : string) : bool :=
  match s with
  | String c s' => Py.isspace c && all_space s'
  | EmptyString => true
  end.

(** A string that starts with whitespace. *)
Definition starts_space (s : string) : bool :=
  match s with
  | String c _ => Py.isspace c
  | EmptyString => false
  end.

(** A string that is empty or ends with a character that is not of the
    identifier alphabet. *)
Fixpoint last_not_ident (s : string) : bool :=
  match s with
  | EmptyString => true
  | String c EmptyString => negb (Re.is_ident c)
  | String _ s' => last_not_ident s'
  end.

(** The letters a to z. *)
Definition is_lower (c : ascii) : bool :=
  let n := nat_of_ascii c in ((97 <=? n) && (n <=? 122))%nat.

Fixpoint no_lower (s : string) : bool :=
  match s with
  | String c s' => negb (is_lower c) && no_lower s'
  | EmptyString => true
  end.

(** How often [c] occurs in [s]. *)
Fixpoint count_char (c : ascii) (s : string) : nat :=
  match s with
  | String d s' => (if Ascii.eqb d c then 1 else 0) + count_char c s'
  | EmptyString => 0
  end.

(** The text of a declaration: the annotation, whitespace, the return type
    and name, and the parenthesised argument list. *)
Definition declaration (variant spaces func args : string) : string :=
  "__" ++ variant ++ spaces ++ func ++ "(" ++ args ++ ")".

(** [mo] is a match of the header [fn], a file of the tree that the walk
    does not skip. *)
Definition scanned (base_path : string) (tree : Dir) (fn : string)
           (mo : string * string * string) : Prop :=
  exists root dir_files text,
    In (root, dir_files) (walk base_path tree) /\
    In (fn, text) dir_files /\
    skipped root fn = false /\
    In mo (Re.finditer (Py.universal_newlines text)).

(** The two lines a failing declaration leaves on [sys.stderr]. *)
Definition diagnostics (func fn : string) : string :=
  ("In declaration of " ++ func ++ String Py.nl "")
    ++ ("While parsing " ++ fn ++ String Py.nl "").

(** The three messages of [typename_split]. *)
Definition parse_error (e : exn) : Prop :=
  (exists item, e = SyscallParseException (msg_array item)) \/
  e = SyscallParseException msg_function_pointer \/
  e = SyscallParseException msg_malformed.


(** ** The regular expression of [typename_split] *)

Section TypenameRegex.

Lemma is_ident_not_nl (c : ascii) :
  Re.is_ident c = true -> Ascii.eqb c Py.nl = false.
Proof.
  intros H. destruct (Ascii.eqb_spec c Py.nl) as [->|]; [discriminate H | reflexivity].
Qed.

Lemma chomp_cons (c : ascii) (s : string) :
  Ascii.eqb c Py.nl = false -> chomp (String c s) = String c (chomp s).
Proof.
  intros H. destruct s; simpl; [rewrite H|]; reflexivity.
Qed.

Lemma chomp_cons_cons (c d : ascii) (s : string) :
  chomp (String c (String d s)) = String c (chomp (String d s)).
Proof. reflexivity. Qed.

Lemma at_dollar_chomp (s : string) :
  Re.at_dollar s = String.eqb (chomp s) "".
Proof.
  destruct s as [|c [|d s']]; simpl; try reflexivity.
  destruct (Ascii.eqb c Py.nl); reflexivity.
Qed.

(** The identifier group matches exactly when the string, less a final
    newline, is a non-empty identifier, and then it is that identifier. *)
Lemma ident_dollar_spec (s : string) :
  Re.ident_dollar s =
    if all_ident (chomp s) && negb (String.eqb (chomp s) "")
    then Some (chomp s) else None.
Proof.
  induction s as [|c s IH]; [reflexivity|].
  cbn [Re.ident_dollar]. destruct (Re.is_ident c) eqn:Hc.
  - rewrite (chomp_cons c s (is_ident_not_nl c Hc)).
    cbn [all_ident]. rewrite Hc, IH, at_dollar_chomp. cbn [andb String.eqb negb].
    destruct (chomp s) as [|d t] eqn:Hch; [reflexivity|].
    cbn [String.eqb negb]. rewrite andb_true_r.
    destruct (all_ident (String d t)); reflexivity.
  - destruct s as [|d s'].
    + simpl. destruct (Ascii.eqb c Py.nl); [reflexivity|].
      simpl. rewrite Hc. reflexivity.
    + rewrite chomp_cons_cons. cbn [all_ident]. rewrite Hc. reflexivity.
Qed.

Lemma split_trailing_ident_all (s : string) :
  all_ident s = true -> split_trailing_ident s = (EmptyString, s).
Proof.
  destruct s as [|c s]; [reflexivity|]. intros H.
  cbn [split_trailing_ident]. rewrite H. reflexivity.
Qed.

(** What [typename_regex.match] returns, without the search. *)
Lemma typename_match_spec (s : string) :
  Re.typename_match s =
    let (pre, name) := split_trailing_ident (chomp s) in
    if String.eqb name "" || Py.contains Py.nl pre then None
    else Some (pre, name).
Proof.
  induction s as [|c s IH]; [reflexivity|].
  cbn [Re.typename_match]. rewrite ident_dollar_spec.
  destruct (Ascii.eqb c Py.nl) eqn:Hnl.
  - apply Ascii.eqb_eq in Hnl. subst c.
    destruct s as [|d s']; [reflexivity|].
    rewrite chomp_cons_cons. cbn [split_trailing_ident all_ident].
    replace (Re.is_ident Py.nl) with false by reflexivity. cbn [andb].
    destruct (split_trailing_ident (chomp (String d s'))) as [pre name].
    cbn [Py.contains]. rewrite Ascii.eqb_refl, orb_true_r. reflexivity.
  - rewrite (chomp_cons c s Hnl). cbn [String.eqb negb].
    rewrite andb_true_r.
    destruct (all_ident (String c (chomp s))) eqn:Hall.
    + rewrite (split_trailing_ident_all _ Hall). reflexivity.
    + cbn [split_trailing_ident]. rewrite Hall, IH.
      destruct (split_trailing_ident (chomp s)) as [pre name].
      cbn [Py.contains]. rewrite Ascii.eqb_sym, Hnl. cbn [orb].
      destruct (String.eqb name "" || Py.contains Py.nl pre); reflexivity.
Qed.

Lemma split_trailing_ident_name (s : string) :
  all_ident (snd (split_trailing_ident s)) = true.
Proof.
  induction s as [|c s IH]; [reflexivity|].
  cbn [split_trailing_ident].
  destruct (all_ident (String c s)) eqn:H; [exact H|].
  destruct (split_trailing_ident s); exact IH.
Qed.

Lemma split_trailing_ident_app (s : string) :
  fst (split_trailing_ident s) ++ snd (split_trailing_ident s) = s.
Proof.
  induction s as [|c s IH]; [reflexivity|].
  cbn [split_trailing_ident].
  destruct (all_ident (String c s)); [reflexivity|].
  destruct (split_trailing_ident s); simpl in *. now rewrite IH.
Qed.

(** The name [typename_split] returns is a non-empty identifier. *)
Lemma typename_split_name (item type_text name : string) :
  typename_split item = inr (type_text, name) ->
  all_ident name = true /\ name <> "".
Proof.
  unfold typename_split.
  destruct (Py.contains "[" item); [discriminate|].
  destruct (Py.contains "(" item); [discriminate|].
  rewrite typename_match_spec.
  pose proof (split_trailing_ident_name (chomp item)) as Hn.
  destruct (split_trailing_ident (chomp item)) as [pre nm]. simpl in Hn.
  destruct (String.eqb_spec nm ""); cbn [orb]; [discriminate|].
  destruct (Py.contains Py.nl pre); [discriminate|].
  intros H. injection H as _ <-. split; assumption.
Qed.

End TypenameRegex.

(** ** [typename_split] *)

(** C4, as amended: a fragment with a bracket is rejected with the array
    message; one with an opening parenthesis and no bracket is rejected with
    the function-pointer message; any other fragment is cut, a final newline
    set aside, before its longest suffix of identifier characters, and it is
    rejected as malformed when that suffix is empty or a newline comes before
    it, and otherwise split into the stripped text before the suffix and the
    suffix. *)
Theorem typename_split_cases (item : string) :
  (Py.contains "[" item = true ->
   typename_split item = inl (SyscallParseException (msg_array item))) /\
  (Py.contains "[" item = false -> Py.contains "(" item = true ->
   typename_split item = inl (SyscallParseException msg_function_pointer)) /\
  (Py.contains "[" item = false -> Py.contains "(" item = false ->
   let (pre, name) := split_trailing_ident (chomp item) in
   typename_split item =
     if String.eqb name "" || Py.contains Py.nl pre
     then inl (SyscallParseException msg_malformed)
     else inr (Py.strip pre, name)).
Proof.
  unfold typename_split. repeat split.
  - intros ->. reflexivity.
  - intros -> ->. reflexivity.
  - intros -> ->. rewrite typename_match_spec.
    destruct (split_trailing_ident (chomp item)) as [pre name].
    destruct (String.eqb name "" || Py.contains Py.nl pre); reflexivity.
Qed.

Lemma typename_split_cases_witness :
  typename_split "int a[5]"
    = inl (SyscallParseException (msg_array "int a[5]")) /\
  typename_split "int (*cb)"
    = inl (SyscallParseException msg_function_pointer) /\
  typename_split "void *b" = inr ("void *", "b") /\
  typename_split "struct k_sem *" = inl (SyscallParseException msg_malformed).
Proof.
  split; [| split; [| split]].
  - apply (proj1 (typename_split_cases "int a[5]")). reflexivity.
  - apply (proj1 (proj2 (typename_split_cases "int (*cb)"))); reflexivity.
  - exact (proj2 (proj2 (typename_split_cases "void *b")) eq_refl eq_refl).
  - exact (proj2 (proj2 (typename_split_cases "struct k_sem *"))
                 eq_refl eq_refl).
Defined.

(** C4, as stated, fails on a fragment broken over two lines: it holds no
    bracket and no parenthesis and ends with the identifier [foo], and is
    rejected all the same. *)
Lemma typename_split_two_line_fragment :
  Py.contains "[" two_line_fragment = false /\
  Py.contains "(" two_line_fragment = false /\
  split_trailing_ident two_line_fragment = ("int" ++ String Py.nl "", "foo") /\
  typename_split two_line_fragment = inl (SyscallParseException msg_malformed).
Proof. split; [|split; [|split]]; reflexivity. Qed.

Example typename_split_final_newline :
  typename_split ("int foo" ++ String Py.nl "") = inr ("int", "foo").
Proof. reflexivity. Qed.

Example typename_split_trailing_blank :
  typename_split "int foo " = inl (SyscallParseException msg_malformed).
Proof. reflexivity. Qed.

Example typename_split_bracket_first :
  typename_split "int (*cb)[2]"
  = inl (SyscallParseException (msg_array "int (*cb)[2]")).
Proof. reflexivity. Qed.

Example typename_split_bare_identifier :
  typename_split "void" = inr ("", "void").
Proof. reflexivity. Qed.

(** ** [analyze_fn] *)

Section AnalyzeFn.

Variables (variant func args fn : string).

(** The message on [sys.stderr] apart, [analyze_fn] is [analyze_pure]. *)
Lemma analyze_fn_unfold (w : World) :
  analyze_fn (variant, func, args) fn w =
    match analyze_pure (variant, func, args) fn with
    | inl e =>
        (stderr_write ("In declaration of " ++ func ++ String Py.nl "") w,
         inl e)
    | inr r => (w, inr r)
    end.
Proof.
  unfold analyze_fn, analyze_pure, bind, reraising, lift, ret.
  destruct (split_args args) as [e|parsed]; [reflexivity|].
  destruct (typename_split func) as [e|[func_type func_name]]; reflexivity.
Qed.

Lemma analyze_fn_inr (w w' : World) (r : Syscall) :
  analyze_fn (variant, func, args) fn w = (w', inr r) ->
  w' = w /\
  exists parsed func_type func_name,
    split_args args = inr parsed /\
    typename_split func = inr (func_type, func_name) /\
    r = syscall_record variant fn parsed func_type func_name.
Proof.
  rewrite analyze_fn_unfold. unfold analyze_pure.
  destruct (split_args args) as [e|parsed]; [discriminate|].
  destruct (typename_split func) as [e|[func_type func_name]];
    [discriminate|].
  intros H. injection H as <- <-. split; [reflexivity|].
  exists parsed, func_type, func_name. auto.
Qed.

End AnalyzeFn.

(** C1: the identifier of an analysed declaration is [K_SYSCALL_] and the
    upper-cased function name, its handler [_handler_] and the function
    name, its dispatch entry [[identifier] = handler]; the function name is
    the identifier [typename_split] finds in the return fragment. *)
Theorem analyze_fn_names (variant func args fn : string) (w w' : World)
        (r : Syscall) :
  analyze_fn (variant, func, args) fn w = (w', inr r) ->
  exists func_type func_name,
    typename_split func = inr (func_type, func_name) /\
    all_ident func_name = true /\
    sys_id r = "K_SYSCALL_" ++ Py.upper func_name /\
    handler r = "_handler_" ++ func_name /\
    table_entry r = "[" ++ sys_id r ++ "] = " ++ handler r.
Proof.
  intros H. apply analyze_fn_inr in H.
  destruct H as [_ (parsed & func_type & func_name & _ & Hf & ->)].
  exists func_type, func_name. split; [exact Hf|].
  split; [exact (proj1 (typename_split_name _ _ _ Hf))|].
  split; [|split]; reflexivity.
Qed.

Lemma analyze_fn_names_witness :
  exists func_type func_name,
    typename_split "int bar" = inr (func_type, func_name) /\
    all_ident func_name = true /\
    sys_id bar_record = "K_SYSCALL_" ++ Py.upper func_name /\
    handler bar_record = "_handler_" ++ func_name /\
    table_entry bar_record
      = "[" ++ sys_id bar_record ++ "] = " ++ handler bar_record.
Proof.
  apply (analyze_fn_names "syscall" "int bar" "int a, void *b" "foo.h"
                          empty_world empty_world bar_record).
  reflexivity.
Defined.

(** ** The macro name *)

Section MacroName.

Lemma append_inj_l (p a b : string) : p ++ a = p ++ b -> a = b.
Proof.
  induction p as [|c p IH]; simpl; intros H; [exact H|].
  injection H as H. auto.
Qed.

Lemma contains_app (c : ascii) (a b : string) :
  Py.contains c (a ++ b) = Py.contains c a || Py.contains c b.
Proof.
  induction a as [|d a IH]; cbn [Py.contains String.append]; [reflexivity|].
  rewrite IH. apply orb_assoc.
Qed.

Lemma uint_digits (d : Decimal.uint) :
  all_digits (NilEmpty.string_of_uint d) = true.
Proof. induction d; simpl; auto. Qed.

Lemma fmt_d_digits (n : nat) : all_digits (Py.fmt_d n) = true.
Proof. apply uint_digits. Qed.

Lemma fmt_d_inj (n n' : nat) : Py.fmt_d n = Py.fmt_d n' -> n = n'.
Proof.
  unfold Py.fmt_d. intros H.
  apply (f_equal NilEmpty.uint_of_string) in H.
  rewrite !NilEmpty.usu in H. injection H as H.
  now apply Unsigned.to_uint_inj.
Qed.

Lemma digits_no_paren (s : string) :
  all_digits s = true -> Py.contains "(" s = false.
Proof.
  induction s as [|c s IH]; cbn [Py.contains all_digits]; [reflexivity|].
  intros H. apply andb_prop in H. destruct H as [Hc Hs].
  rewrite (IH Hs), orb_false_r.
  destruct (Ascii.eqb "(" c) eqn:E; [|reflexivity].
  apply Ascii.eqb_eq in E. subst c. discriminate Hc.
Qed.

(** Digits followed by something that is not a digit: the digits and the
    rest are both determined. *)
Lemma digits_app_inj (d d' rest rest' : string) :
  all_digits d = true -> all_digits d' = true ->
  no_digit_first rest = true -> no_digit_first rest' = true ->
  d ++ rest = d' ++ rest' -> d = d' /\ rest = rest'.
Proof.
  revert d'. induction d as [|c d IH]; intros [|c' d'] Hd Hd' Hr Hr' H;
    simpl in *.
  - auto.
  - subst rest. simpl in Hr. apply andb_prop in Hd'.
    destruct Hd' as [Hc _]. rewrite Hc in Hr. discriminate.
  - subst rest'. simpl in Hr'. apply andb_prop in Hd.
    destruct Hd as [Hc _]. rewrite Hc in Hr'. discriminate.
  - injection H as -> H.
    apply andb_prop in Hd, Hd'. destruct Hd as [_ Hd], Hd' as [_ Hd'].
    destruct (IH d' Hd Hd' Hr Hr' H) as [-> ->]. auto.
Qed.

Lemma macro_suffix_inj (v i v' i' : bool) :
  macro_suffix v i = macro_suffix v' i' -> v = v' /\ i = i'.
Proof. destruct v, i, v', i'; simpl; intros H; try discriminate H; auto. Qed.

Lemma macro_alt (n : nat) (v i : bool) :
  macro n v i = "K_SYSCALL_DECLARE" ++ Py.fmt_d n ++ macro_suffix v i.
Proof. reflexivity. Qed.

Lemma macro_inj (n n' : nat) (v i v' i' : bool) :
  macro n v i = macro n' v' i' -> n = n' /\ v = v' /\ i = i'.
Proof.
  rewrite !macro_alt. intros H. apply append_inj_l in H.
  apply digits_app_inj in H; try apply fmt_d_digits;
    [| destruct v, i; reflexivity | destruct v', i'; reflexivity].
  destruct H as [Hn Hs]. split; [exact (fmt_d_inj _ _ Hn)|].
  exact (macro_suffix_inj _ _ _ _ Hs).
Qed.

Lemma macro_no_paren (n : nat) (v i : bool) :
  Py.contains "(" (macro n v i) = false.
Proof.
  rewrite macro_alt, !contains_app, (digits_no_paren _ (fmt_d_digits n)).
  destruct v, i; reflexivity.
Qed.

Lemma macro_of_app (m rest : string) :
  Py.contains "(" m = false -> macro_of (m ++ String "(" rest) = m.
Proof.
  induction m as [|c m IH];
    cbn [Py.contains String.append macro_of]; [intros _|].
  { rewrite Ascii.eqb_refl. reflexivity. }
  intros H. apply orb_false_elim in H. destruct H as [Hc Hm].
  rewrite Ascii.eqb_sym, Hc, (IH Hm). reflexivity.
Qed.

Lemma macro_of_record (variant fn : string) (args : list (string * string))
      (func_type func_name : string) :
  macro_of (invocation (syscall_record variant fn args func_type func_name))
  = macro (List.length args) (String.eqb func_type "void")
          (String.eqb variant "syscall_inline").
Proof.
  unfold syscall_record. cbn [invocation].
  apply (macro_of_app _ _ (macro_no_paren _ _ _)).
Qed.

End MacroName.

(** C2: the macro an analysed declaration invokes is [macro] of the number of
    its arguments, of whether its return type is the text [void] and of
    whether its annotation is [syscall_inline]; two triples with the same
    macro name are the same triple; with a [void] return type the name is
    [K_SYSCALL_DECLARE], the count, [_VOID] and, for the inline variant only,
    [_INLINE]. *)
Theorem macro_of_triple :
  (forall variant func args fn w w' r,
      analyze_fn (variant, func, args) fn w = (w', inr r) ->
      exists parsed func_type func_name,
        split_args args = inr parsed /\
        typename_split func = inr (func_type, func_name) /\
        macro_of (invocation r)
        = macro (List.length parsed) (String.eqb func_type "void")
                (String.eqb variant "syscall_inline")) /\
  (forall n v i n' v' i',
      macro n v i = macro n' v' i' -> n = n' /\ v = v' /\ i = i') /\
  (forall n i,
      macro n true i
      = "K_SYSCALL_DECLARE" ++ Py.fmt_d n ++ "_VOID"
          ++ (if i then "_INLINE" else "")).
Proof.
  split; [| split].
  - intros variant func args fn w w' r H. apply analyze_fn_inr in H.
    destruct H as [_ (parsed & func_type & func_name & Ha & Hf & ->)].
    exists parsed, func_type, func_name.
    split; [exact Ha|]. split; [exact Hf|]. apply macro_of_record.
  - intros. now apply macro_inj.
  - reflexivity.
Qed.

Lemma macro_of_triple_witness :
  (exists parsed func_type func_name,
      split_args "void" = inr parsed /\
      typename_split "void baz" = inr (func_type, func_name) /\
      macro_of "K_SYSCALL_DECLARE0_VOID_INLINE(K_SYSCALL_BAZ, baz);"
      = macro (List.length parsed) (String.eqb func_type "void")
              (String.eqb "syscall_inline" "syscall_inline")) /\
  (2 = 2 /\ false = false /\ true = true).
Proof.
  split.
  - apply (proj1 macro_of_triple "syscall_inline" "void baz" "void" "foo.h"
                 empty_world empty_world
                 (mkSyscall "foo.h" "_handler_baz"
                    "K_SYSCALL_DECLARE0_VOID_INLINE(K_SYSCALL_BAZ, baz);"
                    "K_SYSCALL_BAZ" "[K_SYSCALL_BAZ] = _handler_baz")).
    reflexivity.
  - apply (proj1 (proj2 macro_of_triple) 2 false true 2 false true).
    reflexivity.
Defined.

(** ** The argument list *)

Lemma split_args_void : split_args "void" = inr [].
Proof. reflexivity. Qed.

Lemma split_args_other (args : string) :
  args <> "void" ->
  split_args args = split_pieces (Py.split "," args).
Proof.
  intros H. unfold split_args.
  destruct (String.eqb_spec args "void"); [contradiction|reflexivity].
Qed.

(** C3 fails on the code: the argument list [ void ], which trimmed is
    [void], is not compared trimmed; it is split and gives one argument of
    empty type named [void], and the one-argument macro. *)
Theorem padded_void_one_argument (w : World) :
  Re.finditer padded_void = [("syscall", "int foo", " void ")] /\
  Py.strip " void " = "void" /\
  split_args " void " = inr [("", "void")] /\
  analyze_fn ("syscall", "int foo", " void ") "foo.h" w
  = (w, inr (mkSyscall "foo.h" "_handler_foo"
               "K_SYSCALL_DECLARE1(K_SYSCALL_FOO, foo, int, , void);"
               "K_SYSCALL_FOO" "[K_SYSCALL_FOO] = _handler_foo")).
Proof.
  split; [reflexivity|]. split; [reflexivity|]. split; [reflexivity|].
  rewrite analyze_fn_unfold. reflexivity.
Qed.


(** ** Loops and comprehensions *)

Section Loops.

Context {A B : Type}.

(** A relation between the world before and the world after that every
    step keeps. *)
Variable P : World -> World -> Prop.
Hypothesis P_refl : forall w, P w w.
Hypothesis P_trans : forall w1 w2 w3, P w1 w2 -> P w2 w3 -> P w1 w3.

Lemma comprehension_keeps (f : A -> M B) (l : list A) :
  (forall a w w' r, In a l -> f a w = (w', r) -> P w w') ->
  forall w w' r, comprehension f l w = (w', r) -> P w w'.
Proof.
  induction l as [|a l IH]; intros Hf w w' r H.
  - injection H as <- _. apply P_refl.
  - cbn [comprehension] in H. unfold bind at 1 in H.
    destruct (f a w) as [w1 [e|b]] eqn:Ha.
    + injection H as <- _. exact (Hf a w w1 _ (or_introl eq_refl) Ha).
    + unfold bind at 1 in H.
      destruct (comprehension f l w1) as [w2 [e|bs]] eqn:Hl;
        injection H as <- _;
        (apply (P_trans _ w1);
         [ exact (Hf a w w1 _ (or_introl eq_refl) Ha)
         | apply (IH (fun a0 u u' r0 Hin => Hf a0 u u' r0 (or_intror Hin))
                     w1 w2 _ Hl) ]).
Qed.

Lemma for_each_keeps (body : A -> B -> M B) (l : list A) :
  (forall a s w w' r, In a l -> body a s w = (w', r) -> P w w') ->
  forall s w w' r, for_each l body s w = (w', r) -> P w w'.
Proof.
  induction l as [|a l IH]; intros Hf s w w' r H.
  - injection H as <- _. apply P_refl.
  - cbn [for_each] in H. unfold bind at 1 in H.
    destruct (body a s w) as [w1 [e|s1]] eqn:Ha.
    + injection H as <- _. exact (Hf a s w w1 _ (or_introl eq_refl) Ha).
    + apply (P_trans _ w1).
      * exact (Hf a s w w1 _ (or_introl eq_refl) Ha).
      * apply (IH (fun a0 s0 u u' r0 Hin => Hf a0 s0 u u' r0 (or_intror Hin))
                  s1 w1 w' r H).
Qed.

End Loops.

Section LoopResults.

Context {A B : Type}.

(** A comprehension raises as soon as one of its elements does. *)
Lemma comprehension_raises (f : A -> M B) (l : list A) (a : A) :
  In a l ->
  (forall w, exists e, snd (f a w) = inl e) ->
  forall w, exists e, snd (comprehension f l w) = inl e.
Proof.
  induction l as [|a0 l IH]; intros Hin Hf w; [contradiction|].
  cbn [comprehension]. unfold bind at 1.
  destruct (f a0 w) as [w1 [e|b]] eqn:Ha; [exists e; reflexivity|].
  destruct Hin as [->|Hin].
  - destruct (Hf w) as [e He]. rewrite Ha in He. discriminate.
  - unfold bind at 1. destruct (IH Hin Hf w1) as [e He].
    destruct (comprehension f l w1) as [w2 [e'|bs]]; simpl in He;
      [exists e'; reflexivity | discriminate].
Qed.

(** A loop raises as soon as one of its steps does. *)
Lemma for_each_raises (body : A -> B -> M B) (l : list A) (a : A) :
  In a l ->
  (forall s w, exists e, snd (body a s w) = inl e) ->
  forall s w, exists e, snd (for_each l body s w) = inl e.
Proof.
  induction l as [|a0 l IH]; intros Hin Hf s w; [contradiction|].
  cbn [for_each]. unfold bind at 1.
  destruct (body a0 s w) as [w1 [e|s1]] eqn:Ha; [exists e; reflexivity|].
  destruct Hin as [->|Hin].
  - destruct (Hf s w) as [e He]. rewrite Ha in He. discriminate.
  - apply (IH Hin Hf).
Qed.

(** A comprehension that ends well, over steps that then leave the world
    alone and return [g] of their element. *)
Lemma comprehension_returns (f : A -> M B) (g : A -> list B) (l : list A) :
  (forall a w w' b, f a w = (w', inr b) -> w' = w /\ g a = [b]) ->
  forall w w' bs,
    comprehension f l w = (w', inr bs) -> w' = w /\ bs = flat_map g l.
Proof.
  intros Hf. induction l as [|a l IH]; intros w w' bs H.
  - injection H as <- <-. auto.
  - cbn [comprehension] in H. unfold bind at 1 in H.
    destruct (f a w) as [w1 [e|b]] eqn:Ha; [discriminate|].
    unfold bind at 1 in H.
    destruct (comprehension f l w1) as [w2 [e|bs']] eqn:Hl; [discriminate|].
    injection H as <- <-.
    destruct (Hf _ _ _ _ Ha) as [-> Hg]. destruct (IH _ _ _ Hl) as [-> ->].
    split; [reflexivity|]. cbn [flat_map]. rewrite Hg. reflexivity.
Qed.

(** A loop that ends well, over steps that then leave the world alone and
    extend the list they are given by [g] of their element. *)
Lemma for_each_returns (body : A -> list B -> M (list B)) (g : A -> list B)
      (l : list A) :
  (forall a s w w' s',
      In a l -> body a s w = (w', inr s') -> w' = w /\ s' = (s ++ g a)%list) ->
  forall s w w' s',
    for_each l body s w = (w', inr s') ->
    w' = w /\ s' = (s ++ flat_map g l)%list.
Proof.
  induction l as [|a l IH]; intros Hf s w w' s' H.
  - injection H as <- <-. rewrite List.app_nil_r. auto.
  - cbn [for_each] in H. unfold bind at 1 in H.
    destruct (body a s w) as [w1 [e|s1]] eqn:Ha; [discriminate|].
    destruct (Hf _ _ _ _ _ (or_introl eq_refl) Ha) as [-> ->].
    destruct (IH (fun a0 s0 u u' r0 Hin => Hf a0 s0 u u' r0 (or_intror Hin))
                 _ _ _ _ H) as [-> ->].
    split; [reflexivity|]. cbn [flat_map]. now rewrite List.app_assoc.
Qed.

End LoopResults.


(** ** The accumulators of [main] *)

Section Collect.

Lemma collect_snoc (l : list Syscall) (r : Syscall) :
  collect (l ++ [r]) =
    mkCollected (dict_append (fn r) (invocation r) (invocations (collect l)))
                (ids (collect l) ++ [sys_id r])%list
                (table_entries (collect l) ++ [table_entry r])%list
                (handlers (collect l) ++ [handler r])%list.
Proof. unfold collect. rewrite fold_left_app. reflexivity. Qed.

Lemma collect_ids (l : list Syscall) : ids (collect l) = map sys_id l.
Proof.
  induction l as [|r l IH] using rev_ind; [reflexivity|].
  rewrite collect_snoc, map_app, IH. reflexivity.
Qed.

Lemma collect_table_entries (l : list Syscall) :
  table_entries (collect l) = map table_entry l.
Proof.
  induction l as [|r l IH] using rev_ind; [reflexivity|].
  rewrite collect_snoc, map_app, IH. reflexivity.
Qed.

Lemma collect_handlers (l : list Syscall) :
  handlers (collect l) = map handler l.
Proof.
  induction l as [|r l IH] using rev_ind; [reflexivity|].
  rewrite collect_snoc, map_app, IH. reflexivity.
Qed.

Lemma dict_get_append (key value k : string) (d : list (string * list string)) :
  dict_get k (dict_append key value d) =
    if String.eqb key k
    then Some (match dict_get key d with
               | Some vs => vs ++ [value]
               | None => [value]
               end)%list
    else dict_get k d.
Proof.
  induction d as [|[k0 vs] d IH]; cbn [dict_append dict_get].
  - destruct (String.eqb key k); reflexivity.
  - destruct (String.eqb_spec k0 key) as [->|Hne]; cbn [dict_get].
    + destruct (String.eqb key k); reflexivity.
    + rewrite IH. destruct (String.eqb_spec k0 k) as [->|Hk]; [|reflexivity].
      destruct (String.eqb_spec key k) as [->|_]; [contradiction|reflexivity].
Qed.

Lemma dict_append_keys (key value : string) (d : list (string * list string)) :
  map fst (dict_append key value d) =
    if in_dec string_dec key (map fst d) then map fst d
    else (map fst d ++ [key])%list.
Proof.
  induction d as [|[k0 vs] d IH]; cbn [dict_append map fst]; [reflexivity|].
  destruct (String.eqb_spec k0 key) as [->|Hne]; cbn [map fst].
  - clear IH.
    destruct (in_dec string_dec key (key :: map fst d)) as [_|Hn];
      [reflexivity|].
    exfalso. apply Hn. now left.
  - rewrite IH. clear IH.
    destruct (in_dec string_dec key (map fst d)) as [Hin|Hn];
      destruct (in_dec string_dec key (k0 :: map fst d)) as [Hin'|Hn'];
      try reflexivity.
    + exfalso. apply Hn'. now right.
    + exfalso. destruct Hin' as [E|Hin']; [exact (Hne E)|exact (Hn Hin')].
Qed.

Lemma dict_append_NoDup (key value : string) (d : list (string * list string)) :
  NoDup (map fst d) -> NoDup (map fst (dict_append key value d)).
Proof.
  intros H. rewrite dict_append_keys.
  destruct (in_dec string_dec key (map fst d)) as [|Hn]; [exact H|].
  apply NoDup_app; [exact H | constructor; [intros []|constructor] |].
  intros k Hk [<-|[]]. exact (Hn Hk).
Qed.



Lemma In_dict_get (k : string) (vs : list string) (d : list (string * list string)) :
  NoDup (map fst d) -> In (k, vs) d -> dict_get k d = Some vs.
Proof.
  induction d as [|[k0 vs0] d IH]; cbn [dict_get map fst]; [intros _ []|].
  intros Hnd [H|H].
  - injection H as -> ->. rewrite String.eqb_refl. reflexivity.
  - inversion Hnd as [|? ? Hn Hnd']; subst.
    destruct (String.eqb_spec k0 k) as [->|_]; [|auto].
    exfalso. apply Hn. apply (in_map fst) in H. exact H.
Qed.

Lemma from_file_snoc (k : string) (l : list Syscall) (r : Syscall) :
  from_file k (l ++ [r]) =
    (from_file k l ++ (if String.eqb (fn r) k then [r] else []))%list.
Proof. unfold from_file. rewrite filter_app. reflexivity. Qed.

Lemma collect_keys_NoDup (l : list Syscall) :
  NoDup (map fst (invocations (collect l))).
Proof.
  induction l as [|r l IH] using rev_ind; [constructor|].
  rewrite collect_snoc. cbn [invocations]. now apply dict_append_NoDup.
Qed.


(** Under a key the dict holds the invocations of the records of that
    origin file, in the order of the records. *)
Lemma collect_get (l : list Syscall) (k : string) :
  dict_get k (invocations (collect l)) =
    match from_file k l with
    | [] => None
    | _ :: _ => Some (map invocation (from_file k l))
    end.
Proof.
  induction l as [|r l IH] using rev_ind; [reflexivity|].
  rewrite collect_snoc. cbn [invocations].
  rewrite dict_get_append, from_file_snoc.
  destruct (String.eqb_spec (fn r) k) as [E|Hne].
  - rewrite E, IH. destruct (from_file k l) as [|a rs]; [reflexivity|].
    rewrite map_app. reflexivity.
  - rewrite IH, List.app_nil_r. reflexivity.
Qed.


End Collect.


(** ** The extractor *)

Section Extractor.

Lemma append_assoc (a b c : string) : (a ++ b) ++ c = a ++ (b ++ c).
Proof. induction a as [|x a IH]; simpl; [reflexivity | now rewrite IH]. Qed.

Lemma length_append (a b : string) :
  String.length (a ++ b) = String.length a + String.length b.
Proof. induction a as [|x a IH]; simpl; [reflexivity | now rewrite IH]. Qed.

Lemma literal_spec (lit s rest : string) :
  Re.literal lit s = Some rest -> s = lit ++ rest.
Proof.
  revert s. induction lit as [|a lit IH]; intros s H.
  - destruct s; injection H as <-; reflexivity.
  - destruct s as [|b s]; [discriminate|]. cbn [Re.literal] in H.
    destruct (Ascii.eqb_spec a b) as [<-|]; [|discriminate].
    cbn [String.append]. now rewrite (IH _ H).
Qed.

Lemma args_close_spec (s a : string) (n : nat) :
  Re.args_close s = Some (a, n) ->
  exists rest,
    s = a ++ ")" ++ rest /\ Py.contains ")" a = false /\
    n = String.length a + 1.
Proof.
  revert a n. induction s as [|c s IH]; intros a n H; [discriminate|].
  cbn [Re.args_close] in H. destruct (Ascii.eqb c ")") eqn:E.
  - injection H as <- <-. apply Ascii.eqb_eq in E. subst c.
    exists s. auto.
  - destruct (Re.args_close s) as [[a' n']|]; [|discriminate].
    injection H as <- <-. destruct (IH _ _ eq_refl) as (rest & -> & Ha & ->).
    exists rest. cbn [String.append Py.contains String.length].
    rewrite Ascii.eqb_sym, E, Ha. auto.
Qed.

Lemma func_args_spec (s f a : string) (n : nat) :
  Re.func_args s = Some (f, a, n) ->
  exists rest,
    s = f ++ "(" ++ a ++ ")" ++ rest /\
    f <> "" /\ Py.contains "(" f = false /\ Py.contains ")" a = false /\
    n = String.length f + (String.length a + 2).
Proof.
  revert f a n. induction s as [|c s IH]; intros f a n H; [discriminate|].
  cbn [Re.func_args] in H. destruct (Ascii.eqb c "(") eqn:E; [discriminate|].
  destruct (Re.func_args s) as [[[f' a'] n']|].
  - injection H as <- <- <-.
    destruct (IH _ _ _ eq_refl) as (rest & -> & _ & Hf & Ha & ->).
    exists rest. cbn [String.append Py.contains String.length].
    rewrite Ascii.eqb_sym, E, Hf. repeat split; auto; try discriminate; try lia.
  - unfold Re.open_args_close in H. destruct s as [|d s]; [discriminate|].
    destruct (Ascii.eqb d "(") eqn:Ed; [|discriminate].
    destruct (Re.args_close s) as [[a' n']|] eqn:Ha; [|discriminate].
    injection H as <- <- <-. apply Ascii.eqb_eq in Ed. subst d.
    destruct (args_close_spec _ _ _ Ha) as (rest & -> & Hc & ->).
    exists rest. cbn [String.append Py.contains String.length].
    rewrite Ascii.eqb_sym, E. repeat split; auto; try discriminate; try lia.
Qed.

Lemma spaces_func_args_spec (s f a : string) (n : nat) :
  Re.spaces_func_args s = Some (f, a, n) ->
  exists spaces rest,
    s = spaces ++ f ++ "(" ++ a ++ ")" ++ rest /\
    spaces <> "" /\ all_space spaces = true /\
    f <> "" /\ Py.contains "(" f = false /\ Py.contains ")" a = false /\
    n = String.length spaces + (String.length f + (String.length a + 2)).
Proof.
  revert f a n. induction s as [|c s IH]; intros f a n H; [discriminate|].
  cbn [Re.spaces_func_args] in H. destruct (Py.isspace c) eqn:E; [|discriminate].
  destruct (Re.spaces_func_args s) as [[[f' a'] n']|].
  - injection H as <- <- <-.
    destruct (IH _ _ _ eq_refl) as (sp & rest & -> & _ & Hsp & Hf & Hp & Ha & ->).
    exists (String c sp), rest. cbn [String.append all_space String.length].
    rewrite E, Hsp. repeat split; auto; try discriminate; try lia.
  - destruct (Re.func_args s) as [[[f' a'] n']|] eqn:Hfa; [|discriminate].
    injection H as <- <- <-.
    destruct (func_args_spec _ _ _ _ Hfa) as (rest & -> & Hf & Hp & Ha & ->).
    exists (String c ""), rest. cbn [String.append all_space String.length].
    rewrite E. repeat split; auto; try discriminate; try lia.
Qed.

Lemma variant_then_spec (variant s v f a : string) (n : nat) :
  Re.variant_then variant s = Some (v, f, a, n) ->
  v = variant /\
  exists spaces rest,
    s = variant ++ spaces ++ f ++ "(" ++ a ++ ")" ++ rest /\
    spaces <> "" /\ all_space spaces = true /\
    f <> "" /\ Py.contains "(" f = false /\ Py.contains ")" a = false /\
    n = String.length (variant ++ spaces ++ f ++ "(" ++ a ++ ")").
Proof.
  unfold Re.variant_then. destruct (Re.literal variant s) as [rest0|] eqn:Hl;
    [|discriminate].
  destruct (Re.spaces_func_args rest0) as [[[f' a'] n']|] eqn:Hs; [|discriminate].
  intros H. injection H as <- <- <- <-. split; [reflexivity|].
  destruct (spaces_func_args_spec _ _ _ _ Hs)
    as (sp & rest & -> & Hne & Hsp & Hf & Hp & Ha & ->).
  exists sp, rest. rewrite (literal_spec _ _ _ Hl). repeat split; auto.
  rewrite !length_append. cbn [String.length]. lia.
Qed.

(** A match of [api_regex] at the start of a text: the text starts with the
    declaration the groups spell, and the match is as long as it. *)
Lemma api_match_spec (s v f a : string) (n : nat) :
  Re.api_match s = Some (v, f, a, n) ->
  (v = "syscall" \/ v = "syscall_inline") /\
  exists spaces rest,
    s = declaration v spaces f a ++ rest /\
    spaces <> "" /\ all_space spaces = true /\
    f <> "" /\ Py.contains "(" f = false /\ Py.contains ")" a = false /\
    n = String.length (declaration v spaces f a).
Proof.
  unfold Re.api_match. destruct (Re.literal "__" s) as [rest0|] eqn:Hl;
    [|discriminate].
  apply literal_spec in Hl. subst s.
  assert (forall variant m,
             Re.variant_then variant rest0 = Some (v, f, a, m) ->
             v = variant /\
             exists spaces rest,
               "__" ++ rest0 = declaration v spaces f a ++ rest /\
               spaces <> "" /\ all_space spaces = true /\
               f <> "" /\ Py.contains "(" f = false /\
               Py.contains ")" a = false /\
               2 + m = String.length (declaration v spaces f a)) as Hone.
  { intros variant m H. apply variant_then_spec in H.
    destruct H as [-> (sp & rest & -> & Hne & Hsp & Hf & Hp & Ha & ->)].
    split; [reflexivity|]. exists sp, rest. unfold declaration.
    repeat split; auto. rewrite !append_assoc. reflexivity. }
  destruct (Re.variant_then "syscall" rest0) as [[[[v1 f1] a1] n1]|] eqn:H1.
  - intros H. injection H as <- <- <- <-.
    destruct (Hone "syscall" n1 H1) as [Hv Hrest].
    split; [now left | exact Hrest].
  - destruct (Re.variant_then "syscall_inline" rest0)
      as [[[[v2 f2] a2] n2]|] eqn:H2; [|discriminate].
    intros H. injection H as <- <- <- <-.
    destruct (Hone "syscall_inline" n2 H2) as [Hv Hrest].
    split; [now right | exact Hrest].
Qed.

Lemma finditer_from_In (skip : nat) (s : string) (mo : string * string * string) :
  In mo (Re.finditer_from skip s) ->
  exists before rest n, s = before ++ rest /\ Re.api_match rest = Some (mo, n).
Proof.
  revert skip. induction s as [|c s IH]; intros skip H.
  - destruct skip as [|k]; cbn [Re.finditer_from] in H; [|contradiction].
    destruct (Re.api_match "") as [[[[v f] a] n]|] eqn:Hm; [|contradiction].
    destruct H as [<-|[]]. exists "", "", n. auto.
  - assert (forall k, In mo (Re.finditer_from k s) ->
                      exists before rest n,
                        String c s = before ++ rest /\
                        Re.api_match rest = Some (mo, n)) as Htail.
    { intros k Hk. destruct (IH _ Hk) as (b & r & n & -> & Hm).
      exists (String c b), r, n. auto. }
    destruct skip as [|k]; cbn [Re.finditer_from] in H; [|exact (Htail _ H)].
    destruct (Re.api_match (String c s)) as [[[[v f] a] n]|] eqn:Hm;
      [|exact (Htail _ H)].
    destruct H as [<-|H]; [|exact (Htail _ H)].
    exists "", (String c s), n. auto.
Qed.

End Extractor.

(** X1: every match the extractor yields occurs in the text: somewhere the
    text reads [__], the variant ([syscall] or [syscall_inline]), at least
    one whitespace character, the return-and-name group, an opening
    parenthesis, the argument group and a closing parenthesis; the
    return-and-name group is not empty and holds no opening parenthesis, the
    argument group holds no closing one. *)
Theorem finditer_sound (text variant func args : string) :
  In (variant, func, args) (Re.finditer text) ->
  (variant = "syscall" \/ variant = "syscall_inline") /\
  func <> "" /\ Py.contains "(" func = false /\ Py.contains ")" args = false /\
  exists before spaces rest,
    text = before ++ declaration variant spaces func args ++ rest /\
    spaces <> "" /\ all_space spaces = true.
Proof.
  intros H. apply finditer_from_In in H.
  destruct H as (before & rest0 & n & -> & Hm). apply api_match_spec in Hm.
  destruct Hm as [Hv (sp & rest & -> & Hne & Hsp & Hf & Hp & Ha & _)].
  repeat split; auto. exists before, sp, rest. auto.
Qed.

Lemma finditer_sound_witness :
  ("syscall_inline" = "syscall" \/ "syscall_inline" = "syscall_inline") /\
  "void baz" <> "" /\ Py.contains "(" "void baz" = false /\
  Py.contains ")" "void" = false /\
  exists before spaces rest,
    "/* x */ __syscall_inline void baz(void);"
    = before ++ declaration "syscall_inline" spaces "void baz" "void" ++ rest /\
    spaces <> "" /\ all_space spaces = true.
Proof.
  apply (finditer_sound "/* x */ __syscall_inline void baz(void);").
  left. reflexivity.
Defined.

Section ExtractorComplete.

Lemma literal_complete (lit s : string) : Re.literal lit (lit ++ s) = Some s.
Proof.
  induction lit as [|c lit IH]; [destruct s; reflexivity|].
  cbn [String.append Re.literal]. now rewrite Ascii.eqb_refl.
Qed.

Lemma args_close_complete (a rest : string) :
  Py.contains ")" a = false ->
  Re.args_close (a ++ ")" ++ rest) = Some (a, String.length a + 1).
Proof.
  induction a as [|c a IH]; intros H; [reflexivity|].
  cbn [Py.contains] in H. apply orb_false_elim in H. destruct H as [Hc Ha].
  change (String c a ++ ")" ++ rest) with (String c (a ++ ")" ++ rest)).
  cbn [Re.args_close String.length].
  rewrite Ascii.eqb_sym, Hc, (IH Ha). reflexivity.
Qed.

Lemma func_args_complete (f a rest : string) :
  f <> "" -> Py.contains "(" f = false -> Py.contains ")" a = false ->
  Re.func_args (f ++ "(" ++ a ++ ")" ++ rest)
  = Some (f, a, String.length f + (String.length a + 2)).
Proof.
  intros Hne Hf Ha. induction f as [|c f IH]; [contradiction|].
  cbn [Py.contains] in Hf. apply orb_false_elim in Hf. destruct Hf as [Hc Hf].
  change (String c f ++ "(" ++ a ++ ")" ++ rest)
    with (String c (f ++ "(" ++ a ++ ")" ++ rest)).
  cbn [Re.func_args String.length]. rewrite Ascii.eqb_sym, Hc.
  destruct f as [|d f].
  - change ("" ++ "(" ++ a ++ ")" ++ rest)
      with (String "(" (a ++ ")" ++ rest)).
    cbn [Re.func_args Re.open_args_close String.length].
    rewrite Ascii.eqb_refl, (args_close_complete a rest Ha).
    do 3 f_equal. lia.
  - rewrite (IH ltac:(discriminate) Hf). reflexivity.
Qed.

Lemma spaces_func_args_complete (spaces f a rest : string) :
  spaces <> "" -> all_space spaces = true ->
  f <> "" -> starts_space f = false ->
  Py.contains "(" f = false -> Py.contains ")" a = false ->
  Re.spaces_func_args (spaces ++ f ++ "(" ++ a ++ ")" ++ rest)
  = Some (f, a, String.length spaces
                + (String.length f + (String.length a + 2))).
Proof.
  intros Hne Hsp Hf Hst Hp Ha. induction spaces as [|c sp IH]; [contradiction|].
  cbn [all_space] in Hsp. apply andb_prop in Hsp. destruct Hsp as [Hc Hsp].
  change (String c sp ++ f ++ "(" ++ a ++ ")" ++ rest)
    with (String c (sp ++ f ++ "(" ++ a ++ ")" ++ rest)).
  cbn [Re.spaces_func_args String.length]. rewrite Hc.
  destruct sp as [|d sp].
  - change ("" ++ f ++ "(" ++ a ++ ")" ++ rest)
      with (f ++ "(" ++ a ++ ")" ++ rest).
    assert (Re.spaces_func_args (f ++ "(" ++ a ++ ")" ++ rest) = None) as ->.
    { destruct f as [|x f]; [contradiction|]. cbn [starts_space] in Hst.
      change (String x f ++ "(" ++ a ++ ")" ++ rest)
        with (String x (f ++ "(" ++ a ++ ")" ++ rest)).
      cbn [Re.spaces_func_args]. now rewrite Hst. }
    rewrite (func_args_complete f a rest Hf Hp Ha). reflexivity.
  - rewrite (IH ltac:(discriminate) Hsp). reflexivity.
Qed.

Lemma api_match_complete (variant spaces f a rest : string) :
  variant = "syscall" \/ variant = "syscall_inline" ->
  spaces <> "" -> all_space spaces = true ->
  f <> "" -> starts_space f = false ->
  Py.contains "(" f = false -> Py.contains ")" a = false ->
  Re.api_match (declaration variant spaces f a ++ rest)
  = Some (variant, f, a, String.length (declaration variant spaces f a)).
Proof.
  intros Hv Hne Hsp Hf Hst Hp Ha.
  pose proof (spaces_func_args_complete spaces f a rest Hne Hsp Hf Hst Hp Ha)
    as Hs.
  assert (declaration variant spaces f a ++ rest
          = "__" ++ variant ++ spaces ++ f ++ "(" ++ a ++ ")" ++ rest) as ->.
  { unfold declaration. now rewrite !append_assoc. }
  assert (String.length (declaration variant spaces f a)
          = 2 + (String.length variant
                 + (String.length spaces
                    + (String.length f + (String.length a + 2))))) as ->.
  { unfold declaration. rewrite !length_append. cbn [String.length]. lia. }
  unfold Re.api_match. rewrite (literal_complete "__").
  destruct Hv as [-> | ->].
  - unfold Re.variant_then. rewrite (literal_complete "syscall"), Hs.
    reflexivity.
  - assert (Re.variant_then
              "syscall"
              ("syscall_inline" ++ spaces ++ f ++ "(" ++ a ++ ")" ++ rest)
            = None) as -> by reflexivity.
    unfold Re.variant_then. rewrite (literal_complete "syscall_inline"), Hs.
    reflexivity.
Qed.

Lemma finditer_from_skip (m rest : string) :
  Re.finditer_from (String.length m) (m ++ rest) = Re.finditer_from 0 rest.
Proof. induction m as [|c m IH]; [reflexivity | exact IH]. Qed.

Lemma api_match_first (c : ascii) (s : string) :
  Ascii.eqb c "_" = false -> Re.api_match (String c s) = None.
Proof.
  intros H. unfold Re.api_match. cbn [Re.literal].
  rewrite Ascii.eqb_sym, H. reflexivity.
Qed.

Lemma finditer_plain_prefix (before s : string) :
  Py.contains "_" before = false ->
  Re.finditer (before ++ s) = Re.finditer s.
Proof.
  unfold Re.finditer. induction before as [|c b IH]; intros H; [reflexivity|].
  cbn [Py.contains] in H. apply orb_false_elim in H. destruct H as [Hc Hb].
  cbn [String.append Re.finditer_from].
  rewrite (api_match_first c _ (eq_trans (Ascii.eqb_sym _ _) Hc)).
  exact (IH Hb).
Qed.

End ExtractorComplete.

(** X2: a declaration written as the grammar has it is found, and the scan
    goes on right after its closing parenthesis: when the text before holds
    no underscore, the variant is [syscall] or [syscall_inline], the blank
    after it is not empty, the return-and-name text is not empty, does not
    start with whitespace and holds no opening parenthesis, and the argument
    text holds no closing one, the matches of the whole text are the triple
    of that declaration followed by the matches of the rest. *)
Theorem finditer_complete (before variant spaces func args rest : string) :
  Py.contains "_" before = false ->
  variant = "syscall" \/ variant = "syscall_inline" ->
  spaces <> "" -> all_space spaces = true ->
  func <> "" -> starts_space func = false ->
  Py.contains "(" func = false -> Py.contains ")" args = false ->
  Re.finditer (before ++ declaration variant spaces func args ++ rest)
  = (variant, func, args) :: Re.finditer rest.
Proof.
  intros Hb Hv Hne Hsp Hf Hst Hp Ha.
  rewrite (finditer_plain_prefix _ _ Hb). unfold Re.finditer.
  pose proof (api_match_complete variant spaces func args rest
                                 Hv Hne Hsp Hf Hst Hp Ha) as Hm.
  remember (declaration variant spaces func args) as d eqn:Hd.
  destruct d as [|c d].
  { unfold declaration in Hd. discriminate Hd. }
  cbn [String.append] in *. cbn [Re.finditer_from]. rewrite Hm.
  cbn [String.length]. rewrite Nat.sub_1_r. cbn [Nat.pred].
  now rewrite finditer_from_skip.
Qed.

Lemma finditer_complete_witness :
  Re.finditer ("/* api */ "
                 ++ declaration "syscall" " " "int bar" "int a, void *b"
                 ++ "; /* end */")
  = ("syscall", "int bar", "int a, void *b") :: Re.finditer "; /* end */".
Proof.
  apply finditer_complete; try reflexivity; try discriminate.
  left. reflexivity.
Defined.

(** ** The splitter on well-formed and ill-formed fragments *)

Section SplitterFacts.

Lemma all_ident_app (a b : string) :
  all_ident (a ++ b) = all_ident a && all_ident b.
Proof.
  induction a as [|c a IH]; [reflexivity|].
  cbn [String.append all_ident]. rewrite IH. apply andb_assoc.
Qed.

Lemma ident_no_char (c : ascii) (s : string) :
  Re.is_ident c = false -> all_ident s = true -> Py.contains c s = false.
Proof.
  intros Hc. induction s as [|d s IH]; [reflexivity|].
  cbn [all_ident Py.contains]. intros H. apply andb_prop in H.
  destruct H as [Hd Hs]. rewrite (IH Hs), orb_false_r.
  destruct (Ascii.eqb_spec c d) as [->|]; [congruence | reflexivity].
Qed.

Lemma chomp_ident (s : string) : all_ident s = true -> chomp s = s.
Proof.
  induction s as [|c s IH]; [reflexivity|]. cbn [all_ident]. intros H.
  apply andb_prop in H. destruct H as [Hc Hs].
  rewrite (chomp_cons c s (is_ident_not_nl c Hc)), (IH Hs). reflexivity.
Qed.

Lemma chomp_app_ident (pre name : string) :
  name <> "" -> all_ident name = true -> chomp (pre ++ name) = pre ++ name.
Proof.
  intros Hne Hn. induction pre as [|c pre IH]; [exact (chomp_ident _ Hn)|].
  change (String c pre ++ name) with (String c (pre ++ name)).
  destruct (pre ++ name) as [|d t] eqn:E.
  - destruct pre; [|discriminate E]. cbn [String.append] in E. contradiction.
  - rewrite chomp_cons_cons, IH. reflexivity.
Qed.

Lemma last_not_ident_app (pre s : string) :
  pre <> "" -> last_not_ident pre = true -> all_ident (pre ++ s) = false.
Proof.
  induction pre as [|c pre IH]; intros Hne H; [contradiction|].
  change (String c pre ++ s) with (String c (pre ++ s)). cbn [all_ident].
  destruct pre as [|d pre].
  - cbn [last_not_ident] in H. apply negb_true_iff in H. now rewrite H.
  - rewrite (IH ltac:(discriminate) H). apply andb_false_r.
Qed.

Lemma last_not_ident_tail (c : ascii) (pre : string) :
  last_not_ident (String c pre) = true -> last_not_ident pre = true.
Proof. destruct pre; [reflexivity | exact (fun H => H)]. Qed.

(** The longest identifier suffix of [pre ++ name] is [name] when [pre]
    does not end with an identifier character. *)
Lemma split_trailing_ident_app_ident (pre name : string) :
  all_ident name = true -> last_not_ident pre = true ->
  split_trailing_ident (pre ++ name) = (pre, name).
Proof.
  intros Hn. induction pre as [|c pre IH]; intros H.
  - exact (split_trailing_ident_all _ Hn).
  - change (String c pre ++ name) with (String c (pre ++ name)).
    cbn [split_trailing_ident].
    change (String c (pre ++ name)) with (String c pre ++ name).
    rewrite (last_not_ident_app (String c pre) name ltac:(discriminate) H).
    rewrite (IH (last_not_ident_tail _ _ H)). reflexivity.
Qed.

Lemma typename_split_exn (item : string) (e : exn) :
  typename_split item = inl e -> parse_error e.
Proof.
  unfold typename_split, parse_error.
  destruct (Py.contains "[" item); [intros H; injection H as <-; eauto|].
  destruct (Py.contains "(" item); [intros H; injection H as <-; auto|].
  destruct (Re.typename_match item) as [[m0 m1]|]; [discriminate|].
  intros H. injection H as <-. auto.
Qed.

(** *** [strip] *)

Lemma lstrip_starts (s : string) : starts_space (Py.lstrip s) = false.
Proof.
  induction s as [|c s IH]; [reflexivity|]. cbn [Py.lstrip].
  destruct (Py.isspace c) eqn:E; [exact IH | exact E].
Qed.

Lemma lstrip_id (s : string) : starts_space s = false -> Py.lstrip s = s.
Proof.
  destruct s as [|c s]; [reflexivity|]. cbn [starts_space Py.lstrip].
  now intros ->.
Qed.

Lemma rstrip_starts (s : string) :
  starts_space s = false -> starts_space (Py.rstrip s) = false.
Proof.
  destruct s as [|c s]; [reflexivity|]. cbn [starts_space Py.rstrip].
  intros Hc. destruct (Py.rstrip s); [now rewrite Hc | exact Hc].
Qed.

Lemma rstrip_idem (s : string) : Py.rstrip (Py.rstrip s) = Py.rstrip s.
Proof.
  induction s as [|c s IH]; [reflexivity|]. cbn [Py.rstrip].
  destruct (Py.rstrip s) as [|d r] eqn:E.
  - destruct (Py.isspace c) eqn:Hc; [reflexivity|].
    cbn [Py.rstrip]. now rewrite Hc.
  - cbn [Py.rstrip]. cbn [Py.rstrip] in IH. rewrite IH. reflexivity.
Qed.

(** Stripping twice is stripping once. *)
Lemma strip_idem (s : string) : Py.strip (Py.strip s) = Py.strip s.
Proof.
  unfold Py.strip.
  rewrite (lstrip_id _ (rstrip_starts _ (lstrip_starts s))).
  apply rstrip_idem.
Qed.

Lemma contains_lstrip (c : ascii) (s : string) :
  Py.isspace c = false -> Py.contains c (Py.lstrip s) = Py.contains c s.
Proof.
  intros Hc. induction s as [|d s IH]; [reflexivity|]. cbn [Py.lstrip].
  destruct (Py.isspace d) eqn:Hd; [|reflexivity].
  rewrite IH. cbn [Py.contains].
  destruct (Ascii.eqb_spec c d) as [->|]; [congruence | reflexivity].
Qed.

Lemma contains_rstrip (c : ascii) (s : string) :
  Py.isspace c = false -> Py.contains c (Py.rstrip s) = Py.contains c s.
Proof.
  intros Hc. induction s as [|d s IH]; [reflexivity|]. cbn [Py.rstrip].
  destruct (Py.rstrip s) as [|x r] eqn:E.
  - cbn [Py.contains] in *. rewrite <- IH.
    destruct (Py.isspace d) eqn:Hd; [|reflexivity].
    destruct (Ascii.eqb_spec c d) as [->|]; [congruence | reflexivity].
  - cbn [Py.contains] in *. now rewrite IH.
Qed.

Lemma contains_strip (c : ascii) (s : string) :
  Py.isspace c = false -> Py.contains c (Py.strip s) = Py.contains c s.
Proof.
  intros Hc. unfold Py.strip.
  now rewrite (contains_rstrip c _ Hc), (contains_lstrip c _ Hc).
Qed.

Lemma rstrip_empty (s : string) :
  Py.rstrip s = "" -> all_space s = true.
Proof.
  induction s as [|c s IH]; [reflexivity|]. cbn [Py.rstrip all_space].
  destruct (Py.rstrip s) as [|x r]; [|discriminate].
  destruct (Py.isspace c); [intros _; now rewrite IH | discriminate].
Qed.

Lemma lstrip_all_space (s : string) :
  all_space (Py.lstrip s) = true -> all_space s = true.
Proof.
  induction s as [|c s IH]; [reflexivity|]. cbn [Py.lstrip].
  destruct (Py.isspace c) eqn:Hc; cbn [all_space]; rewrite Hc;
    [exact IH | discriminate].
Qed.

Lemma strip_empty (s : string) : Py.strip s = "" -> all_space s = true.
Proof. intros H. apply lstrip_all_space, rstrip_empty, H. Qed.

Lemma all_space_no_char (c : ascii) (s : string) :
  Py.isspace c = false -> all_space s = true -> Py.contains c s = false.
Proof.
  intros Hc. induction s as [|d s IH]; [reflexivity|].
  cbn [all_space Py.contains]. intros H. apply andb_prop in H.
  destruct H as [Hd Hs]. rewrite (IH Hs), orb_false_r.
  destruct (Ascii.eqb_spec c d) as [->|]; [congruence | reflexivity].
Qed.

(** *** [split] *)

Lemma split_length (sep : ascii) (s : string) :
  List.length (Py.split sep s) = S (count_char sep s).
Proof.
  induction s as [|c s IH]; [reflexivity|]. cbn [Py.split count_char].
  destruct (Ascii.eqb c sep); cbn [List.length].
  - now rewrite IH.
  - destruct (Py.split sep s); [discriminate IH | exact IH].
Qed.

Lemma split_no_sep (sep : ascii) (s : string) :
  Py.contains sep s = false -> Py.split sep s = [s].
Proof.
  induction s as [|c s IH]; [reflexivity|]. cbn [Py.contains Py.split].
  intros H. apply orb_false_elim in H. destruct H as [Hc Hs].
  rewrite Ascii.eqb_sym, Hc, (IH Hs). reflexivity.
Qed.

Lemma contains_split (c sep : ascii) (s : string) :
  Ascii.eqb c sep = false ->
  Py.contains c s = existsb (Py.contains c) (Py.split sep s).
Proof.
  intros Hc. induction s as [|d s IH]; [reflexivity|].
  cbn [Py.contains Py.split]. destruct (Ascii.eqb_spec d sep) as [->|Hd].
  - rewrite Hc, IH. reflexivity.
  - rewrite IH. destruct (Py.split sep s) as [|piece rest]; cbn [existsb].
    + cbn [Py.contains]. now rewrite !orb_false_r.
    + cbn [Py.contains]. now rewrite orb_assoc.
Qed.

Lemma split_pieces_length pieces parsed :
  split_pieces pieces = inr parsed -> List.length parsed = List.length pieces.
Proof.
  revert parsed. induction pieces as [|a rest IH]; intros parsed H.
  - injection H as <-. reflexivity.
  - cbn [split_pieces] in H.
    destruct (typename_split (Py.strip a)) as [e|tn]; [discriminate|].
    destruct (split_pieces rest) as [e|tns]; [discriminate|].
    injection H as <-. cbn [List.length]. now rewrite (IH _ eq_refl).
Qed.

Lemma split_pieces_raises pieces a e0 :
  In a pieces -> typename_split (Py.strip a) = inl e0 ->
  exists e, split_pieces pieces = inl e.
Proof.
  induction pieces as [|b rest IH]; intros Hin Ha; [contradiction|].
  cbn [split_pieces]. destruct Hin as [->|Hin].
  - rewrite Ha. eauto.
  - destruct (typename_split (Py.strip b)) as [e|tn]; [eauto|].
    destruct (IH Hin Ha) as [e ->]. eauto.
Qed.

Lemma split_pieces_Forall (P : string * string -> Prop) pieces parsed :
  (forall a tn, typename_split (Py.strip a) = inr tn -> P tn) ->
  split_pieces pieces = inr parsed -> Forall P parsed.
Proof.
  intros HP. revert parsed. induction pieces as [|a rest IH]; intros parsed H.
  - injection H as <-. constructor.
  - cbn [split_pieces] in H.
    destruct (typename_split (Py.strip a)) as [e|tn] eqn:Ha; [discriminate|].
    destruct (split_pieces rest) as [e|tns]; [discriminate|].
    injection H as <-. constructor; [exact (HP _ _ Ha) | exact (IH _ eq_refl)].
Qed.

End SplitterFacts.

(** X3: a fragment made of a type text and a name is split back into them:
    when the name is a non-empty identifier and the text before it has no
    bracket, no opening parenthesis and no newline and does not end with an
    identifier character, [typename_split] returns that text stripped, and
    the name. *)
Theorem typename_split_type_name (pre name : string) :
  name <> "" -> all_ident name = true ->
  Py.contains "[" pre = false -> Py.contains "(" pre = false ->
  Py.contains Py.nl pre = false -> last_not_ident pre = true ->
  typename_split (pre ++ name) = inr (Py.strip pre, name).
Proof.
  intros Hne Hn Hb Hp Hnl Hlast. unfold typename_split.
  rewrite !contains_app, Hb, Hp.
  rewrite (ident_no_char "[" name eq_refl Hn), (ident_no_char "(" name eq_refl Hn).
  cbn [orb]. rewrite typename_match_spec, (chomp_app_ident _ _ Hne Hn).
  rewrite (split_trailing_ident_app_ident _ _ Hn Hlast), Hnl, orb_false_r.
  destruct (String.eqb_spec name ""); [contradiction | reflexivity].
Qed.

Lemma typename_split_type_name_witness :
  typename_split ("const struct k_sem *" ++ "sem")
  = inr (Py.strip "const struct k_sem *", "sem").
Proof.
  apply typename_split_type_name; try reflexivity. discriminate.
Defined.

(** X4: what the splitter returns is a typed item: the type text carries no
    whitespace at either end (stripping it changes nothing) and no bracket or
    opening parenthesis, the name is a non-empty identifier; and this holds
    for the return fragment and for every argument of a declaration that
    analyses. *)
Theorem typed_items (func args : string) (parsed : list (string * string))
        (func_type func_name : string) :
  split_args args = inr parsed ->
  typename_split func = inr (func_type, func_name) ->
  Forall (fun tn =>
            Py.strip (fst tn) = fst tn /\
            Py.contains "[" (fst tn) = false /\
            Py.contains "(" (fst tn) = false /\
            all_ident (snd tn) = true /\ snd tn <> "")
         ((func_type, func_name) :: parsed).
Proof.
  assert (forall item tn,
             typename_split item = inr tn ->
             Py.strip (fst tn) = fst tn /\
             Py.contains "[" (fst tn) = false /\
             Py.contains "(" (fst tn) = false /\
             all_ident (snd tn) = true /\ snd tn <> "") as Hitem.
  { intros item [t n] H. destruct (typename_split_name _ _ _ H) as [Hn Hne].
    cbn [fst snd]. unfold typename_split in H.
    destruct (Py.contains "[" item) eqn:Hb; [discriminate|].
    destruct (Py.contains "(" item) eqn:Hp; [discriminate|].
    rewrite typename_match_spec in H.
    pose proof (split_trailing_ident_app (chomp item)) as Happ.
    destruct (split_trailing_ident (chomp item)) as [pre nm].
    cbn [fst snd] in Happ.
    destruct (String.eqb nm "" || Py.contains Py.nl pre); [discriminate|].
    injection H as <- <-.
    assert (forall c, Py.contains c item = false ->
                      Py.contains c (chomp item) = false) as Hch.
    { intros c. clear. induction item as [|d s IH]; [auto|].
      destruct s as [|d' s'].
      - cbn [chomp]. destruct (Ascii.eqb d Py.nl); auto.
      - rewrite chomp_cons_cons. cbn [Py.contains] in *. intros H.
        apply orb_false_elim in H. destruct H as [-> H]. exact (IH H). }
    assert (forall c, Py.isspace c = false -> Py.contains c item = false ->
                      Py.contains c (Py.strip pre) = false) as Hpre.
    { intros c Hc Hi. rewrite (contains_strip c pre Hc).
      pose proof (Hch c Hi) as H. rewrite <- Happ, contains_app in H.
      now apply orb_false_elim in H. }
    repeat split; auto using strip_idem. }
  intros Ha Hf. constructor; [exact (Hitem _ _ Hf)|].
  unfold split_args in Ha. destruct (String.eqb args "void").
  - injection Ha as <-. constructor.
  - apply (split_pieces_Forall _ _ _ (fun a tn => Hitem (Py.strip a) tn) Ha).
Qed.

Lemma typed_items_witness :
  Forall (fun tn =>
            Py.strip (fst tn) = fst tn /\
            Py.contains "[" (fst tn) = false /\
            Py.contains "(" (fst tn) = false /\
            all_ident (snd tn) = true /\ snd tn <> "")
         [("int", "bar"); ("int", "a"); ("void *", "b")].
Proof.
  apply (typed_items "int bar" "int a,   void *b "); reflexivity.
Defined.

(** X5: the arguments of a declaration are one more than the commas of its
    argument text, unless that text is [void]: the arity of the macro is
    read off the commas. *)
Theorem arity_counts_commas (args : string) (parsed : list (string * string)) :
  args <> "void" ->
  split_args args = inr parsed ->
  List.length parsed = S (count_char "," args).
Proof.
  intros Hne H. rewrite (split_args_other _ Hne) in H.
  rewrite (split_pieces_length _ _ H). apply split_length.
Qed.

Lemma arity_counts_commas_witness :
  List.length [("int", "a"); ("void *", "b"); ("size_t", "n")]
  = S (count_char "," "int a, void *b, size_t n").
Proof.
  apply (arity_counts_commas "int a, void *b, size_t n"); [discriminate|].
  reflexivity.
Defined.

(** X6: an argument text that is empty or blank is not taken for an empty
    argument list: it is rejected as a malformed invocation, whatever the
    rest of the declaration. *)
Theorem blank_arguments_rejected (variant func args fn : string) :
  Py.strip args = "" ->
  analyze_pure (variant, func, args) fn
  = inl (SyscallParseException msg_malformed).
Proof.
  intros H. unfold analyze_pure, split_args.
  destruct (String.eqb_spec args "void") as [->|_]; [discriminate H|].
  rewrite (split_no_sep "," args
             (all_space_no_char "," args eq_refl (strip_empty _ H))).
  cbn [split_pieces]. rewrite H. reflexivity.
Qed.

Lemma blank_arguments_rejected_witness :
  analyze_pure ("syscall", "int foo", "  ") "foo.h"
  = inl (SyscallParseException msg_malformed).
Proof. apply blank_arguments_rejected. reflexivity. Defined.

(** X7: an argument text with a bracket or an opening parenthesis anywhere
    in it is rejected: the declaration does not analyse, and the exception
    carries one of the three messages of the splitter. *)
Theorem array_or_pointer_argument_rejected (variant func args fn : string) :
  Py.contains "[" args = true \/ Py.contains "(" args = true ->
  exists e, analyze_pure (variant, func, args) fn = inl e /\ parse_error e.
Proof.
  intros H.
  assert (exists c, Py.isspace c = false /\ Ascii.eqb c "," = false /\
                    Py.contains c args = true /\
                    forall item, Py.contains c item = true ->
                                 exists e0, typename_split item = inl e0)
    as (c & Hsp & Hsep & Hc & Hrej).
  { destruct H as [H|H]; [exists "["%char | exists "("%char];
      repeat split; auto; intros item Hi; unfold typename_split.
    - rewrite Hi. eauto.
    - rewrite Hi. destruct (Py.contains "[" item); eauto. }
  assert (args <> "void") as Hne.
  { intros ->. destruct H as [H|H]; discriminate H. }
  rewrite (contains_split c "," args Hsep) in Hc.
  apply existsb_exists in Hc. destruct Hc as (piece & Hin & Hp).
  rewrite <- (contains_strip c piece Hsp) in Hp.
  destruct (Hrej _ Hp) as [e0 He0].
  destruct (split_pieces_raises _ _ _ Hin He0) as [e He].
  exists e. unfold analyze_pure. rewrite (split_args_other _ Hne), He.
  split; [reflexivity|].
  clear -He. revert e He. induction (Py.split "," args) as [|a rest IH];
    intros e He; [discriminate|].
  cbn [split_pieces] in He.
  destruct (typename_split (Py.strip a)) as [e1|tn] eqn:Ha.
  - injection He as <-. exact (typename_split_exn _ _ Ha).
  - destruct (split_pieces rest) as [e2|tns]; [|discriminate].
    injection He as <-. exact (IH _ eq_refl).
Qed.

Lemma array_or_pointer_argument_rejected_witness :
  exists e,
    analyze_pure ("syscall", "int fill", "int n, char buf[16]") "fill.h" = inl e
    /\ parse_error e.
Proof.
  apply array_or_pointer_argument_rejected. left. reflexivity.
Defined.

(** ** The names a record carries *)

Section Names.

Lemma upper_char_ident (c : ascii) :
  Re.is_ident c = true ->
  Re.is_ident (Py.upper_char c) = true /\ is_lower (Py.upper_char c) = false.
Proof.
  destruct c as [[] [] [] [] [] [] [] []]; intros H;
    try discriminate H; split; reflexivity.
Qed.

Lemma upper_ident (s : string) :
  all_ident s = true ->
  all_ident (Py.upper s) = true /\ no_lower (Py.upper s) = true.
Proof.
  induction s as [|c s IH]; [split; reflexivity|].
  cbn [all_ident Py.upper no_lower]. intros H. apply andb_prop in H.
  destruct H as [Hc Hs]. destruct (upper_char_ident c Hc) as [-> ->].
  destruct (IH Hs) as [-> ->]. split; reflexivity.
Qed.

Lemma no_lower_app (a b : string) :
  no_lower (a ++ b) = no_lower a && no_lower b.
Proof.
  induction a as [|c a IH]; [reflexivity|].
  cbn [String.append no_lower]. rewrite IH. apply andb_assoc.
Qed.

Lemma upper_length (s : string) :
  String.length (Py.upper s) = String.length s.
Proof. induction s as [|c s IH]; [reflexivity | cbn; now rewrite IH]. Qed.

End Names.

(** X8: the identifier and the handler symbol of every record are
    identifiers of the language the output is written in (letters, digits
    and underscores only), and the identifier holds no lower-case letter. *)
Theorem record_names_are_identifiers (mo : string * string * string)
        (fn : string) (w w' : World) (r : Syscall) :
  analyze_fn mo fn w = (w', inr r) ->
  all_ident (sys_id r) = true /\ no_lower (sys_id r) = true /\
  all_ident (handler r) = true.
Proof.
  destruct mo as [[variant func] args]. intros H. apply analyze_fn_inr in H.
  destruct H as [_ (parsed & func_type & func_name & _ & Hf & ->)].
  destruct (typename_split_name _ _ _ Hf) as [Hn _].
  destruct (upper_ident _ Hn) as [Hu Hl].
  unfold syscall_record. cbn [sys_id handler].
  rewrite !all_ident_app, no_lower_app, Hu, Hl, Hn. repeat split.
Qed.

Lemma record_names_are_identifiers_witness :
  all_ident (sys_id bar_record) = true /\ no_lower (sys_id bar_record) = true /\
  all_ident (handler bar_record) = true.
Proof.
  apply (record_names_are_identifiers
           ("syscall", "int bar", "int a, void *b") "foo.h"
           empty_world empty_world).
  reflexivity.
Defined.


(** ** The excluded header *)

Section Excluded.

Lemma endswith_app (p suffix : string) : Py.endswith (p ++ suffix) suffix = true.
Proof.
  induction p as [|c p IH].
  - destruct suffix; cbn [String.append Py.endswith];
      now rewrite String.eqb_refl.
  - change (String c p ++ suffix) with (String c (p ++ suffix)).
    cbn [Py.endswith]. rewrite IH. apply orb_true_r.
Qed.

Lemma endswith_slash_app (p s : string) :
  s <> "" -> Py.endswith (p ++ s) "/" = Py.endswith s "/".
Proof.
  intros Hs. induction p as [|c p IH]; [reflexivity|].
  change (String c p ++ s) with (String c (p ++ s)).
  cbn [Py.endswith]. rewrite IH.
  destruct (p ++ s) as [|d t] eqn:E.
  - destruct p; [|discriminate E]. cbn [String.append] in E. contradiction.
  - cbn [String.eqb]. destruct (Ascii.eqb c "/"); reflexivity.
Qed.

Lemma eqb_app_nonempty (p s : string) :
  s <> "" -> String.eqb (p ++ s) "" = false.
Proof.
  intros Hs. destruct p as [|c p]; [|reflexivity].
  destruct s; [contradiction | reflexivity].
Qed.

End Excluded.

(** X11: the exclusion of [toolchain/common.h] goes by the end of the path
    as a string: a file [common.h] is skipped in every directory whose path
    ends with the letters [toolchain], be it a directory [toolchain] or one
    whose name only ends so; its declarations are never read. *)
Theorem common_h_skipped (prefix : string) :
  skipped (prefix ++ "toolchain") "common.h" = true /\
  forall text ret_ w,
    visit_file (prefix ++ "toolchain") ("common.h", text) ret_ w
    = (w, inr ret_).
Proof.
  assert (skipped (prefix ++ "toolchain") "common.h" = true) as Hs.
  { unfold skipped, Py.path_join.
    change (Py.startswith "common.h" "/") with false. cbv iota.
    rewrite (eqb_app_nonempty prefix "toolchain" ltac:(discriminate)).
    rewrite (endswith_slash_app prefix "toolchain" ltac:(discriminate)).
    change (Py.endswith "toolchain" "/") with false. cbn [orb].
    rewrite append_assoc.
    change ("toolchain" ++ "/" ++ "common.h") with "toolchain/common.h".
    rewrite endswith_app. apply orb_true_r. }
  split; [exact Hs|]. intros text ret_ w. unfold visit_file.
  rewrite Hs. reflexivity.
Qed.

(** ** The dict of invocations *)

Section Groups.

Lemma dict_append_values (key value : string) (d : list (string * list string)) :
  Permutation (concat (map snd (dict_append key value d)))
              (concat (map snd d) ++ [value]).
Proof.
  induction d as [|[k vs] d IH]; [reflexivity|].
  cbn [dict_append]. destruct (String.eqb k key); cbn [map snd concat].
  - rewrite <- !List.app_assoc. apply Permutation_app_head, Permutation_app_comm.
  - rewrite <- List.app_assoc. apply Permutation_app_head, IH.
Qed.

Lemma dict_append_nonempty (key value : string) (d : list (string * list string)) :
  Forall (fun item => snd item <> []) d ->
  Forall (fun item => snd item <> []) (dict_append key value d).
Proof.
  induction d as [|[k vs] d IH]; intros H.
  - constructor; [discriminate | constructor].
  - inversion H as [|? ? Hvs Hd]; subst. cbn [dict_append].
    destruct (String.eqb k key); constructor; auto.
    cbn [snd]. intros E. apply app_eq_nil in E. destruct E as [_ E].
    discriminate E.
Qed.

End Groups.

(** X12: the invocation headers share out the invocations: the invocations
    under all keys of the dict, taken together, are those of all records,
    each as often as it occurs among the records, and no key has an empty
    list. *)
Theorem headers_share_out_invocations (syscalls : list Syscall) :
  let d := invocations (collect syscalls) in
  Permutation (concat (map snd d)) (map invocation syscalls) /\
  Forall (fun item => snd item <> []) d.
Proof.
  induction syscalls as [|r l IH] using rev_ind.
  - split; [reflexivity | constructor].
  - destruct IH as [Hp Hn]. rewrite collect_snoc. cbn [invocations]. split.
    + rewrite dict_append_values, map_app. now apply Permutation_app_tail.
    + now apply dict_append_nonempty.
Qed.


(** ** The order of the listing *)

Section StringOrderFacts.

Lemma ascii_compare_refl (a : ascii) : Ascii.compare a a = Eq.
Proof. unfold Ascii.compare. apply BinNat.N.compare_refl. Qed.

Lemma ascii_compare_lt_trans (a b c : ascii) :
  Ascii.compare a b = Lt -> Ascii.compare b c = Lt -> Ascii.compare a c = Lt.
Proof.
  unfold Ascii.compare. rewrite !BinNat.N.compare_lt_iff.
  apply BinNat.N.lt_trans.
Qed.

Lemma string_leb_trans (a b c : string) :
  String.leb a b = true -> String.leb b c = true -> String.leb a c = true.
Proof.
  unfold String.leb. revert b c.
  induction a as [|x a IH]; intros [|y b] [|z c]; cbn [String.compare];
    try reflexivity; try discriminate.
  destruct (Ascii.compare x y) eqn:E1; try discriminate;
    destruct (Ascii.compare y z) eqn:E2; try discriminate.
  - apply Ascii.compare_eq_iff in E1, E2. subst y z.
    rewrite ascii_compare_refl. apply IH.
  - apply Ascii.compare_eq_iff in E1. subst y. rewrite E2. reflexivity.
  - apply Ascii.compare_eq_iff in E2. subst z. rewrite E1. reflexivity.
  - rewrite (ascii_compare_lt_trans _ _ _ E1 E2). reflexivity.
Qed.

(** Two sorted lists with the same elements are the same list. *)
Lemma sorted_permutation_unique (l1 l2 : list string) :
  StronglySorted (fun a b => String.leb a b = true) l1 ->
  StronglySorted (fun a b => String.leb a b = true) l2 ->
  Permutation l1 l2 -> l1 = l2.
Proof.
  revert l2. induction l1 as [|a l1 IH]; intros l2 H1 H2 Hp.
  - apply Permutation_nil in Hp. now subst.
  - destruct l2 as [|b l2].
    { apply Permutation_sym, Permutation_nil in Hp. discriminate. }
    inversion H1 as [|? ? S1 F1]; inversion H2 as [|? ? S2 F2]; subst.
    assert (a = b) as ->.
    { assert (In a (b :: l2)) as Ha
          by (apply (Permutation_in _ Hp); now left).
      assert (In b (a :: l1)) as Hb
          by (apply (Permutation_in _ (Permutation_sym Hp)); now left).
      destruct Ha as [->|Ha]; [reflexivity|].
      destruct Hb as [->|Hb]; [reflexivity|].
      rewrite Forall_forall in F1, F2.
      apply String.leb_antisym; [exact (F1 _ Hb) | exact (F2 _ Ha)]. }
    f_equal. apply IH; auto. exact (Permutation_cons_inv Hp).
Qed.

Lemma sort_strongly_sorted (l : list string) :
  StronglySorted (fun a b => String.leb a b = true) (StringSort.sort l).
Proof.
  apply Sorted_StronglySorted.
  - intros a b c. apply string_leb_trans.
  - apply StringSort.Sorted_sort.
Qed.

End StringOrderFacts.

(** X14: the enumeration of the listing does not depend on the order in
    which the headers were walked: two record lists with the same
    identifiers, in whatever order, give the same list of identifiers in the
    listing. *)
Theorem listing_ignores_walk_order (l l' : list Syscall) :
  Permutation (map sys_id l) (map sys_id l') ->
  listing_ids (collect l) = listing_ids (collect l').
Proof.
  intros Hp. unfold listing_ids. rewrite !collect_ids. f_equal.
  apply sorted_permutation_unique; try apply sort_strongly_sorted.
  rewrite <- !StringSort.Permuted_sort. exact Hp.
Qed.

Lemma listing_ignores_walk_order_witness :
  listing_ids (collect (tree_records "include" two_dirs))
  = listing_ids (collect (rev (tree_records "include" two_dirs))).
Proof.
  apply listing_ignores_walk_order. rewrite map_rev. apply Permutation_rev.
Defined.

(** ** The lines of a header *)

Section OneLine.

Lemma contains_keep_false_lstrip (c : ascii) (s : string) :
  Py.contains c s = false -> Py.contains c (Py.lstrip s) = false.
Proof.
  induction s as [|d s IH]; [auto|]. cbn [Py.lstrip].
  destruct (Py.isspace d); [|auto]. cbn [Py.contains]. intros H.
  apply orb_false_elim in H. exact (IH (proj2 H)).
Qed.

Lemma contains_keep_false_rstrip (c : ascii) (s : string) :
  Py.contains c s = false -> Py.contains c (Py.rstrip s) = false.
Proof.
  induction s as [|d s IH]; [auto|]. cbn [Py.rstrip Py.contains]. intros H.
  apply orb_false_elim in H. destruct H as [Hd Hs]. specialize (IH Hs).
  destruct (Py.rstrip s) as [|x r].
  - destruct (Py.isspace d); [reflexivity|]. cbn [Py.contains].
    now rewrite Hd.
  - cbn [Py.contains] in *. now rewrite Hd, IH.
Qed.

Lemma contains_keep_false_strip (c : ascii) (s : string) :
  Py.contains c s = false -> Py.contains c (Py.strip s) = false.
Proof.
  intros H. apply contains_keep_false_rstrip, contains_keep_false_lstrip, H.
Qed.

Lemma contains_join (c : ascii) (sep : string) (l : list string) :
  Py.contains c sep = false ->
  Forall (fun t => Py.contains c t = false) l ->
  Py.contains c (Py.join sep l) = false.
Proof.
  intros Hsep H. unfold Py.join. induction H as [|t l Ht Hl IH]; [reflexivity|].
  cbn [String.concat]. destruct l as [|t' l']; [exact Ht|].
  rewrite !contains_app, Ht, Hsep, IH. reflexivity.
Qed.

Lemma digits_no_char (c : ascii) (s : string) :
  is_digit c = false -> all_digits s = true -> Py.contains c s = false.
Proof.
  intros Hc. induction s as [|d s IH]; [reflexivity|].
  cbn [all_digits Py.contains]. intros H. apply andb_prop in H.
  destruct H as [Hd Hs]. rewrite (IH Hs), orb_false_r.
  destruct (Ascii.eqb_spec c d) as [->|]; [congruence | reflexivity].
Qed.

Lemma typename_split_one_line (item type_text name : string) :
  typename_split item = inr (type_text, name) ->
  Py.contains Py.nl type_text = false /\ Py.contains Py.nl name = false.
Proof.
  intros H. destruct (typename_split_name _ _ _ H) as [Hn _].
  split; [|exact (ident_no_char Py.nl name eq_refl Hn)].
  unfold typename_split in H.
  destruct (Py.contains "[" item); [discriminate|].
  destruct (Py.contains "(" item); [discriminate|].
  rewrite typename_match_spec in H.
  destruct (split_trailing_ident (chomp item)) as [pre nm].
  destruct (String.eqb nm ""); [discriminate|]. cbn [orb] in H.
  destruct (Py.contains Py.nl pre) eqn:Hnl; [discriminate|].
  injection H as <- _. now apply contains_keep_false_strip.
Qed.

End OneLine.

(** X15: the invocation of every record is a single line: it holds no
    newline, however many lines the declaration was written on. *)
Theorem invocation_is_one_line (mo : string * string * string) (fn : string)
        (w w' : World) (r : Syscall) :
  analyze_fn mo fn w = (w', inr r) ->
  Py.contains Py.nl (invocation r) = false.
Proof.
  destruct mo as [[variant func] args]. intros H. apply analyze_fn_inr in H.
  destruct H as [_ (parsed & func_type & func_name & Ha & Hf & ->)].
  destruct (typename_split_one_line _ _ _ Hf) as [Ht Hn].
  destruct (typename_split_name _ _ _ Hf) as [Hid _].
  assert (Forall (fun tn => Py.contains Py.nl (fst tn) = false /\
                            Py.contains Py.nl (snd tn) = false) parsed) as Hp.
  { unfold split_args in Ha. destruct (String.eqb args "void").
    - injection Ha as <-. constructor.
    - refine (split_pieces_Forall _ _ _ _ Ha).
      intros a [t n] Hs. cbn [fst snd].
      exact (typename_split_one_line _ _ _ Hs). }
  assert (Forall (fun t => Py.contains Py.nl t = false) (flatten parsed)) as Hflat.
  { unfold flatten. clear -Hp. induction Hp as [|[t n] l [H1 H2] Hl IH];
      [constructor|].
    cbn [flat_map fst snd app]. repeat constructor; auto. }
  unfold syscall_record. cbn [invocation].
  rewrite !contains_app, macro_alt, !contains_app.
  rewrite (digits_no_char Py.nl _ eq_refl (fmt_d_digits _)).
  assert (Py.contains Py.nl (Py.upper func_name) = false) as Hup.
  { apply (ident_no_char Py.nl _ eq_refl).
    exact (proj1 (upper_ident _ Hid)). }
  rewrite contains_join.
  - destruct (String.eqb func_type "void"),
             (String.eqb variant "syscall_inline"); reflexivity.
  - reflexivity.
  - constructor; [now rewrite contains_app, Hup|].
    constructor; [exact Hn|].
    destruct (String.eqb func_type "void"); [exact Hflat|].
    constructor; [exact Ht | exact Hflat].
Qed.

Lemma invocation_is_one_line_witness :
  Py.contains
    Py.nl
    (invocation
       (syscall_record "syscall" "sem.h" [("struct k_sem *", "sem")]
                       "void" "k_sem_give")) = false.
Proof.
  apply (invocation_is_one_line
           ("syscall", "void k_sem_give",
            String Py.nl "    struct k_sem *sem" ++ String Py.nl "")
           "sem.h" empty_world empty_world).
  reflexivity.
Defined.



(** ** The calls of the host *)

Section Host.

Lemma attempt_world (rq : Request) (w w' : World) (r : exn + unit) :
  attempt rq w = (w', r) -> w' = w.
Proof.
  unfold attempt. destruct (refuses w (events w) rq); intros H;
    injection H as <- _; reflexivity.
Qed.

Lemma attempt_inr (rq : Request) (w w' : World) :
  attempt rq w = (w', inr tt) -> w' = w /\ refuses w (events w) rq = None.
Proof.
  unfold attempt. destruct (refuses w (events w) rq); intros H;
    [discriminate | injection H as <-; auto].
Qed.

Lemma attempt_inl (rq : Request) (w w' : World) (e : exn) :
  attempt rq w = (w', inl e) -> w' = w /\ exists err, e = HostError err.
Proof.
  unfold attempt. destruct (refuses w (events w) rq) as [err|]; intros H;
    [injection H as <- <-; eauto | discriminate].
Qed.

End Host.

(** ** [analyze_headers] *)

Section AnalyzeHeaders.

Lemma same_artifacts_refl (w : World) : same_artifacts w w.
Proof. repeat split. Qed.

Lemma same_artifacts_trans (w1 w2 w3 : World) :
  same_artifacts w1 w2 -> same_artifacts w2 w3 -> same_artifacts w1 w3.
Proof.
  intros (F1 & O1 & E1) (F2 & O2 & E2).
  split; [|split]; congruence.
Qed.

Lemma stderr_write_same_artifacts (text : string) (w : World) :
  same_artifacts w (stderr_write text w).
Proof. repeat split. Qed.

Lemma analyze_fn_same_artifacts mo fn w w' r :
  analyze_fn mo fn w = (w', r) -> same_artifacts w w'.
Proof.
  destruct mo as [[variant func] args]. rewrite analyze_fn_unfold.
  destruct (analyze_pure _ _); intros H; injection H as <- _.
  - apply stderr_write_same_artifacts.
  - apply same_artifacts_refl.
Qed.

Lemma reraising_same_artifacts {A : Type} (m : M A) (text : string) :
  (forall w w' r, m w = (w', r) -> same_artifacts w w') ->
  forall w w' r,
    reraising m (stderr_write text) w = (w', r) -> same_artifacts w w'.
Proof.
  intros Hm w w' r. unfold reraising.
  destruct (m w) as [w1 [e|a]] eqn:H1; intros H; injection H as <- _.
  - apply (same_artifacts_trans _ w1); [exact (Hm _ _ _ H1)|].
    apply stderr_write_same_artifacts.
  - exact (Hm _ _ _ H1).
Qed.

(** The comprehension of [scan_file], on the text already read. *)
Lemma matches_same_artifacts fn matches w w' r :
  comprehension (fun mo => analyze_fn mo fn) matches w = (w', r) ->
  same_artifacts w w'.
Proof.
  apply (comprehension_keeps same_artifacts same_artifacts_refl
                             same_artifacts_trans).
  intros mo u u' r0 _. apply analyze_fn_same_artifacts.
Qed.

Lemma scan_file_same_artifacts path fn text w w' r :
  scan_file path fn text w = (w', r) -> same_artifacts w w'.
Proof.
  apply reraising_same_artifacts. clear. intros w w' r. unfold bind.
  destruct (attempt (ReadText path) w) as [w1 [e|[]]] eqn:Ha;
    rewrite (attempt_world _ _ _ _ Ha) in *.
  - intros H. injection H as <- _. apply same_artifacts_refl.
  - apply matches_same_artifacts.
Qed.

Lemma analyze_fn_returns mo fn w w' r :
  analyze_fn mo fn w = (w', inr r) ->
  w' = w /\
  match analyze_pure mo fn with inr r0 => [r0] | inl _ => [] end = [r].
Proof.
  destruct mo as [[variant func] args]. rewrite analyze_fn_unfold.
  destruct (analyze_pure _ _); intros H; [discriminate|].
  injection H as <- <-. auto.
Qed.

Lemma scan_file_returns path fn text w w' rs :
  scan_file path fn text w = (w', inr rs) ->
  w' = w /\ rs = file_records fn text /\
  refuses w (events w) (ReadText path) = None.
Proof.
  unfold scan_file, reraising, bind.
  destruct (attempt (ReadText path) w) as [w1 [e|[]]] eqn:Ha; [discriminate|].
  destruct (attempt_inr _ _ _ Ha) as [-> Hok].
  destruct (comprehension _ _ w) as [w1 [e|rs1]] eqn:H1; [discriminate|].
  intros H. injection H as <- <-.
  destruct (comprehension_returns _ _ _ (fun mo => analyze_fn_returns mo fn)
                                  _ _ _ H1) as [-> ->].
  auto.
Qed.

Lemma scan_file_raises path fn text mo e0 w0 :
  In mo (Re.finditer (Py.universal_newlines text)) ->
  snd (analyze_fn mo fn w0) = inl e0 ->
  forall w, exists e, snd (scan_file path fn text w) = inl e.
Proof.
  intros Hin Hmo w. unfold scan_file, reraising, bind.
  destruct (attempt (ReadText path) w) as [w1 [e|[]]] eqn:Ha;
    [exists e; reflexivity|].
  destruct (comprehension_raises (fun mo => analyze_fn mo fn) _ mo Hin)
    with (w := w1) as [e He].
  - intros u. destruct mo as [[variant func] args].
    rewrite analyze_fn_unfold in *.
    destruct (analyze_pure _ _) as [e|r]; [exists e; reflexivity|].
    discriminate Hmo.
  - destruct (comprehension _ _ w1) as [w2 [e'|rs]]; simpl in He;
      [exists e'; reflexivity | discriminate].
Qed.

End AnalyzeHeaders.

Section AnalyzeTree.

Lemma visit_file_same_artifacts root f s w w' r :
  visit_file root f s w = (w', r) -> same_artifacts w w'.
Proof.
  destruct f as [fn text]. unfold visit_file.
  destruct (skipped root fn).
  - intros H. injection H as <- _. apply same_artifacts_refl.
  - unfold bind at 1.
    destruct (attempt (OpenRead (Py.path_join root fn)) w) as [w1 [e|[]]] eqn:Ha;
      rewrite (attempt_world _ _ _ _ Ha) in *.
    + intros H. injection H as <- _. apply same_artifacts_refl.
    + unfold bind.
      destruct (scan_file (Py.path_join root fn) fn text w) as [w2 [e|rs]] eqn:H1;
        intros H; injection H as <- _;
        exact (scan_file_same_artifacts _ _ _ _ _ _ H1).
Qed.

Lemma visit_dir_same_artifacts d s w w' r :
  visit_dir d s w = (w', r) -> same_artifacts w w'.
Proof.
  destruct d as [root dir_files]. unfold visit_dir.
  apply (for_each_keeps same_artifacts same_artifacts_refl
                        same_artifacts_trans).
  intros f s0 u u' r0 _. apply visit_file_same_artifacts.
Qed.

(** Record collection touches nothing but [sys.stderr]. *)
Lemma analyze_headers_same_artifacts base_path tree w w' r :
  analyze_headers base_path tree w = (w', r) -> same_artifacts w w'.
Proof.
  unfold analyze_headers.
  apply (for_each_keeps same_artifacts same_artifacts_refl
                        same_artifacts_trans).
  intros d s u u' r0 _. apply visit_dir_same_artifacts.
Qed.

Lemma visit_file_returns root f s w w' s' :
  visit_file root f s w = (w', inr s') ->
  w' = w /\
  s' = (s ++ (if skipped root (fst f) then []
              else file_records (fst f) (snd f)))%list.
Proof.
  destruct f as [fn text]. unfold visit_file. cbn [fst snd].
  destruct (skipped root fn).
  - intros H. injection H as <- <-. rewrite List.app_nil_r. auto.
  - unfold bind at 1.
    destruct (attempt (OpenRead (Py.path_join root fn)) w) as [w1 [e|[]]] eqn:Ha;
      [discriminate|].
    rewrite (attempt_world _ _ _ _ Ha). unfold bind.
    destruct (scan_file (Py.path_join root fn) fn text w) as [w2 [e|rs]] eqn:H1;
      [discriminate|].
    intros H. injection H as <- <-.
    destruct (scan_file_returns _ _ _ _ _ _ H1) as (-> & -> & _). auto.
Qed.

Lemma visit_dir_returns d s w w' s' :
  visit_dir d s w = (w', inr s') ->
  w' = w /\ s' = (s ++ dir_records (fst d) (snd d))%list.
Proof.
  destruct d as [root dir_files]. unfold visit_dir, dir_records.
  apply for_each_returns. intros f s0 u u' s1 _. apply visit_file_returns.
Qed.

(** When record collection ends well it has written nothing, and returns
    the records of the tree in the order of the walk. *)
Lemma analyze_headers_returns base_path tree w w' syscalls :
  analyze_headers base_path tree w = (w', inr syscalls) ->
  w' = w /\ syscalls = tree_records base_path tree.
Proof.
  unfold analyze_headers. intros H.
  apply (for_each_returns visit_dir (fun d => dir_records (fst d) (snd d)))
    in H; [exact H|].
  intros d s u u' s1 _. apply visit_dir_returns.
Qed.

(** Record collection raises when a declaration of a scanned file does. *)
Lemma analyze_headers_raises base_path tree root dir_files fn text mo e0 w0 :
  In (root, dir_files) (walk base_path tree) ->
  In (fn, text) dir_files ->
  skipped root fn = false ->
  In mo (Re.finditer (Py.universal_newlines text)) ->
  snd (analyze_fn mo fn w0) = inl e0 ->
  forall w, exists e, snd (analyze_headers base_path tree w) = inl e.
Proof.
  intros Hd Hf Hs Hmo He0 w. unfold analyze_headers.
  apply (for_each_raises visit_dir _ _ Hd). intros s u. unfold visit_dir.
  apply (for_each_raises (visit_file root) _ _ Hf). intros s1 u1.
  unfold visit_file. rewrite Hs. unfold bind at 1.
  destruct (attempt (OpenRead (Py.path_join root fn)) u1) as [w1 [e|[]]] eqn:Ha;
    [exists e; reflexivity|].
  unfold bind.
  destruct (scan_file_raises (Py.path_join root fn) fn text mo e0 w0 Hmo He0 w1)
    as [e He].
  destruct (scan_file (Py.path_join root fn) fn text w1) as [w2 [e'|rs]];
    simpl in He; [exists e'; reflexivity | discriminate].
Qed.

(** Every record carries the name of a scanned file as the walk lists it. *)
Lemma tree_records_fn base_path tree r :
  In r (tree_records base_path tree) ->
  exists root dir_files text,
    In (root, dir_files) (walk base_path tree) /\
    In (fn r, text) dir_files /\
    skipped root (fn r) = false /\
    In r (file_records (fn r) text).
Proof.
  unfold tree_records. intros H. apply in_flat_map in H.
  destruct H as [[root dir_files] [Hd H]]. cbn [fst snd] in H.
  unfold dir_records in H. apply in_flat_map in H.
  destruct H as [[name text] [Hf H]]. cbn [fst snd] in H.
  destruct (skipped root name) eqn:Hs; [contradiction|].
  assert (fn r = name) as Hn.
  { unfold file_records in H. apply in_flat_map in H.
    destruct H as [[[variant func] args] [_ H]]. unfold analyze_pure in H.
    destruct (split_args args); [contradiction|].
    destruct (typename_split func) as [|[func_type func_name]];
      [contradiction|].
    destruct H as [<-|[]]. reflexivity. }
  exists root, dir_files, text. rewrite Hn. auto.
Qed.

End AnalyzeTree.


(** ** The host stays the same while the records are collected *)

Section SameHost.

Lemma same_host_refl (w : World) : same_host w w.
Proof. split; reflexivity. Qed.

Lemma same_host_trans (w1 w2 w3 : World) :
  same_host w1 w2 -> same_host w2 w3 -> same_host w1 w3.
Proof. intros [I1 R1] [I2 R2]. split; congruence. Qed.

Lemma stderr_write_same_host (text : string) (w : World) :
  same_host w (stderr_write text w).
Proof. split; reflexivity. Qed.

Lemma analyze_fn_same_host mo fn w w' r :
  analyze_fn mo fn w = (w', r) -> same_host w w'.
Proof.
  destruct mo as [[variant func] args]. rewrite analyze_fn_unfold.
  destruct (analyze_pure _ _); intros H; injection H as <- _.
  - apply stderr_write_same_host.
  - apply same_host_refl.
Qed.

Lemma reraising_same_host {A : Type} (m : M A) (text : string) :
  (forall w w' r, m w = (w', r) -> same_host w w') ->
  forall w w' r,
    reraising m (stderr_write text) w = (w', r) -> same_host w w'.
Proof.
  intros Hm w w' r. unfold reraising.
  destruct (m w) as [w1 [e|a]] eqn:H1; intros H; injection H as <- _.
  - apply (same_host_trans _ w1); [exact (Hm _ _ _ H1)|].
    apply stderr_write_same_host.
  - exact (Hm _ _ _ H1).
Qed.

Lemma matches_same_host fn matches w w' r :
  comprehension (fun mo => analyze_fn mo fn) matches w = (w', r) ->
  same_host w w'.
Proof.
  apply (comprehension_keeps same_host same_host_refl
                             same_host_trans).
  intros mo u u' r0 _. apply analyze_fn_same_host.
Qed.

Lemma scan_file_same_host path fn text w w' r :
  scan_file path fn text w = (w', r) -> same_host w w'.
Proof.
  apply reraising_same_host. clear. intros w w' r. unfold bind.
  destruct (attempt (ReadText path) w) as [w1 [e|[]]] eqn:Ha;
    rewrite (attempt_world _ _ _ _ Ha) in *.
  - intros H. injection H as <- _. apply same_host_refl.
  - apply matches_same_host.
Qed.

Lemma visit_file_same_host root f s w w' r :
  visit_file root f s w = (w', r) -> same_host w w'.
Proof.
  destruct f as [fn text]. unfold visit_file.
  destruct (skipped root fn).
  - intros H. injection H as <- _. apply same_host_refl.
  - unfold bind at 1.
    destruct (attempt (OpenRead (Py.path_join root fn)) w) as [w1 [e|[]]] eqn:Ha;
      rewrite (attempt_world _ _ _ _ Ha) in *.
    + intros H. injection H as <- _. apply same_host_refl.
    + unfold bind.
      destruct (scan_file (Py.path_join root fn) fn text w) as [w2 [e|rs]] eqn:H1;
        intros H; injection H as <- _;
        exact (scan_file_same_host _ _ _ _ _ _ H1).
Qed.

Lemma visit_dir_same_host d s w w' r :
  visit_dir d s w = (w', r) -> same_host w w'.
Proof.
  destruct d as [root dir_files]. unfold visit_dir.
  apply (for_each_keeps same_host same_host_refl
                        same_host_trans).
  intros f s0 u u' r0 _. apply visit_file_same_host.
Qed.

Lemma analyze_headers_same_host base_path tree w w' r :
  analyze_headers base_path tree w = (w', r) -> same_host w w'.
Proof.
  unfold analyze_headers.
  apply (for_each_keeps same_host same_host_refl
                        same_host_trans).
  intros d s u u' r0 _. apply visit_dir_same_host.
Qed.

End SameHost.


(** ** Line ends *)

Section Newlines.

(** Reading leaves a text without carriage returns as it is. *)
Lemma universal_newlines_id (s : string) :
  Py.contains Py.cr s = false -> Py.universal_newlines s = s.
Proof.
  induction s as [|c s IH]; [reflexivity|]. cbn [Py.contains]. intros H.
  apply orb_false_elim in H. destruct H as [Hc Hs].
  cbn [Py.universal_newlines]. rewrite Ascii.eqb_sym, Hc, (IH Hs). reflexivity.
Qed.

(** What was read holds no carriage return. *)
Lemma universal_newlines_no_cr (s : string) :
  Py.contains Py.cr (Py.universal_newlines s) = false.
Proof.
  enough (Py.contains Py.cr (Py.universal_newlines s) = false /\
          forall c, Py.contains Py.cr (Py.universal_newlines (String c s))
                    = false) as [H _] by exact H.
  induction s as [|d s [IH1 IH2]].
  - split; [reflexivity|]. intros c. cbn [Py.universal_newlines].
    destruct (Ascii.eqb c Py.cr) eqn:E; [reflexivity|].
    cbn [Py.contains]. now rewrite Ascii.eqb_sym, E.
  - split; [apply IH2|]. intros c.
    change (Py.universal_newlines (String c (String d s)))
      with (if Ascii.eqb c Py.cr
            then String Py.nl (if Ascii.eqb d Py.nl
                               then Py.universal_newlines s
                               else Py.universal_newlines (String d s))
            else String c (Py.universal_newlines (String d s))).
    destruct (Ascii.eqb c Py.cr) eqn:E.
    + cbn [Py.contains]. change (Ascii.eqb Py.cr Py.nl) with false.
      cbn [orb]. destruct (Ascii.eqb d Py.nl); [exact IH1 | apply IH2].
    + cbn [Py.contains]. rewrite Ascii.eqb_sym, E. apply IH2.
Qed.

End Newlines.

(** ** Texts without a carriage return *)

Section NoCarriageReturn.

Lemma contains_chomp_false (c : ascii) (item : string) :
  Py.contains c item = false -> Py.contains c (chomp item) = false.
Proof.
  induction item as [|d s IH]; [auto|]. destruct s as [|d' s'].
  - cbn [chomp]. destruct (Ascii.eqb d Py.nl); auto.
  - rewrite chomp_cons_cons. cbn [Py.contains] in *. intros H.
    apply orb_false_elim in H. destruct H as [-> H]. exact (IH H).
Qed.

(** What is not in a fragment is in neither part the splitter returns. *)
Lemma typename_split_keeps_out (c : ascii) (item type_text name : string) :
  typename_split item = inr (type_text, name) ->
  Py.contains c item = false ->
  Py.contains c type_text = false /\ Py.contains c name = false.
Proof.
  unfold typename_split.
  destruct (Py.contains "[" item); [discriminate|].
  destruct (Py.contains "(" item); [discriminate|].
  rewrite typename_match_spec.
  pose proof (split_trailing_ident_app (chomp item)) as Happ.
  destruct (split_trailing_ident (chomp item)) as [pre nm].
  cbn [fst snd] in Happ.
  destruct (String.eqb nm "" || Py.contains Py.nl pre); [discriminate|].
  intros H Hc. injection H as <- <-.
  apply contains_chomp_false in Hc. rewrite <- Happ, contains_app in Hc.
  apply orb_false_elim in Hc. destruct Hc as [Hp Hn].
  split; [now apply contains_keep_false_strip | exact Hn].
Qed.

Lemma split_keeps_out (c sep : ascii) (s : string) :
  Py.contains c s = false ->
  Forall (fun piece => Py.contains c piece = false) (Py.split sep s).
Proof.
  induction s as [|d s IH]; [repeat constructor|].
  cbn [Py.contains Py.split]. intros H. apply orb_false_elim in H.
  destruct H as [Hd Hs]. specialize (IH Hs).
  destruct (Ascii.eqb d sep).
  - constructor; [reflexivity | exact IH].
  - destruct (Py.split sep s) as [|piece rest].
    + repeat constructor. cbn [Py.contains]. now rewrite Hd.
    + inversion IH as [|? ? Hp Hr]; subst. constructor; [|exact Hr].
      cbn [Py.contains]. now rewrite Hd, Hp.
Qed.

Lemma split_args_keeps_out (c : ascii) (args : string)
      (parsed : list (string * string)) :
  split_args args = inr parsed ->
  Py.contains c args = false ->
  Forall (fun tn => Py.contains c (fst tn) = false /\
                    Py.contains c (snd tn) = false) parsed.
Proof.
  unfold split_args. destruct (String.eqb args "void").
  - intros H _. injection H as <-. constructor.
  - intros H Hc. pose proof (split_keeps_out c "," args Hc) as Hall.
    revert parsed H. induction Hall as [|piece rest Hp Hrest IH];
      intros parsed H.
    + injection H as <-. constructor.
    + cbn [split_pieces] in H.
      destruct (typename_split (Py.strip piece)) as [e|[t n]] eqn:Ht;
        [discriminate|].
      destruct (split_pieces rest) as [e|tns]; [discriminate|].
      injection H as <-. constructor; [|exact (IH _ eq_refl)].
      exact (typename_split_keeps_out c _ _ _ Ht
               (contains_keep_false_strip c _ Hp)).
Qed.

Lemma flatten_keeps_out (c : ascii) (parsed : list (string * string)) :
  Forall (fun tn => Py.contains c (fst tn) = false /\
                    Py.contains c (snd tn) = false) parsed ->
  Forall (fun t => Py.contains c t = false) (flatten parsed).
Proof.
  unfold flatten. induction 1 as [|[t n] l [H1 H2] Hl IH]; [constructor|].
  cbn [flat_map fst snd app]. repeat constructor; auto.
Qed.

(** The invocation of a declaration written without a carriage return holds
    none. *)
Lemma invocation_no_cr (variant func args fn : string) (r : Syscall) :
  analyze_pure (variant, func, args) fn = inr r ->
  Py.contains Py.cr func = false -> Py.contains Py.cr args = false ->
  Py.contains Py.cr (invocation r) = false.
Proof.
  unfold analyze_pure.
  destruct (split_args args) as [e|parsed] eqn:Ha; [discriminate|].
  destruct (typename_split func) as [e|[func_type func_name]] eqn:Hf;
    [discriminate|].
  intros H Hcf Hca. injection H as <-.
  destruct (typename_split_keeps_out Py.cr _ _ _ Hf Hcf) as [Ht Hn].
  destruct (typename_split_name _ _ _ Hf) as [Hid _].
  pose proof (flatten_keeps_out _ _ (split_args_keeps_out _ _ _ Ha Hca))
    as Hflat.
  unfold syscall_record. cbn [invocation].
  rewrite !contains_app, macro_alt, !contains_app.
  rewrite (digits_no_char Py.cr _ eq_refl (fmt_d_digits _)).
  assert (Py.contains Py.cr (Py.upper func_name) = false) as Hup.
  { apply (ident_no_char Py.cr _ eq_refl).
    exact (proj1 (upper_ident _ Hid)). }
  rewrite contains_join.
  - destruct (String.eqb func_type "void"),
             (String.eqb variant "syscall_inline"); reflexivity.
  - reflexivity.
  - constructor; [now rewrite contains_app, Hup|].
    constructor; [exact Hn|].
    destruct (String.eqb func_type "void"); [exact Hflat|].
    constructor; [exact Ht | exact Hflat].
Qed.

(** The groups of a match are parts of the text. *)
Lemma finditer_keeps_out (c : ascii) (text variant func args : string) :
  In (variant, func, args) (Re.finditer text) ->
  Py.contains c text = false ->
  Py.contains c func = false /\ Py.contains c args = false.
Proof.
  intros H Hc. apply finditer_from_In in H.
  destruct H as (before & rest0 & n & -> & Hm). apply api_match_spec in Hm.
  destruct Hm as [_ (sp & rest & -> & _)].
  unfold declaration in Hc. rewrite !contains_app in Hc.
  repeat (apply orb_false_elim in Hc; destruct Hc as [? Hc]).
  repeat match goal with
         | H : _ || _ = false |- _ =>
             apply orb_false_elim in H; destruct H
         end.
  split; assumption.
Qed.

Lemma file_records_no_cr (fn text : string) (r : Syscall) :
  In r (file_records fn text) -> Py.contains Py.cr (invocation r) = false.
Proof.
  unfold file_records. intros H. apply in_flat_map in H.
  destruct H as ([[variant func] args] & Hin & H).
  destruct (analyze_pure (variant, func, args) fn) as [e|r0] eqn:Hp;
    [contradiction|].
  destruct H as [<-|[]].
  destruct (finditer_keeps_out Py.cr _ _ _ _ Hin
              (universal_newlines_no_cr text)) as [Hf Ha].
  exact (invocation_no_cr _ _ _ _ _ Hp Hf Ha).
Qed.

(** No invocation of a scanned tree holds a carriage return. *)
Lemma tree_records_no_cr (base_path : string) (tree : Dir) (r : Syscall) :
  In r (tree_records base_path tree) ->
  Py.contains Py.cr (invocation r) = false.
Proof.
  intros H. destruct (tree_records_fn _ _ _ H) as (_ & _ & text & _ & _ & _ & Hr).
  exact (file_records_no_cr _ _ _ Hr).
Qed.

Lemma header_text_no_cr (invo_list : list string) :
  Forall (fun inv => Py.contains Py.cr inv = false) invo_list ->
  Py.contains Py.cr (header_text invo_list) = false.
Proof.
  intros H. unfold header_text, syscall_template.
  rewrite !contains_app, (contains_join Py.cr sep_blank_line _ eq_refl H).
  reflexivity.
Qed.

(** An item of the dict holds the invocations of the records of its key. *)
Lemma collect_item (l : list Syscall) (item : string * list string) :
  In item (invocations (collect l)) ->
  snd item = map invocation (from_file (fst item) l).
Proof.
  destruct item as [k vs]. intros H. cbn [fst snd].
  apply (In_dict_get _ _ _ (collect_keys_NoDup l)) in H.
  rewrite collect_get in H.
  destruct (from_file k l); [discriminate | now injection H as <-].
Qed.

Lemma run_headers_no_cr (base_path : string) (tree : Dir)
      (item : string * list string) :
  In item (invocations (collect (tree_records base_path tree))) ->
  Py.contains Py.cr (header_text (snd item)) = false.
Proof.
  intros H. rewrite (collect_item _ _ H). apply header_text_no_cr.
  apply Forall_forall. intros inv Hin. apply in_map_iff in Hin.
  destruct Hin as (r & <- & Hr). apply filter_In in Hr.
  exact (tree_records_no_cr _ _ _ (proj1 Hr)).
Qed.

End NoCarriageReturn.


(** ** Writing a file *)

Section Writing.

(** [open(path, "w")] may be refused, and so may the write after it, which
    leaves the file empty; else the file holds the text. *)
Lemma open_write_cases (path content : string) (w w' : World)
      (r : exn + unit) :
  open_write path content w = (w', r) ->
  (w' = w /\ exists err, r = inl (HostError err)) \/
  (w' = truncated path w /\ exists err, r = inl (HostError err)) \/
  (w' = written path content w /\ r = inr tt).
Proof.
  unfold open_write, bind.
  destruct (attempt (OpenWrite path) w) as [w1 [e|[]]] eqn:H1.
  - destruct (attempt_inl _ _ _ _ H1) as [-> [err ->]]. intros H.
    injection H as <- <-. eauto.
  - rewrite (attempt_world _ _ _ _ H1).
    destruct (attempt (WriteText path) (truncated path w)) as [w2 [e|[]]] eqn:H2.
    + destruct (attempt_inl _ _ _ _ H2) as [-> [err ->]]. intros H.
      injection H as <- <-. eauto.
    + rewrite (attempt_world _ _ _ _ H2). intros H. injection H as <- <-.
      right. right. auto.
Qed.

Lemma open_write_inr (path content : string) (w w' : World) :
  open_write path content w = (w', inr tt) -> w' = written path content w.
Proof.
  intros H. destruct (open_write_cases _ _ _ _ _ H)
    as [[_ [err E]]|[[_ [err E]]|[-> _]]]; try discriminate E. reflexivity.
Qed.

Lemma stdout_write_cases (text : string) (w w' : World) (r : exn + unit) :
  stdout_write text w = (w', r) ->
  (w' = w /\ exists err, r = inl (HostError err)) \/
  (w' = with_stdout text w /\ r = inr tt).
Proof.
  unfold stdout_write, bind.
  destruct (attempt WriteStdout w) as [w1 [e|[]]] eqn:H1.
  - destruct (attempt_inl _ _ _ _ H1) as [-> [err ->]]. intros H.
    injection H as <- <-. eauto.
  - rewrite (attempt_world _ _ _ _ H1). intros H. injection H as <- <-. auto.
Qed.

Lemma makedirs_cases (path : string) (w w' : World) (r : exn + unit) :
  makedirs path w = (w', r) ->
  (w' = w /\ exists err, r = inl (HostError err)) \/
  (w' = with_event (EvMakedirs path) w /\ r = inr tt).
Proof.
  unfold makedirs, bind.
  destruct (attempt (Makedirs path) w) as [w1 [e|[]]] eqn:H1.
  - destruct (attempt_inl _ _ _ _ H1) as [-> [err ->]]. intros H.
    injection H as <- <-. eauto.
  - rewrite (attempt_world _ _ _ _ H1). intros H. injection H as <- <-. auto.
Qed.

End Writing.

(** ** The invocation headers *)

Section Headers.

Variable base : string.

Lemma write_header_unfold (item : string * list string) (w : World) :
  write_header base item w =
    match files w (ident w (header_path base item)) with
    | None =>
        open_write (header_path base item) (header_text (snd item)) w
    | Some stored =>
        match refuses w (events w) (OpenRead (header_path base item)) with
        | Some err => (w, inl (HostError err))
        | None =>
            match refuses w (events w) (ReadText (header_path base item)) with
            | Some err => (w, inl (HostError err))
            | None =>
                if String.eqb (Py.universal_newlines stored)
                              (header_text (snd item))
                then (w, inr tt)
                else open_write (header_path base item)
                                (header_text (snd item)) w
            end
        end
    end.
Proof.
  destruct item as [k vs].
  unfold write_header, header_path, path_exists, open_read, bind, attempt, ret.
  cbn [fst snd].
  destruct (files w (ident w (Py.path_join base k))) as [stored|] eqn:Hf;
    [|reflexivity].
  destruct (refuses w (events w) (OpenRead (Py.path_join base k)));
    [reflexivity|].
  destruct (refuses w (events w) (ReadText (Py.path_join base k)));
    [reflexivity|].
  rewrite Hf.
  destruct (String.eqb (Py.universal_newlines stored) (header_text vs));
    reflexivity.
Qed.

(** A header whose file reads as the very text is left alone. *)
Lemma write_header_identical (item : string * list string) (w : World)
      (stored : string) :
  files w (ident w (header_path base item)) = Some stored ->
  refuses w (events w) (OpenRead (header_path base item)) = None ->
  refuses w (events w) (ReadText (header_path base item)) = None ->
  Py.universal_newlines stored = header_text (snd item) ->
  write_header base item w = (w, inr tt).
Proof.
  intros Hf H1 H2 Heq.
  rewrite write_header_unfold, Hf, H1, H2, Heq, String.eqb_refl. reflexivity.
Qed.

(** A header with no file yet, or whose file reads as another text, is
    written. *)
Lemma write_header_otherwise (item : string * list string) (w : World) :
  files w (ident w (header_path base item)) = None \/
  (exists stored,
      files w (ident w (header_path base item)) = Some stored /\
      refuses w (events w) (OpenRead (header_path base item)) = None /\
      refuses w (events w) (ReadText (header_path base item)) = None /\
      Py.universal_newlines stored <> header_text (snd item)) ->
  write_header base item w
  = open_write (header_path base item) (header_text (snd item)) w.
Proof.
  rewrite write_header_unfold.
  intros [->|(stored & -> & -> & -> & Hne)]; [reflexivity|].
  destruct (String.eqb_spec (Py.universal_newlines stored)
                            (header_text (snd item)));
    [contradiction | reflexivity].
Qed.

(** A header whose file is there and reads as the text is not written,
    whatever the host answers. *)
Lemma write_header_in_place (item : string * list string) (w w' : World)
      (r : exn + unit) (stored : string) :
  files w (ident w (header_path base item)) = Some stored ->
  Py.universal_newlines stored = header_text (snd item) ->
  write_header base item w = (w', r) -> w' = w.
Proof.
  intros Hf Heq. rewrite write_header_unfold, Hf, Heq, String.eqb_refl.
  destruct (refuses w (events w) (OpenRead (header_path base item)));
    [intros H; now injection H as <-|].
  destruct (refuses w (events w) (ReadText (header_path base item)));
    intros H; now injection H as <-.
Qed.

(** What one step of the loop leaves behind. *)
Lemma write_header_post (item : string * list string) (w w' : World)
      (r : exn + unit) :
  write_header base item w = (w', r) ->
  same_host w w' /\ stdout w' = stdout w /\ stderr w' = stderr w /\
  (forall k, k <> ident w (header_path base item) -> files w' k = files w k) /\
  (exists written_,
      events w' = (events w ++ written_)%list /\
      Forall (fun ev => ev = EvTruncate (header_path base item) \/
                        ev = EvWrite (header_path base item)
                                     (header_text (snd item)))
             written_) /\
  (r = inr tt ->
   Py.contains Py.cr (header_text (snd item)) = false ->
   exists stored,
     files w' (ident w (header_path base item)) = Some stored /\
     Py.universal_newlines stored = header_text (snd item)).
Proof.
  set (p := header_path base item). set (h := header_text (snd item)).
  assert (forall u u' r0,
             open_write p h u = (u', r0) ->
             same_host u u' /\ stdout u' = stdout u /\ stderr u' = stderr u /\
             (forall k, k <> ident u p -> files u' k = files u k) /\
             (exists written_,
                 events u' = (events u ++ written_)%list /\
                 Forall (fun ev => ev = EvTruncate p \/ ev = EvWrite p h)
                        written_) /\
             (r0 = inr tt ->
              Py.contains Py.cr h = false ->
              exists stored,
                files u' (ident u p) = Some stored /\
                Py.universal_newlines stored = h)) as Hopen.
  { intros u u' r0 H.
    destruct (open_write_cases _ _ _ _ _ H)
      as [[-> [err ->]]|[[-> [err ->]]|[-> ->]]].
    - repeat split; auto; try discriminate.
      exists []. split; [now rewrite List.app_nil_r | constructor].
    - repeat split; auto; try discriminate.
      + intros k Hk. cbn. apply String.eqb_neq in Hk. now rewrite Hk.
      + exists [EvTruncate p]. split; [reflexivity|].
        constructor; [now left | constructor].
    - repeat split; auto.
      + intros k Hk. cbn. apply String.eqb_neq in Hk. now rewrite Hk.
      + exists [EvTruncate p; EvWrite p h]. split.
        * cbn. now rewrite <- List.app_assoc.
        * constructor; [now left|]. constructor; [now right | constructor].
      + intros _ Hcr. exists h. cbn. rewrite String.eqb_refl.
        split; [reflexivity | exact (universal_newlines_id _ Hcr)]. }
  rewrite write_header_unfold. fold p h.
  destruct (files w (ident w p)) as [stored|] eqn:Hf; [|apply Hopen].
  assert (forall e, (w, @inl exn unit e) = (w', r) ->
                    same_host w w' /\ stdout w' = stdout w /\
                    stderr w' = stderr w /\
                    (forall k, k <> ident w p -> files w' k = files w k) /\
                    (exists written_,
                        events w' = (events w ++ written_)%list /\
                        Forall (fun ev => ev = EvTruncate p \/ ev = EvWrite p h)
                               written_) /\
                    (r = inr tt ->
                     Py.contains Py.cr h = false ->
                     exists stored0,
                       files w' (ident w p) = Some stored0 /\
                       Py.universal_newlines stored0 = h)) as Hstop.
  { intros e H. injection H as <- <-.
    repeat split; auto; try discriminate.
    exists []. split; [now rewrite List.app_nil_r | constructor]. }
  destruct (refuses w (events w) (OpenRead p)); [apply Hstop|].
  destruct (refuses w (events w) (ReadText p)); [apply Hstop|].
  destruct (String.eqb_spec (Py.universal_newlines stored) h) as [Heq|_];
    [|apply Hopen].
  intros H. injection H as <- <-. repeat split; auto.
  - exists []. split; [now rewrite List.app_nil_r | constructor].
  - intros _ _. exists stored. auto.
Qed.

(** The loop never touches the standard streams, changes no file but those
    of its headers and does nothing but empty and fill them. *)
Lemma write_headers_post (items : list (string * list string))
      (w w' : World) (r : exn + unit) :
  write_headers base items w = (w', r) ->
  same_host w w' /\ stdout w' = stdout w /\ stderr w' = stderr w /\
  (forall k, ~ In k (map (fun item => ident w (header_path base item)) items) ->
             files w' k = files w k) /\
  exists written_,
    events w' = (events w ++ written_)%list /\
    Forall (fun ev => exists item,
                In item items /\
                (ev = EvTruncate (header_path base item) \/
                 ev = EvWrite (header_path base item)
                              (header_text (snd item))))
           written_.
Proof.
  unfold write_headers. revert w.
  induction items as [|item items IH]; intros w H.
  - injection H as <- <-. repeat split; auto.
    exists []. split; [now rewrite List.app_nil_r | constructor].
  - cbn [for_each] in H. unfold bind at 1 in H.
    destruct (write_header base item w) as [w1 [e|[]]] eqn:H1;
      destruct (write_header_post _ _ _ _ H1)
      as (Hh & Ho & He & Hf & (ev1 & Hev & Hall) & _).
    + injection H as <- <-. repeat split; try apply Hh; auto.
      * intros k Hk. apply Hf. intros E. apply Hk. left. now symmetry.
      * exists ev1. split; [exact Hev|].
        eapply Forall_impl; [|exact Hall]. intros ev Hev'.
        exists item. split; [now left | exact Hev'].
    + destruct (IH _ H) as (Hh' & Ho' & He' & Hf' & (ev2 & Hev2 & Hall2)).
      destruct Hh as [Hi Hr]. destruct Hh' as [Hi' Hr'].
      split; [split; congruence|]. split; [congruence|].
      split; [congruence|]. split.
      * intros k Hk. cbn [map In] in Hk. rewrite Hf'.
        -- apply Hf. intros E. apply Hk. left. now symmetry.
        -- rewrite Hi. intros Hin. apply Hk. now right.
      * exists (ev1 ++ ev2)%list. split.
        -- rewrite Hev2, Hev. now rewrite List.app_assoc.
        -- apply Forall_app. split.
           ++ eapply Forall_impl; [|exact Hall]. intros ev Hev'.
              exists item. split; [now left | exact Hev'].
           ++ eapply Forall_impl; [|exact Hall2]. intros ev (it & Hin & Hev').
              exists it. split; [now right | exact Hev'].
Qed.

(** When the headers are pairwise different files, each reads as its text
    once the loop has ended well. *)
Lemma write_headers_files (items : list (string * list string))
      (w w' : World) :
  NoDup (map (fun item => ident w (header_path base item)) items) ->
  (forall item, In item items ->
                Py.contains Py.cr (header_text (snd item)) = false) ->
  write_headers base items w = (w', inr tt) ->
  forall item,
    In item items ->
    exists stored,
      files w' (ident w (header_path base item)) = Some stored /\
      Py.universal_newlines stored = header_text (snd item).
Proof.
  unfold write_headers. revert w.
  induction items as [|item0 items IH]; intros w Hnd Hcr H item Hin;
    [contradiction|].
  cbn [map] in Hnd. inversion Hnd as [|? ? Hnot Hnd']; subst.
  cbn [for_each] in H. unfold bind at 1 in H.
  destruct (write_header base item0 w) as [w1 [e|[]]] eqn:H1; [discriminate|].
  destruct (write_header_post _ _ _ _ H1) as ([Hi Hr] & _ & _ & _ & _ & Hst).
  destruct Hin as [<-|Hin].
  - destruct (Hst eq_refl (Hcr _ (or_introl eq_refl))) as (stored & Hs & Hu).
    exists stored. split; [|exact Hu].
    destruct (write_headers_post items w1 w' (inr tt) H) as (_ & _ & _ & Hf & _).
    rewrite Hf; [exact Hs|]. rewrite Hi. exact Hnot.
  - rewrite <- Hi. apply (IH w1).
    + rewrite Hi. exact Hnd'.
    + intros it Hit. apply Hcr. now right.
    + exact H.
    + exact Hin.
Qed.

(** With every header in place already, the loop changes nothing, whatever
    the host answers. *)
Lemma write_headers_noop (items : list (string * list string))
      (w w' : World) (r : exn + unit) :
  (forall item, In item items ->
                exists stored,
                  files w (ident w (header_path base item)) = Some stored /\
                  Py.universal_newlines stored = header_text (snd item)) ->
  write_headers base items w = (w', r) -> w' = w.
Proof.
  unfold write_headers. induction items as [|item items IH]; intros Hall H.
  - now injection H as <-.
  - cbn [for_each] in H. unfold bind at 1 in H.
    destruct (Hall item (or_introl eq_refl)) as (stored & Hs & Hu).
    destruct (write_header base item w) as [w1 [e|[]]] eqn:H1;
      rewrite (write_header_in_place _ _ _ _ _ Hs Hu H1) in *.
    + now injection H as <-.
    + apply IH; [|exact H]. intros it Hit. apply Hall. now right.
Qed.

End Headers.

(** ** [main] *)

Section Main.

Variables (args : Args) (tree : Dir).

Lemma main_unfold (w : World) :
  main args tree w =
    match analyze_headers (include args) tree w with
    | (w1, inl e) => (w1, inl e)
    | (w1, inr syscalls) => write_outputs args (collect syscalls) w1
    end.
Proof.
  unfold main, bind at 1.
  destruct (analyze_headers (include args) tree w) as [w1 [e|syscalls]];
    reflexivity.
Qed.

(** Where the writes of a run may stop: at each call the host may refuse,
    or in the loop over the headers. *)
Lemma write_outputs_cases (c : Collected) (w w' : World) (r : exn + unit) :
  write_outputs args c w = (w', r) ->
  ((exists err, r = inl (HostError err)) /\
   (w' = w \/
    w' = truncated (syscall_dispatch args) w \/
    w' = written (syscall_dispatch args) (dispatch_text c) w \/
    w' = with_stdout (listing_text c)
                     (written (syscall_dispatch args) (dispatch_text c) w))) \/
  write_headers (base_output args) (invocations c) (before_headers args c w)
  = (w', r).
Proof.
  unfold write_outputs, bind at 1.
  destruct (open_write (syscall_dispatch args) (dispatch_text c) w)
    as [w1 [e|[]]] eqn:H1.
  - intros H. injection H as <- <-. left.
    destruct (open_write_cases _ _ _ _ _ H1)
      as [[-> Herr]|[[-> Herr]|[_ E]]]; [auto | auto | discriminate E].
  - rewrite (open_write_inr _ _ _ _ H1). unfold bind at 1.
    destruct (stdout_write (listing_text c) _) as [w2 [e|[]]] eqn:H2.
    + intros H. injection H as <- <-. left.
      destruct (stdout_write_cases _ _ _ _ H2) as [[-> Herr]|[_ E]];
        [auto 6 | discriminate E].
    + destruct (stdout_write_cases _ _ _ _ H2) as [[_ [err E]]|[-> _]];
        [discriminate E|].
      unfold bind at 1.
      destruct (makedirs (base_output args) _) as [w3 [e|[]]] eqn:H3.
      * intros H. injection H as <- <-. left.
        destruct (makedirs_cases _ _ _ _ H3) as [[-> Herr]|[_ E]];
          [auto 7 | discriminate E].
      * destruct (makedirs_cases _ _ _ _ H3) as [[_ [err E]]|[-> _]];
          [discriminate E|].
        intros H. right. exact H.
Qed.

Lemma write_outputs_returns (c : Collected) (w w' : World) :
  write_outputs args c w = (w', inr tt) ->
  write_headers (base_output args) (invocations c) (before_headers args c w)
  = (w', inr tt).
Proof.
  intros H. destruct (write_outputs_cases _ _ _ _ H) as [[[err E] _]|Hw];
    [discriminate E | exact Hw].
Qed.

(** A run that ends well: its records are those of the tree, and its last
    loop starts from the world with the dispatch table and the listing
    written. *)
Lemma main_returns (w w' : World) :
  main args tree w = (w', inr tt) ->
  let c := collect (tree_records (include args) tree) in
  analyze_headers (include args) tree w
  = (w, inr (tree_records (include args) tree)) /\
  write_headers (base_output args) (invocations c) (before_headers args c w)
  = (w', inr tt).
Proof.
  rewrite main_unfold.
  destruct (analyze_headers (include args) tree w) as [w1 [e|syscalls]] eqn:Ha;
    [discriminate|].
  destruct (analyze_headers_returns _ _ _ _ _ Ha) as [-> ->].
  intros H. split; [reflexivity | exact (write_outputs_returns _ _ _ H)].
Qed.

(** The two ends of a run: it stops while it collects the records, having
    written nothing, or it has the records of the tree and goes on to
    write. *)
Lemma main_cases (w w' : World) (r : exn + unit) :
  main args tree w = (w', r) ->
  (same_artifacts w w' /\ same_host w w' /\ exists e, r = inl e) \/
  write_outputs args (collect (tree_records (include args) tree)) w = (w', r).
Proof.
  rewrite main_unfold.
  destruct (analyze_headers (include args) tree w) as [w1 [e|syscalls]] eqn:Ha.
  - intros H. injection H as <- <-. left.
    split; [exact (analyze_headers_same_artifacts _ _ _ _ _ Ha)|].
    split; [exact (analyze_headers_same_host _ _ _ _ _ Ha) | eauto].
  - destruct (analyze_headers_returns _ _ _ _ _ Ha) as [-> ->]. auto.
Qed.

End Main.


(** ** What a run may touch *)

Section Outputs.

Variables (args : Args).

(** Whatever its end, the writing part of a run changes no file but the
    dispatch table and the invocation headers, and does nothing but write
    to them and make the output directory. *)
Lemma write_outputs_post (c : Collected) (w w' : World) (r : exn + unit) :
  write_outputs args c w = (w', r) ->
  same_host w w' /\ stderr w' = stderr w /\
  (forall k,
      k <> ident w (syscall_dispatch args) ->
      ~ In k (map (fun item => ident w (header_path (base_output args) item))
                  (invocations c)) ->
      files w' k = files w k) /\
  exists done,
    events w' = (events w ++ done)%list /\
    Forall (fun ev => dispatch_or_makedirs args c ev \/
                      header_write (base_output args) (invocations c) ev)
           done.
Proof.
  intros H.
  assert (forall k, k <> ident w (syscall_dispatch args) ->
                    files (truncated (syscall_dispatch args) w) k = files w k)
    as Ht.
  { intros k Hk. cbn. apply String.eqb_neq in Hk. now rewrite Hk. }
  assert (forall k, k <> ident w (syscall_dispatch args) ->
                    files (written (syscall_dispatch args) (dispatch_text c) w) k
                    = files w k) as Hwr.
  { intros k Hk. cbn. apply String.eqb_neq in Hk. now rewrite Hk. }
  destruct (write_outputs_cases _ _ _ _ _ H)
    as [[_ [-> | [-> | [-> | ->]]]] | Hw].
  - split; [apply same_host_refl|]. split; [reflexivity|].
    split; [reflexivity|].
    exists []. split; [now rewrite List.app_nil_r | constructor].
  - split; [split; reflexivity|]. split; [reflexivity|].
    split; [intros k Hk _; exact (Ht k Hk)|].
    exists [EvTruncate (syscall_dispatch args)]. split; [reflexivity|].
    constructor; [left; left; reflexivity | constructor].
  - split; [split; reflexivity|]. split; [reflexivity|].
    split; [intros k Hk _; exact (Hwr k Hk)|].
    exists [EvTruncate (syscall_dispatch args);
            EvWrite (syscall_dispatch args) (dispatch_text c)].
    split; [cbn; now rewrite <- List.app_assoc|].
    constructor; [left; left; reflexivity|].
    constructor; [left; right; left; reflexivity | constructor].
  - split; [split; reflexivity|]. split; [reflexivity|].
    split; [intros k Hk _; exact (Hwr k Hk)|].
    exists [EvTruncate (syscall_dispatch args);
            EvWrite (syscall_dispatch args) (dispatch_text c)].
    split; [cbn; now rewrite <- List.app_assoc|].
    constructor; [left; left; reflexivity|].
    constructor; [left; right; left; reflexivity | constructor].
  - destruct (write_headers_post _ _ _ _ _ Hw)
      as ([Hi Hr] & _ & He & Hf & (done & Hev & Hall)).
    split; [split; [exact Hi | exact Hr]|]. split; [exact He|]. split.
    + intros k Hk Hn. rewrite (Hf k Hn). exact (Hwr k Hk).
    + exists ([EvTruncate (syscall_dispatch args);
               EvWrite (syscall_dispatch args) (dispatch_text c);
               EvMakedirs (base_output args)] ++ done)%list.
      split.
      * rewrite Hev. cbn [before_headers written truncated with_event
                                         with_file with_stdout events].
        rewrite <- !List.app_assoc. reflexivity.
      * apply Forall_app. split.
        -- constructor; [left; left; reflexivity|].
           constructor; [left; right; left; reflexivity|].
           constructor; [left; right; right; reflexivity | constructor].
        -- eapply Forall_impl; [|exact Hall]. intros ev Hev'. right. exact Hev'.
Qed.

(** When it ends well, it has printed the listing and has written the
    dispatch table first, made the directory next and then written
    headers. *)
Lemma write_outputs_done (c : Collected) (w w' : World) :
  write_outputs args c w = (w', inr tt) ->
  stdout w' = stdout w ++ listing_text c /\
  exists headers,
    events w'
    = (events w
         ++ EvTruncate (syscall_dispatch args)
         :: EvWrite (syscall_dispatch args) (dispatch_text c)
         :: EvMakedirs (base_output args) :: headers)%list /\
    Forall (header_write (base_output args) (invocations c)) headers.
Proof.
  intros H. apply write_outputs_returns in H.
  destruct (write_headers_post _ _ _ _ _ H)
    as (_ & Ho & _ & _ & (done & Hev & Hall)).
  split; [exact Ho|]. exists done. split; [|exact Hall].
  rewrite Hev. cbn [before_headers written truncated with_event
                                   with_file with_stdout events].
  rewrite <- !List.app_assoc. reflexivity.
Qed.

Variable tree : Dir.

(** The same of a whole run. *)
Lemma main_post (w w' : World) (r : exn + unit) :
  main args tree w = (w', r) ->
  let syscalls := tree_records (include args) tree in
  let c := collect syscalls in
  same_host w w' /\
  (forall k,
      k <> ident w (syscall_dispatch args) ->
      ~ In k (header_files w (base_output args) syscalls) ->
      files w' k = files w k) /\
  exists done,
    events w' = (events w ++ done)%list /\
    Forall (fun ev => dispatch_or_makedirs args c ev \/
                      header_write (base_output args) (invocations c) ev)
           done.
Proof.
  intros H syscalls c.
  destruct (main_cases _ _ _ _ _ H) as [((Hf & _ & He) & Hh & _)|Hw].
  - split; [exact Hh|]. split; [intros k _ _; now rewrite Hf|].
    exists []. split; [now rewrite List.app_nil_r | constructor].
  - destruct (write_outputs_post _ _ _ _ Hw) as (Hh & _ & Hf & Hev).
    split; [exact Hh|]. split; [exact Hf | exact Hev].
Qed.

Lemma main_done (w w' : World) :
  main args tree w = (w', inr tt) ->
  let c := collect (tree_records (include args) tree) in
  stdout w' = stdout w ++ listing_text c /\
  stderr w' = stderr w /\
  exists headers,
    events w'
    = (events w
         ++ EvTruncate (syscall_dispatch args)
         :: EvWrite (syscall_dispatch args) (dispatch_text c)
         :: EvMakedirs (base_output args) :: headers)%list /\
    Forall (header_write (base_output args) (invocations c)) headers.
Proof.
  intros H c.
  destruct (main_cases _ _ _ _ _ H) as [(_ & _ & [e E])|Hw]; [discriminate E|].
  destruct (write_outputs_done _ _ _ Hw) as [Ho Hev].
  destruct (write_outputs_post _ _ _ _ Hw) as (_ & He & _).
  auto.
Qed.

(** After a run that ends well, with headers that are pairwise different
    files, every header reads as its text. *)
Lemma main_headers (w w' : World) :
  main args tree w = (w', inr tt) ->
  let syscalls := tree_records (include args) tree in
  NoDup (header_files w (base_output args) syscalls) ->
  forall item,
    In item (invocations (collect syscalls)) ->
    exists stored,
      files w' (ident w (header_path (base_output args) item)) = Some stored /\
      Py.universal_newlines stored = header_text (snd item).
Proof.
  intros H syscalls Hnd item Hin.
  destruct (main_returns _ _ _ _ H) as [_ Hw].
  apply (write_headers_files (base_output args)
                             (invocations (collect syscalls))
                             (before_headers args (collect syscalls) w) w').
  - exact Hnd.
  - intros it Hit. exact (run_headers_no_cr _ _ _ Hit).
  - exact Hw.
  - exact Hin.
Qed.

End Outputs.


(** ** What a failing run reports *)

Section Raised.

Context {A B : Type}.

(** A comprehension that raised did so in one of its elements, in the world
    it started from when the elements that return leave the world alone. *)
Lemma comprehension_raised (f : A -> M B) (l : list A) :
  (forall a w w' b, f a w = (w', inr b) -> w' = w) ->
  forall w w' e,
    comprehension f l w = (w', inl e) ->
    exists a, In a l /\ f a w = (w', inl e).
Proof.
  intros Hf. induction l as [|a l IH]; intros w w' e H; [discriminate|].
  cbn [comprehension] in H. unfold bind at 1 in H.
  destruct (f a w) as [w1 [e1|b]] eqn:Ha.
  - injection H as <- <-. exists a. split; [now left | exact Ha].
  - rewrite (Hf _ _ _ _ Ha) in *. unfold bind at 1 in H.
    destruct (comprehension f l w) as [w2 [e2|bs]] eqn:Hl; [|discriminate].
    injection H as <- <-. destruct (IH _ _ _ Hl) as (a0 & Hin & H0).
    exists a0. split; [now right | exact H0].
Qed.

Lemma for_each_raised (body : A -> B -> M B) (l : list A) :
  (forall a s w w' s', body a s w = (w', inr s') -> w' = w) ->
  forall s w w' e,
    for_each l body s w = (w', inl e) ->
    exists a s0, In a l /\ body a s0 w = (w', inl e).
Proof.
  intros Hb. induction l as [|a l IH]; intros s w w' e H; [discriminate|].
  cbn [for_each] in H. unfold bind at 1 in H.
  destruct (body a s w) as [w1 [e1|s1]] eqn:Ha.
  - injection H as <- <-. exists a, s. split; [now left | exact Ha].
  - rewrite (Hb _ _ _ _ _ Ha) in *.
    destruct (IH _ _ _ _ H) as (a0 & s0 & Hin & H0).
    exists a0, s0. split; [now right | exact H0].
Qed.

End Raised.

Section Diagnostics.

(** A scan that raised: the host refused the read, and one line names the
    file; or a declaration raised, and two lines name it and the file. *)
Lemma scan_file_raised path fn text w w' e :
  scan_file path fn text w = (w', inl e) ->
  (exists err,
      refuses w (events w) (ReadText path) = Some err /\
      e = HostError err /\
      w' = stderr_write ("While parsing " ++ fn ++ String Py.nl "") w) \/
  (exists variant func args,
      In (variant, func, args) (Re.finditer (Py.universal_newlines text)) /\
      analyze_pure (variant, func, args) fn = inl e /\
      w' = stderr_write ("While parsing " ++ fn ++ String Py.nl "")
             (stderr_write ("In declaration of " ++ func ++ String Py.nl "") w)).
Proof.
  unfold scan_file, reraising, bind, attempt.
  destruct (refuses w (events w) (ReadText path)) as [err|] eqn:Hr.
  - intros H. injection H as <- <-. left. exists err. auto.
  - destruct (comprehension _ _ w) as [w1 [e1|rs]] eqn:Hc; [|discriminate].
    intros H. injection H as <- <-. right.
    apply comprehension_raised in Hc.
    + destruct Hc as ([[variant func] args] & Hin & Ha).
      rewrite analyze_fn_unfold in Ha.
      destruct (analyze_pure (variant, func, args) fn) as [e0|r] eqn:Hp;
        [|discriminate].
      injection Ha as <- <-. exists variant, func, args. auto.
    + intros mo u u' r Hret. exact (proj1 (analyze_fn_returns _ _ _ _ _ Hret)).
Qed.

Lemma visit_file_raised root f s w w' e :
  visit_file root f s w = (w', inl e) ->
  skipped root (fst f) = false /\
  ((exists err,
       refuses w (events w) (OpenRead (Py.path_join root (fst f))) = Some err /\
       e = HostError err /\ w' = w) \/
   scan_file (Py.path_join root (fst f)) (fst f) (snd f) w = (w', inl e)).
Proof.
  destruct f as [fn text]. unfold visit_file. cbn [fst snd].
  destruct (skipped root fn); [discriminate|]. unfold bind at 1, attempt.
  destruct (refuses w (events w) (OpenRead (Py.path_join root fn)))
    as [err|] eqn:Hr.
  - intros H. injection H as <- <-. split; [reflexivity|]. left. eauto.
  - unfold bind.
    destruct (scan_file (Py.path_join root fn) fn text w) as [w1 [e1|rs]];
      [|discriminate].
    intros H. injection H as <- <-. auto.
Qed.

(** Record collection that raised did so at a scanned header: the host
    refused to open it, and nothing was reported; or refused the read, and
    one line names the header; or a declaration of it raised, and two lines
    name the declaration and the header. *)
Lemma analyze_headers_raised base_path tree w w' e :
  analyze_headers base_path tree w = (w', inl e) ->
  exists root dir_files fn text,
    In (root, dir_files) (walk base_path tree) /\
    In (fn, text) dir_files /\
    skipped root fn = false /\
    ((exists err,
         refuses w (events w) (OpenRead (Py.path_join root fn)) = Some err /\
         e = HostError err /\ w' = w) \/
     (exists err,
         refuses w (events w) (ReadText (Py.path_join root fn)) = Some err /\
         e = HostError err /\
         w' = stderr_write ("While parsing " ++ fn ++ String Py.nl "") w) \/
     (exists variant func args,
         In (variant, func, args) (Re.finditer (Py.universal_newlines text)) /\
         analyze_pure (variant, func, args) fn = inl e /\
         w' = stderr_write ("While parsing " ++ fn ++ String Py.nl "")
                (stderr_write ("In declaration of " ++ func ++ String Py.nl "")
                              w))).
Proof.
  unfold analyze_headers. intros H. apply for_each_raised in H.
  - destruct H as ([root dir_files] & s & Hd & H). unfold visit_dir in H.
    apply for_each_raised in H.
    + destruct H as ([fn text] & s0 & Hf & H).
      apply visit_file_raised in H. cbn [fst snd] in H.
      destruct H as [Hs [H|H]].
      * exists root, dir_files, fn, text. auto.
      * apply scan_file_raised in H.
        exists root, dir_files, fn, text. destruct H as [H|H]; auto 6.
    + intros f s0 u u' s1 Hr. exact (proj1 (visit_file_returns _ _ _ _ _ _ Hr)).
  - intros d s0 u u' s1 Hr. exact (proj1 (visit_dir_returns _ _ _ _ _ Hr)).
Qed.

Lemma analyze_pure_exn mo fn e :
  analyze_pure mo fn = inl e -> parse_error e.
Proof.
  destruct mo as [[variant func] args]. unfold analyze_pure, split_args.
  destruct (String.eqb args "void").
  - destruct (typename_split func) as [e1|[t n]] eqn:Hf; [|discriminate].
    intros H. injection H as <-. exact (typename_split_exn _ _ Hf).
  - destruct (split_pieces (Py.split "," args)) as [e1|parsed] eqn:Hs.
    + intros H. injection H as <-. clear -Hs. revert e1 Hs.
      induction (Py.split "," args) as [|a rest IH]; intros e Hs;
        [discriminate|].
      cbn [split_pieces] in Hs.
      destruct (typename_split (Py.strip a)) as [e1|tn] eqn:Ha.
      * injection Hs as <-. exact (typename_split_exn _ _ Ha).
      * destruct (split_pieces rest) as [e2|tns]; [|discriminate].
        injection Hs as <-. exact (IH _ eq_refl).
    + destruct (typename_split func) as [e1|[t n]] eqn:Hf; [|discriminate].
      intros H. injection H as <-. exact (typename_split_exn _ _ Hf).
Qed.

End Diagnostics.

(** ** A host that refuses nothing *)

Section Permissive.

Lemma permissive_same_host (w w' : World) :
  same_host w w' -> permissive w -> permissive w'.
Proof. intros [_ Hr] Hp done rq. rewrite Hr. apply Hp. Qed.

Lemma open_write_permissive (path content : string) (w : World) :
  permissive w -> open_write path content w = (written path content w, inr tt).
Proof.
  intros Hp. unfold open_write, bind, attempt. rewrite Hp.
  change (refuses (truncated path w)) with (refuses w). rewrite Hp.
  reflexivity.
Qed.

Lemma write_header_permissive (base : string) (item : string * list string)
      (w : World) :
  permissive w -> exists w', write_header base item w = (w', inr tt).
Proof.
  intros Hp. rewrite write_header_unfold, !Hp.
  destruct (files w (ident w (header_path base item))) as [stored|].
  - destruct (String.eqb _ _); [eauto|].
    rewrite open_write_permissive by exact Hp. eauto.
  - rewrite open_write_permissive by exact Hp. eauto.
Qed.

Lemma write_headers_permissive (base : string)
      (items : list (string * list string)) (w : World) :
  permissive w -> exists w', write_headers base items w = (w', inr tt).
Proof.
  unfold write_headers. revert w.
  induction items as [|item items IH]; intros w Hp; [eexists; reflexivity|].
  cbn [for_each]. unfold bind at 1.
  destruct (write_header_permissive base item w Hp) as [w1 H1].
  rewrite H1. apply IH.
  apply (permissive_same_host w); [|exact Hp].
  exact (proj1 (write_header_post _ _ _ _ _ H1)).
Qed.

Lemma write_outputs_permissive (args : Args) (c : Collected) (w : World) :
  permissive w -> exists w', write_outputs args c w = (w', inr tt).
Proof.
  intros Hp. unfold write_outputs, bind at 1.
  rewrite open_write_permissive by exact Hp.
  unfold bind at 1, stdout_write, bind at 1, attempt.
  change (refuses (written (syscall_dispatch args) (dispatch_text c) w))
    with (refuses w).
  rewrite Hp. unfold bind at 1, makedirs, bind at 1, attempt.
  change (refuses (with_stdout (listing_text c)
                     (written (syscall_dispatch args) (dispatch_text c) w)))
    with (refuses w).
  rewrite Hp. apply write_headers_permissive.
  intros done rq. apply Hp.
Qed.

(** On such a host a run whose declarations all analyse ends well. *)
Lemma run_succeeds_when_all_analyse (args : Args) (tree : Dir) (w : World) :
  permissive w ->
  (forall fn mo, scanned (include args) tree fn mo ->
                 exists r, analyze_pure mo fn = inr r) ->
  exists w', main args tree w = (w', inr tt).
Proof.
  intros Hp Hall. rewrite main_unfold.
  destruct (analyze_headers (include args) tree w) as [w1 [e|syscalls]] eqn:Ha.
  - apply analyze_headers_raised in Ha.
    destruct Ha as (root & dir_files & fn & text & Hd & Hf & Hs & H).
    destruct H as [(err & Hr & _)|[(err & Hr & _)|H]].
    + rewrite Hp in Hr. discriminate Hr.
    + rewrite Hp in Hr. discriminate Hr.
    + destruct H as (variant & func & arglist & Hin & Hpure & _).
      destruct (Hall fn (variant, func, arglist)) as [r Hr].
      * exists root, dir_files, text. auto.
      * rewrite Hr in Hpure. discriminate Hpure.
  - destruct (analyze_headers_returns _ _ _ _ _ Ha) as [-> _].
    apply write_outputs_permissive. exact Hp.
Qed.

(** In any host, a run that ends well had every declaration analyse. *)
Lemma run_succeeded_all_analyse (args : Args) (tree : Dir) (w w' : World) :
  main args tree w = (w', inr tt) ->
  forall fn mo, scanned (include args) tree fn mo ->
                exists r, analyze_pure mo fn = inr r.
Proof.
  intros Hm fn mo (root & dir_files & text & Hd & Hf & Hs & Hin).
  destruct (analyze_pure mo fn) as [e0|r] eqn:Hp; [|eauto].
  exfalso. destruct (main_returns _ _ _ _ Hm) as [Ha _].
  destruct (analyze_headers_raises (include args) tree root dir_files fn text
                                   mo e0 w Hd Hf Hs Hin) with (w := w)
    as [e He].
  - destruct mo as [[variant func] arglist].
    rewrite analyze_fn_unfold, Hp. reflexivity.
  - rewrite Ha in He. discriminate He.
Qed.

End Permissive.


(** ** The scenario of [foo.h] *)

(** C5: for a header [foo.h] holding [__syscall int bar(int a, void *b);]
    the declaration is the one match and analyses to a record; a run that
    ends well has collected this one record, with identifier
    [K_SYSCALL_BAR], handler [_handler_bar] and dispatch entry
    [[K_SYSCALL_BAR] = _handler_bar]; its invocation is the macro of two
    arguments, not void, not inline, applied to
    [K_SYSCALL_BAR, bar, int, int, a, void *, b]; and the invocation header
    of [foo.h] in the output directory then reads as the lines below, that
    invocation among them. *)
Theorem foo_h_scenario (dispatch outdir : string) (w w' : World) :
  main (mkArgs "include" dispatch outdir) foo_h w = (w', inr tt) ->
  Re.finditer "__syscall int bar(int a, void *b);"
  = [("syscall", "int bar", "int a, void *b")] /\
  (forall u,
      analyze_fn ("syscall", "int bar", "int a, void *b") "foo.h" u
      = (u, inr bar_record)) /\
  analyze_headers "include" foo_h w
  = (w, inr [mkSyscall
               "foo.h" "_handler_bar"
               "K_SYSCALL_DECLARE2(K_SYSCALL_BAR, bar, int, int, a, void *, b);"
               "K_SYSCALL_BAR" "[K_SYSCALL_BAR] = _handler_bar"]) /\
  sys_id bar_record = "K_SYSCALL_BAR" /\
  handler bar_record = "_handler_bar" /\
  table_entry bar_record = "[K_SYSCALL_BAR] = _handler_bar" /\
  invocation bar_record
  = "K_SYSCALL_DECLARE2"
      ++ "(" ++ Py.join ", " ["K_SYSCALL_BAR"; "bar"; "int"; "int"; "a"; "void *"; "b"]
      ++ ");" /\
  macro 2 false false = "K_SYSCALL_DECLARE2" /\
  exists stored,
    files w' (ident w (Py.path_join outdir "foo.h")) = Some stored /\
    Py.universal_newlines stored
    = "
/* auto-generated by gen_syscalls.py, don't edit */

#ifndef _ASMLANGUAGE

#include <syscall_list.h>
#include <syscall_macros.h>

#ifdef __cplusplus
extern "
      ++ String Py.dquote ""
      ++ "C"
      ++ String Py.dquote ""
      ++ " {
#endif

"
      ++ "K_SYSCALL_DECLARE2(K_SYSCALL_BAR, bar, int, int, a, void *, b);"
      ++ "

#ifdef __cplusplus
}
#endif

#endif
".
Proof.
  intros Hm. split; [reflexivity|]. split; [reflexivity|].
  split; [exact (proj1 (main_returns _ _ _ _ Hm))|].
  repeat (split; [reflexivity|]).
  destruct (main_headers _ _ _ _ Hm) with (item := ("foo.h", [bar_invocation]))
    as (stored & Hs & Hu).
  - change (NoDup [ident w (Py.path_join outdir "foo.h")]).
    constructor; [intros [] | constructor].
  - left. reflexivity.
  - exists stored. split; [exact Hs|]. rewrite Hu. reflexivity.
Qed.

Lemma foo_h_scenario_witness :
  exists stored,
    files (fst (main sample_args foo_h empty_world)) "out/foo.h" = Some stored /\
    Py.universal_newlines stored
    = "
/* auto-generated by gen_syscalls.py, don't edit */

#ifndef _ASMLANGUAGE

#include <syscall_list.h>
#include <syscall_macros.h>

#ifdef __cplusplus
extern "
      ++ String Py.dquote ""
      ++ "C"
      ++ String Py.dquote ""
      ++ " {
#endif

"
      ++ "K_SYSCALL_DECLARE2(K_SYSCALL_BAR, bar, int, int, a, void *, b);"
      ++ "

#ifdef __cplusplus
}
#endif

#endif
".
Proof.
  apply (foo_h_scenario "out/syscall_dispatch.c" "out" empty_world
                        (fst (main sample_args foo_h empty_world))).
  vm_compute. reflexivity.
Defined.

(** On a host where the output directory is missing the same run stops at
    the dispatch table, which is opened before the directory is made. *)
Example foo_h_without_out_dir :
  main sample_args foo_h no_out_dir
  = (no_out_dir, inl (HostError (FileNotFoundError "out/syscall_dispatch.c"))).
Proof. reflexivity. Qed.

Example baz_scenario (w : World) :
  tree_records "include"
               (mkDir [("baz.h", "__syscall_inline void baz(void);")] [])
  = [mkSyscall "baz.h" "_handler_baz"
               "K_SYSCALL_DECLARE0_VOID_INLINE(K_SYSCALL_BAZ, baz);"
               "K_SYSCALL_BAZ" "[K_SYSCALL_BAZ] = _handler_baz"].
Proof. reflexivity. Qed.

Example excluded_path_scenario (w : World) :
  analyze_headers "include"
                  (mkDir [] [("toolchain",
                              mkDir [("common.h", "__syscall int x(void);")] [])])
                  w
  = (w, inr []).
Proof. reflexivity. Qed.

(** ** The listing *)

(** C6: a run that ends well has added to the standard output the listing:
    the lines below around the enumeration and the extern declarations, one
    for the handler of each record; the enumeration holds the identifiers
    of all records in sorted order, then [K_SYSCALL_BAD] and
    [K_SYSCALL_LIMIT]; the sorted part is ordered by the order of strings
    and is a permutation of the identifiers of the records, so the
    identifiers listed are those of the records and the two sentinels and
    no other. *)
Theorem listing_sorted_then_sentinels (args : Args) (tree : Dir)
        (w w' : World) :
  main args tree w = (w', inr tt) ->
  let syscalls := tree_records (include args) tree in
  let c := collect syscalls in
  analyze_headers (include args) tree w = (w, inr syscalls) /\
  stdout w' = stdout w ++ listing_text c /\
  listing_text c
  = "
/* auto-generated by gen_syscalls.py, don't edit */
#ifndef _ZEPHYR_SYSCALL_LIST_H_
#define _ZEPHYR_SYSCALL_LIST_H_

#ifndef _ASMLANGUAGE

#ifdef __cplusplus
extern "
    ++ String Py.dquote ""
    ++ "C"
    ++ String Py.dquote ""
    ++ " {
#endif

enum {
"
    ++ String Py.tab ""
    ++ Py.join ("," ++ String Py.nl (String Py.tab "")) (listing_ids c)
    ++ "
};

"
    ++ Py.join "" (map (fun r => "
extern u32_t "
                          ++ handler r
                          ++ "(u32_t arg1, u32_t arg2, u32_t arg3,
                u32_t arg4, u32_t arg5, u32_t arg6, void *ssf);
") syscalls)
    ++ "

#ifdef __cplusplus
}
#endif

#endif /* _ASMLANGUAGE */

#endif /* _ZEPHYR_SYSCALL_LIST_H_ */
" /\
  exists sorted,
    listing_ids c = (sorted ++ ["K_SYSCALL_BAD"; "K_SYSCALL_LIMIT"])%list /\
    Sorted (fun a b => String.leb a b = true) sorted /\
    Permutation (map sys_id syscalls) sorted /\
    forall id,
      In id (listing_ids c) <->
      In id (map sys_id syscalls) \/ id = "K_SYSCALL_BAD"
      \/ id = "K_SYSCALL_LIMIT".
Proof.
  intros Hm syscalls c.
  split; [exact (proj1 (main_returns _ _ _ _ Hm))|].
  split; [exact (proj1 (main_done _ _ _ _ Hm))|]. split.
  - unfold listing_text. subst c. rewrite collect_handlers, map_map.
    reflexivity.
  - exists (StringSort.sort (map sys_id syscalls)).
    unfold listing_ids. subst c. rewrite collect_ids.
    split; [reflexivity|]. split; [apply StringSort.Sorted_sort|].
    split; [apply StringSort.Permuted_sort|].
    intros id. rewrite in_app_iff. cbn [In].
    pose proof (StringSort.Permuted_sort (map sys_id syscalls)) as Hp.
    split.
    + intros [H|[H|[H|[]]]]; auto.
      left. exact (Permutation_in _ (Permutation_sym Hp) H).
    + intros [H|[H|H]]; auto. left. exact (Permutation_in _ Hp H).
Qed.

Lemma listing_sorted_then_sentinels_witness :
  let syscalls := tree_records "include" two_dirs in
  let c := collect syscalls in
  stdout (fst (main sample_args two_dirs empty_world))
  = stdout empty_world ++ listing_text c /\
  listing_ids c
  = ["K_SYSCALL_FLUSH"; "K_SYSCALL_POLL"; "K_SYSCALL_TTL";
     "K_SYSCALL_BAD"; "K_SYSCALL_LIMIT"].
Proof.
  destruct (listing_sorted_then_sentinels
              sample_args two_dirs empty_world
              (fst (main sample_args two_dirs empty_world)))
    as (_ & H & _); [vm_compute; reflexivity|].
  split; [exact H | vm_compute; reflexivity].
Defined.

(** The listing of a tree with one declaration, character by character. *)
Example listing_of_foo_h :
  stdout (fst (main sample_args foo_h empty_world))
  = text ["";
          "/* auto-generated by gen_syscalls.py, don't edit */";
          "#ifndef _ZEPHYR_SYSCALL_LIST_H_";
          "#define _ZEPHYR_SYSCALL_LIST_H_";
          "";
          "#ifndef _ASMLANGUAGE";
          "";
          "#ifdef __cplusplus";
          "extern " ++ String Py.dquote "C" ++ String Py.dquote " {";
          "#endif";
          "";
          "enum {";
          String Py.tab "K_SYSCALL_BAR,";
          String Py.tab "K_SYSCALL_BAD,";
          String Py.tab "K_SYSCALL_LIMIT";
          "};";
          "";
          "";
          "extern u32_t _handler_bar(u32_t arg1, u32_t arg2, u32_t arg3,";
          "                u32_t arg4, u32_t arg5, u32_t arg6, void *ssf);";
          "";
          "";
          "#ifdef __cplusplus";
          "}";
          "#endif";
          "";
          "#endif /* _ASMLANGUAGE */";
          "";
          "#endif /* _ZEPHYR_SYSCALL_LIST_H_ */"].
Proof. vm_compute. reflexivity. Qed.

(** ** The dispatch table *)

(** C7, as amended: the first thing a run that ends well does is to empty
    the file at [args.syscall_dispatch] and to write the dispatch table to
    it: the lines below around one weak declaration per record, in the
    order of the records, and around the dispatch entries of all records in
    their order followed by the entry of [K_SYSCALL_BAD]. The handlers
    declared are those of the records, one for each record: each handler is
    declared once if and only if no two records share a handler. *)
Theorem dispatch_table_per_record (args : Args) (tree : Dir) (w w' : World) :
  main args tree w = (w', inr tt) ->
  let syscalls := tree_records (include args) tree in
  let c := collect syscalls in
  analyze_headers (include args) tree w = (w, inr syscalls) /\
  (exists later,
      events w'
      = (events w
           ++ EvTruncate (syscall_dispatch args)
           :: EvWrite (syscall_dispatch args) (dispatch_text c)
           :: later)%list) /\
  dispatch_text c
  = "/* auto-generated by gen_syscalls.py, don't edit */

/* Weak handler functions that get replaced by the real ones unles a system
 * call is not implemented due to kernel configuration
 */
"
    ++ Py.join "" (map (fun r => "
__weak ALIAS_OF(_handler_no_syscall)
u32_t "
                          ++ handler r
                          ++ "(u32_t arg1, u32_t arg2, u32_t arg3,
         u32_t arg4, u32_t arg5, u32_t arg6, void *ssf);
") syscalls)
    ++ "

const _k_syscall_handler_t _k_syscall_table[K_SYSCALL_LIMIT] = {
"
    ++ String Py.tab ""
    ++ Py.join ("," ++ String Py.nl (String Py.tab "")) (map table_entry syscalls ++ ["[K_SYSCALL_BAD] = _handler_bad_syscall"])%list
    ++ "
};
" /\
  handlers c = map handler syscalls /\
  ((forall name, In name (handlers c) ->
                 count_occ string_dec (handlers c) name = 1)
   <-> NoDup (map handler syscalls)).
Proof.
  intros Hm syscalls c.
  split; [exact (proj1 (main_returns _ _ _ _ Hm))|]. split; [|split; [|split]].
  - destruct (main_done _ _ _ _ Hm) as (_ & _ & (headers & He & _)).
    exists (EvMakedirs (base_output args) :: headers). exact He.
  - unfold dispatch_text. subst c.
    rewrite collect_handlers, collect_table_entries, map_map. reflexivity.
  - subst c. apply collect_handlers.
  - subst c. rewrite collect_handlers. symmetry.
    apply (NoDup_count_occ' string_dec).
Qed.

Lemma dispatch_table_per_record_witness :
  let syscalls := tree_records "include" two_dirs in
  (exists later,
      events (fst (main sample_args two_dirs empty_world))
      = (events empty_world
           ++ EvTruncate "out/syscall_dispatch.c"
           :: EvWrite "out/syscall_dispatch.c" (dispatch_text (collect syscalls))
           :: later)%list) /\
  handlers (collect syscalls)
  = ["_handler_poll"; "_handler_flush"; "_handler_ttl"].
Proof.
  pose proof (dispatch_table_per_record sample_args two_dirs empty_world
                (fst (main sample_args two_dirs empty_world))) as H.
  destruct H as (_ & H1 & _); [vm_compute; reflexivity|].
  split; [exact H1 | vm_compute; reflexivity].
Defined.

(** C7, as stated, fails when a function is declared in two headers: its
    handler is one symbol, and the dispatch table declares it twice. *)
Lemma weak_declared_twice :
  let c := collect (tree_records "include" declared_twice) in
  nodup string_dec (handlers c) = ["_handler_ping"] /\
  count_occ string_dec (handlers c) "_handler_ping" = 2 /\
  snd (main sample_args declared_twice empty_world) = inr tt /\
  events (fst (main sample_args declared_twice empty_world))
  = [EvTruncate "out/syscall_dispatch.c";
     EvWrite "out/syscall_dispatch.c"
       ("/* auto-generated by gen_syscalls.py, don't edit */

/* Weak handler functions that get replaced by the real ones unles a system
 * call is not implemented due to kernel configuration
 */
"
        ++ ("
__weak ALIAS_OF(_handler_no_syscall)
u32_t "
 ++ "_handler_ping"
 ++ "(u32_t arg1, u32_t arg2, u32_t arg3,
         u32_t arg4, u32_t arg5, u32_t arg6, void *ssf);
") ++ ("
__weak ALIAS_OF(_handler_no_syscall)
u32_t "
       ++ "_handler_ping"
       ++ "(u32_t arg1, u32_t arg2, u32_t arg3,
         u32_t arg4, u32_t arg5, u32_t arg6, void *ssf);
")
        ++ "

const _k_syscall_handler_t _k_syscall_table[K_SYSCALL_LIMIT] = {
"
        ++ String Py.tab ""
        ++ "[K_SYSCALL_PING] = _handler_ping," ++ String Py.nl (String Py.tab ("[K_SYSCALL_PING] = _handler_ping," ++ String Py.nl (String Py.tab "[K_SYSCALL_BAD] = _handler_bad_syscall")))
        ++ "
};
");
     EvMakedirs "out";
     EvTruncate "out/a.h";
     EvWrite "out/a.h" (header_text ["K_SYSCALL_DECLARE0_VOID(K_SYSCALL_PING, ping);"]);
     EvTruncate "out/b.h";
     EvWrite "out/b.h" (header_text ["K_SYSCALL_DECLARE0_VOID(K_SYSCALL_PING, ping);"])].
Proof. vm_compute. repeat split. Qed.

(** ** A run that fails *)

(** C8: when a declaration of a scanned header, in its text as read, raises
    in [analyze_fn], the run ends with an exception and has written
    nothing: the files, the standard output and the log of writes and
    created directories are those from before the run (what changed is
    [sys.stderr] alone). *)
Theorem failed_collection_writes_nothing (args : Args) (tree : Dir)
        (root : string) (dir_files : list (string * string))
        (fn text : string) (mo : string * string * string)
        (e0 : exn) (w0 w : World) :
  In (root, dir_files) (walk (include args) tree) ->
  In (fn, text) dir_files ->
  skipped root fn = false ->
  In mo (Re.finditer (Py.universal_newlines text)) ->
  snd (analyze_fn mo fn w0) = inl e0 ->
  exists e,
    snd (main args tree w) = inl e /\
    files (fst (main args tree w)) = files w /\
    stdout (fst (main args tree w)) = stdout w /\
    events (fst (main args tree w)) = events w.
Proof.
  intros Hd Hf Hs Hmo He0.
  destruct (analyze_headers_raises _ _ _ _ _ _ _ _ _ Hd Hf Hs Hmo He0 w)
    as [e He].
  rewrite main_unfold.
  destruct (analyze_headers (include args) tree w) as [w1 [e1|syscalls]] eqn:Ha;
    simpl in He; [|discriminate].
  exists e1. split; [reflexivity|].
  exact (analyze_headers_same_artifacts _ _ _ _ _ Ha).
Qed.

Lemma failed_collection_writes_nothing_witness :
  exists e,
    snd (main sample_args with_array empty_world) = inl e /\
    files (fst (main sample_args with_array empty_world)) = files empty_world /\
    stdout (fst (main sample_args with_array empty_world)) = stdout empty_world /\
    events (fst (main sample_args with_array empty_world)) = events empty_world.
Proof.
  apply (failed_collection_writes_nothing
           sample_args with_array "include"
           [("ok.h", "__syscall void ping(void);");
            ("bad.h", "__syscall int fill(int buf[4]);")]
           "bad.h" "__syscall int fill(int buf[4]);"
           ("syscall", "int fill", "int buf[4]")
           (SyscallParseException (msg_array "int buf[4]"))
           empty_world empty_world).
  - left. reflexivity.
  - right. left. reflexivity.
  - reflexivity.
  - left. reflexivity.
  - reflexivity.
Defined.


(** A header with a carriage return before the parenthesis: read in text
    mode it has a newline there, and the declaration analyses; the same
    characters unread would not. *)
Example carriage_return_read_as_newline :
  let stored := "__syscall int bar" ++ String Py.cr "(void);" in
  tree_records "include" (mkDir [("foo.h", stored)] [])
  = [mkSyscall "foo.h" "_handler_bar"
               "K_SYSCALL_DECLARE0(K_SYSCALL_BAR, bar, int);"
               "K_SYSCALL_BAR" "[K_SYSCALL_BAR] = _handler_bar"] /\
  Re.finditer stored = [("syscall", "int bar" ++ String Py.cr "", "void")] /\
  analyze_pure ("syscall", "int bar" ++ String Py.cr "", "void") "foo.h"
  = inl (SyscallParseException msg_malformed).
Proof. vm_compute. repeat split. Qed.


(** ** A second run *)

Section SecondRun.

Lemma files_written (path content : string) (w : World) (k : string) :
  files (written path content w) k
  = if String.eqb k (ident w path) then Some content else files w k.
Proof. cbn. destruct (String.eqb k (ident w path)); reflexivity. Qed.

Lemma files_before_headers (args : Args) (c : Collected) (w : World)
      (k : string) :
  files (before_headers args c w) k
  = if String.eqb k (ident w (syscall_dispatch args))
    then Some (dispatch_text c) else files w k.
Proof. apply files_written. Qed.

End SecondRun.

(** C9, as amended: a header whose file is there and reads, line ends
    translated, as the very text is not written; when there is no file, or
    the file reads as another text, the header is written. And when the
    invocation headers of a tree are pairwise different files, none of them
    the file of the dispatch table, a second run on the same tree, from the
    world a first run that ended well has left, writes to no invocation
    header and leaves every header file as it is, however it ends; when it
    ends well it has written the same dispatch table and the same listing
    as the first, has made the directory, and has left every file with the
    text it had. *)
Theorem second_run_writes_no_header (args : Args) (tree : Dir) :
  let syscalls := tree_records (include args) tree in
  let c := collect syscalls in
  (forall item w stored,
      files w (ident w (header_path (base_output args) item)) = Some stored ->
      Py.universal_newlines stored = header_text (snd item) ->
      (forall w' r, write_header (base_output args) item w = (w', r) -> w' = w) /\
      (refuses w (events w) (OpenRead (header_path (base_output args) item))
       = None ->
       refuses w (events w) (ReadText (header_path (base_output args) item))
       = None ->
       write_header (base_output args) item w = (w, inr tt))) /\
  (forall item w,
      files w (ident w (header_path (base_output args) item)) = None \/
      (exists stored,
          files w (ident w (header_path (base_output args) item)) = Some stored /\
          refuses w (events w) (OpenRead (header_path (base_output args) item))
          = None /\
          refuses w (events w) (ReadText (header_path (base_output args) item))
          = None /\
          Py.universal_newlines stored <> header_text (snd item)) ->
      write_header (base_output args) item w
      = open_write (header_path (base_output args) item)
                   (header_text (snd item)) w) /\
  (forall w w1 w2 r,
      NoDup (header_files w (base_output args) syscalls) ->
      ~ In (ident w (syscall_dispatch args))
           (header_files w (base_output args) syscalls) ->
      main args tree w = (w1, inr tt) ->
      main args tree w1 = (w2, r) ->
      (exists done,
          events w2 = (events w1 ++ done)%list /\
          Forall (dispatch_or_makedirs args c) done) /\
      (forall k, In k (header_files w (base_output args) syscalls) ->
                 files w2 k = files w1 k) /\
      (r = inr tt ->
       events w2
       = (events w1 ++ [EvTruncate (syscall_dispatch args);
                        EvWrite (syscall_dispatch args) (dispatch_text c);
                        EvMakedirs (base_output args)])%list /\
       stdout w2 = stdout w1 ++ listing_text c /\
       forall k, files w2 k = files w1 k) /\
      stdout w1 = stdout w ++ listing_text c /\
      exists later,
        events w1
        = (events w
             ++ EvTruncate (syscall_dispatch args)
             :: EvWrite (syscall_dispatch args) (dispatch_text c)
             :: later)%list).
Proof.
  intros syscalls c. split; [|split].
  - intros item w stored Hs Hu. split.
    + intros w' r. exact (write_header_in_place _ _ _ _ _ _ Hs Hu).
    + intros H1 H2. exact (write_header_identical _ _ _ _ Hs H1 H2 Hu).
  - intros item w. apply write_header_otherwise.
  - intros w w1 w2 r Hnd Hclash Hm1 Hm2.
    destruct (main_post _ _ _ _ _ Hm1) as ([Hi _] & _ & _).
    destruct (main_done _ _ _ _ Hm1) as (Ho1 & _ & (headers & He1 & _)).
    pose proof (main_headers _ _ _ _ Hm1 Hnd) as Hread.
    destruct (main_returns _ _ _ _ Hm1) as [_ Hw1].
    fold syscalls in Hw1, Hread. fold c in Hw1, Hread, Ho1, He1.
    assert (files w1 (ident w (syscall_dispatch args))
            = Some (dispatch_text c)) as Hd.
    { destruct (write_headers_post _ _ _ _ _ Hw1) as (_ & _ & _ & Hf & _).
      rewrite (Hf _ Hclash), files_before_headers, String.eqb_refl.
      reflexivity. }
    assert (forall k, In k (header_files w (base_output args) syscalls) ->
                      String.eqb k (ident w1 (syscall_dispatch args)) = false)
      as Hne.
    { intros k Hk. apply String.eqb_neq. rewrite Hi. intros ->.
      exact (Hclash Hk). }
    assert (forall u r0,
               write_headers (base_output args) (invocations c)
                             (before_headers args c w1) = (u, r0) ->
               u = before_headers args c w1) as Hnoop.
    { intros u r0. apply write_headers_noop. intros item Hitem.
      change (ident (before_headers args c w1)) with (ident w1).
      rewrite Hi, files_before_headers.
      rewrite (Hne _ (in_map (fun it => ident w (header_path (base_output args) it))
                             _ _ Hitem)).
      exact (Hread item Hitem). }
    assert (Forall (dispatch_or_makedirs args c)
                   [EvTruncate (syscall_dispatch args)]) as F1.
    { constructor; [left; reflexivity | constructor]. }
    assert (Forall (dispatch_or_makedirs args c)
                   [EvTruncate (syscall_dispatch args);
                    EvWrite (syscall_dispatch args) (dispatch_text c)]) as F2.
    { constructor; [left; reflexivity|].
      constructor; [right; left; reflexivity | constructor]. }
    assert (Forall (dispatch_or_makedirs args c)
                   [EvTruncate (syscall_dispatch args);
                    EvWrite (syscall_dispatch args) (dispatch_text c);
                    EvMakedirs (base_output args)]) as F3.
    { constructor; [left; reflexivity|].
      constructor; [right; left; reflexivity|].
      constructor; [right; right; reflexivity | constructor]. }
    split; [|split; [|split; [|split]]]; [| | |exact Ho1|].
    4: { exists (EvMakedirs (base_output args) :: headers). exact He1. }
    + (* what the second run does *)
      destruct (main_cases _ _ _ _ _ Hm2) as [((_ & _ & He) & _)|Hw2].
      { exists []. split; [now rewrite He, List.app_nil_r | constructor]. }
      destruct (write_outputs_cases _ _ _ _ _ Hw2)
        as [[_ [-> | [-> | [-> | ->]]]] | Hl].
      * exists []. split; [now rewrite List.app_nil_r | constructor].
      * exists [EvTruncate (syscall_dispatch args)].
        split; [reflexivity | exact F1].
      * eexists. split; [|exact F2]. cbn. now rewrite <- List.app_assoc.
      * eexists. split; [|exact F2]. cbn. now rewrite <- List.app_assoc.
      * fold syscalls in Hl. fold c in Hl.
        rewrite (Hnoop _ _ Hl).
        eexists. split; [|exact F3]. cbn. now rewrite <- !List.app_assoc.
    + (* the header files *)
      intros k Hk. pose proof (Hne k Hk) as Hkd.
      destruct (main_cases _ _ _ _ _ Hm2) as [((Hf & _) & _)|Hw2];
        [now rewrite Hf|].
      destruct (write_outputs_cases _ _ _ _ _ Hw2)
        as [[_ [-> | [-> | [-> | ->]]]] | Hl].
      * reflexivity.
      * cbn. now rewrite Hkd.
      * now rewrite files_written, Hkd.
      * change (files (written (syscall_dispatch args) (dispatch_text c) w1) k
                = files w1 k). now rewrite files_written, Hkd.
      * fold syscalls in Hl. fold c in Hl.
        rewrite (Hnoop _ _ Hl).
        now rewrite files_before_headers, Hkd.
    + (* a second run that ends well *)
      intros ->.
      destruct (main_returns _ _ _ _ Hm2) as [_ Hl].
      fold syscalls in Hl. fold c in Hl.
      rewrite (Hnoop _ _ Hl).
      split; [cbn; now rewrite <- !List.app_assoc|].
      split; [reflexivity|].
      intros k. rewrite files_before_headers, Hi.
      destruct (String.eqb_spec k (ident w (syscall_dispatch args))) as [->|_];
        [now rewrite Hd | reflexivity].
Qed.

Lemma second_run_writes_no_header_witness :
  let w1 := fst (main sample_args two_dirs empty_world) in
  let w2 := fst (main sample_args two_dirs w1) in
  let c := collect (tree_records "include" two_dirs) in
  let ip_h := ("ip.h", ["K_SYSCALL_DECLARE0_INLINE(K_SYSCALL_TTL, ttl, int);"]) in
  write_header "out" ip_h w1 = (w1, inr tt) /\
  write_header "out" ip_h empty_world
  = open_write "out/ip.h" (header_text (snd ip_h)) empty_world /\
  events w2
  = (events w1 ++ [EvTruncate "out/syscall_dispatch.c";
                   EvWrite "out/syscall_dispatch.c" (dispatch_text c);
                   EvMakedirs "out"])%list /\
  forall k, files w2 k = files w1 k.
Proof.
  intros w1 w2 c ip_h.
  pose proof (second_run_writes_no_header sample_args two_dirs) as [H1 [H2 H3]].
  split; [|split].
  - apply (H1 ip_h w1 (header_text (snd ip_h)));
      vm_compute; reflexivity.
  - apply (H2 ip_h empty_world). left. vm_compute. reflexivity.
  - destruct (H3 empty_world w1 w2 (inr tt)) as (_ & _ & H & _).
    + vm_compute. repeat constructor; cbn; intuition discriminate.
    + vm_compute. intuition discriminate.
    + vm_compute. reflexivity.
    + vm_compute. reflexivity.
    + destruct (H eq_refl) as (He & _ & Hf). split; [exact He | exact Hf].
Defined.

(** C9, as stated, fails when the dispatch table is asked for at the path of
    an invocation header: each run writes the table there and then the
    header over it, the second run as the first. *)
Lemma second_run_rewrites_clashing_header :
  let w1 := fst (main clashing_args foo_h empty_world) in
  let w2 := fst (main clashing_args foo_h w1) in
  Py.path_join "out" "foo.h" = syscall_dispatch clashing_args /\
  snd (main clashing_args foo_h empty_world) = inr tt /\
  snd (main clashing_args foo_h w1) = inr tt /\
  events w2
  = (events w1
       ++ [EvTruncate "out/foo.h";
           EvWrite "out/foo.h"
                   (dispatch_text (collect (tree_records "include" foo_h)));
           EvMakedirs "out";
           EvTruncate "out/foo.h";
           EvWrite "out/foo.h" (header_text [bar_invocation])])%list.
Proof. vm_compute. repeat split. Qed.

(** The same happens when the two paths differ and name one file. *)
Example second_run_rewrites_aliased_header :
  let w1 := fst (main aliasing_args foo_h dot_slash_world) in
  let w2 := fst (main aliasing_args foo_h w1) in
  snd (main aliasing_args foo_h dot_slash_world) = inr tt /\
  snd (main aliasing_args foo_h w1) = inr tt /\
  events w2
  = (events w1
       ++ [EvTruncate "./out/foo.h";
           EvWrite "./out/foo.h"
                   (dispatch_text (collect (tree_records "include" foo_h)));
           EvMakedirs "out";
           EvTruncate "out/foo.h";
           EvWrite "out/foo.h" (header_text [bar_invocation])])%list.
Proof. vm_compute. repeat split. Qed.

(** A header whose file holds the text with other line ends is another
    sequence of bytes, and is left alone all the same. *)
Example crlf_copy_left_alone :
  let w := with_file "out/foo.h" (to_crlf (header_text [bar_invocation]))
                     empty_world in
  files w "out/foo.h" <> Some (header_text [bar_invocation]) /\
  write_header "out" ("foo.h", [bar_invocation]) w = (w, inr tt).
Proof.
  split; [vm_compute; discriminate|].
  apply (write_header_identical "out" ("foo.h", [bar_invocation]) _
                                (to_crlf (header_text [bar_invocation])));
    vm_compute; reflexivity.
Qed.

(** ** Headers of the same name *)




(** ** How a run can fail *)

Section Failures.

Lemma write_header_raises (base : string) (item : string * list string)
      (w w' : World) (e : exn) :
  write_header base item w = (w', inl e) -> exists err, e = HostError err.
Proof.
  assert (forall u u' e0,
             open_write (header_path base item) (header_text (snd item)) u
             = (u', inl e0) -> exists err, e0 = HostError err) as Hopen.
  { intros u u' e0 H.
    destruct (open_write_cases _ _ _ _ _ H)
      as [[_ [err E]]|[[_ [err E]]|[_ E]]]; [| |discriminate E];
      injection E as ->; eauto. }
  rewrite write_header_unfold.
  destruct (files w (ident w (header_path base item))); [|apply Hopen].
  destruct (refuses w (events w) (OpenRead (header_path base item)));
    [intros H; injection H as _ <-; eauto|].
  destruct (refuses w (events w) (ReadText (header_path base item)));
    [intros H; injection H as _ <-; eauto|].
  destruct (String.eqb _ _); [discriminate | apply Hopen].
Qed.

Lemma write_headers_raises (base : string)
      (items : list (string * list string)) (w w' : World) (e : exn) :
  write_headers base items w = (w', inl e) -> exists err, e = HostError err.
Proof.
  unfold write_headers. revert w.
  induction items as [|item items IH]; intros w H; [discriminate|].
  cbn [for_each] in H. unfold bind at 1 in H.
  destruct (write_header base item w) as [w1 [e1|[]]] eqn:H1.
  - injection H as _ <-. exact (write_header_raises _ _ _ _ _ H1).
  - exact (IH _ H).
Qed.

(** The writing part of a run raises nothing of its own: it fails when the
    host refuses, and then reports nothing. *)
Lemma write_outputs_raises (args : Args) (c : Collected) (w w' : World)
      (e : exn) :
  write_outputs args c w = (w', inl e) ->
  (exists err, e = HostError err) /\ stderr w' = stderr w.
Proof.
  intros H. split; [|exact (proj1 (proj2 (write_outputs_post _ _ _ _ _ H)))].
  destruct (write_outputs_cases _ _ _ _ _ H) as [[[err E] _]|Hl].
  - injection E as ->. eauto.
  - exact (write_headers_raises _ _ _ _ _ Hl).
Qed.

Lemma parse_error_not_host (e : exn) (err : os_error) :
  parse_error e -> e <> HostError err.
Proof. intros [[item ->] | [-> | ->]]; discriminate. Qed.

End Failures.

(** X9: a run that ends with the exception of the parser was stopped by a
    declaration of a scanned header: the exception is the one that
    declaration raises, with one of the three messages of the splitter, and
    the run has added to the standard error exactly two lines, the first
    naming the return-and-name text of the declaration, the second the
    header. A run that ends with an error of the host has added nothing, or
    the host refused the read of a scanned header and the run has added the
    one line that names the header. *)
Theorem failure_names_declaration_and_file (args : Args) (tree : Dir)
        (w w' : World) (e : exn) :
  main args tree w = (w', inl e) ->
  (forall msg,
      e = SyscallParseException msg ->
      parse_error e /\
      exists fn variant func arglist,
        scanned (include args) tree fn (variant, func, arglist) /\
        analyze_pure (variant, func, arglist) fn = inl e /\
        stderr w' = stderr w ++ diagnostics func fn) /\
  (forall err,
      e = HostError err ->
      stderr w' = stderr w \/
      exists root dir_files fn text,
        In (root, dir_files) (walk (include args) tree) /\
        In (fn, text) dir_files /\
        skipped root fn = false /\
        refuses w (events w) (ReadText (Py.path_join root fn)) = Some err /\
        stderr w' = stderr w ++ ("While parsing " ++ fn ++ String Py.nl "")).
Proof.
  rewrite main_unfold.
  destruct (analyze_headers (include args) tree w) as [w1 [e1|syscalls]] eqn:Ha.
  - intros H. injection H as <- <-. apply analyze_headers_raised in Ha.
    destruct Ha as (root & dir_files & fn & text & Hd & Hf & Hs & H).
    destruct H as [(err & Hr & -> & ->)|[(err & Hr & -> & ->)|H]].
    + split; [discriminate|]. intros err0 _. left. reflexivity.
    + split; [discriminate|]. intros err0 E. injection E as <-. right.
      exists root, dir_files, fn, text. auto 6.
    + destruct H as (variant & func & arglist & Hin & Hp & ->).
      pose proof (analyze_pure_exn _ _ _ Hp) as Hpe. split.
      * intros msg _. split; [exact Hpe|].
        exists fn, variant, func, arglist.
        split; [exists root, dir_files, text; auto|].
        split; [exact Hp|]. cbn [stderr_write stderr]. unfold diagnostics.
        apply append_assoc.
      * intros err E. destruct (parse_error_not_host _ err Hpe E).
  - destruct (analyze_headers_returns _ _ _ _ _ Ha) as [-> _].
    intros H. destruct (write_outputs_raises _ _ _ _ _ H) as [[err ->] He].
    split; [discriminate|]. intros err0 _. left. exact He.
Qed.

Lemma failure_names_declaration_and_file_witness :
  exists fn variant func arglist,
    scanned "include" with_array fn (variant, func, arglist) /\
    analyze_pure (variant, func, arglist) fn
    = inl (SyscallParseException (msg_array "int buf[4]")) /\
    stderr (fst (main sample_args with_array empty_world))
    = stderr empty_world ++ diagnostics func fn.
Proof.
  destruct (failure_names_declaration_and_file
              sample_args with_array empty_world
              (fst (main sample_args with_array empty_world))
              (SyscallParseException (msg_array "int buf[4]")))
    as [H _]; [vm_compute; reflexivity|].
  exact (proj2 (H _ eq_refl)).
Defined.

(** A header the host refuses to decode: the run ends with that error, and
    the one line on the standard error names the header. *)
Example undecodable_header :
  let w := mkWorld (fun _ => None) "" "" [] (fun path => path)
                   (fun _ rq =>
                      match rq with
                      | ReadText path => Some (UnicodeDecodeError path)
                      | _ => None
                      end) in
  snd (main sample_args foo_h w)
  = inl (HostError (UnicodeDecodeError "include/foo.h")) /\
  stderr (fst (main sample_args foo_h w))
  = "While parsing foo.h" ++ String Py.nl "" /\
  events (fst (main sample_args foo_h w)) = [].
Proof. vm_compute. repeat split. Qed.

(** X10: a run that ends well had every declaration of every scanned header
    analyse; a run whose declarations all analyse can only fail with an
    error of the host; and on a host that refuses nothing, it ends well. *)
Theorem run_succeeds_iff_all_analyse (args : Args) (tree : Dir) (w : World) :
  ((exists w', main args tree w = (w', inr tt)) ->
   forall fn mo, scanned (include args) tree fn mo ->
                 exists r, analyze_pure mo fn = inr r) /\
  ((forall fn mo, scanned (include args) tree fn mo ->
                  exists r, analyze_pure mo fn = inr r) ->
   (forall w' e, main args tree w = (w', inl e) -> exists err, e = HostError err) /\
   (permissive w -> exists w', main args tree w = (w', inr tt))).
Proof.
  split.
  - intros [w' Hm]. exact (run_succeeded_all_analyse _ _ _ _ Hm).
  - intros Hall. split.
    + intros w' e. rewrite main_unfold.
      destruct (analyze_headers (include args) tree w)
        as [w1 [e1|syscalls]] eqn:Ha.
      * intros H. injection H as _ <-. apply analyze_headers_raised in Ha.
        destruct Ha as (root & dir_files & fn & text & Hd & Hf & Hs & H).
        destruct H as [(err & _ & -> & _)|[(err & _ & -> & _)|H]]; eauto.
        destruct H as (variant & func & arglist & Hin & Hp & _).
        destruct (Hall fn (variant, func, arglist)) as [r Hr].
        -- exists root, dir_files, text. auto.
        -- rewrite Hr in Hp. discriminate Hp.
      * intros H. exact (proj1 (write_outputs_raises _ _ _ _ _ H)).
    + intros Hp. exact (run_succeeds_when_all_analyse _ _ _ Hp Hall).
Qed.

Lemma run_succeeds_iff_all_analyse_witness :
  (exists r,
      analyze_pure ("syscall", "int bar", "int a, void *b") "foo.h" = inr r) /\
  (exists w', main sample_args foo_h empty_world = (w', inr tt)).
Proof.
  split.
  - apply (proj1 (run_succeeds_iff_all_analyse sample_args foo_h empty_world)).
    + exists (fst (main sample_args foo_h empty_world)). vm_compute. reflexivity.
    + exists "include", [("foo.h", "__syscall int bar(int a, void *b);")],
        "__syscall int bar(int a, void *b);".
      split; [left; reflexivity|]. split; [left; reflexivity|].
      split; [reflexivity|]. left. reflexivity.
  - apply (proj2 (run_succeeds_iff_all_analyse sample_args foo_h empty_world)).
    + intros fn mo (root & dir_files & text & Hd & Hf & Hs & Hin).
      destruct Hd as [Hd|[]]. injection Hd as <- <-.
      destruct Hf as [Hf|[]]. injection Hf as <- <-.
      vm_compute in Hin. destruct Hin as [<-|[]].
      eexists. vm_compute. reflexivity.
    + intros done rq. reflexivity.
Defined.

(** ** What a run writes *)

(** X13: a run, however it ends, touches only what it is asked to: every
    file that is neither the dispatch table nor an invocation header of the
    records keeps its text, and all the run does is to empty and write the
    dispatch table, to make the output directory and to empty and write
    invocation headers; when it ends well it has done so in this order:
    the dispatch table, the directory, then headers. *)
Theorem run_writes_only_its_outputs (args : Args) (tree : Dir) (w w' : World)
        (r : exn + unit) :
  main args tree w = (w', r) ->
  let syscalls := tree_records (include args) tree in
  let c := collect syscalls in
  (forall k,
      k <> ident w (syscall_dispatch args) ->
      ~ In k (header_files w (base_output args) syscalls) ->
      files w' k = files w k) /\
  (exists done,
      events w' = (events w ++ done)%list /\
      Forall (fun ev => dispatch_or_makedirs args c ev \/
                        header_write (base_output args) (invocations c) ev)
             done) /\
  (r = inr tt ->
   exists headers,
     events w'
     = (events w
          ++ EvTruncate (syscall_dispatch args)
          :: EvWrite (syscall_dispatch args) (dispatch_text c)
          :: EvMakedirs (base_output args) :: headers)%list /\
     Forall (header_write (base_output args) (invocations c)) headers).
Proof.
  intros Hm syscalls c.
  destruct (main_post _ _ _ _ _ Hm) as (_ & Hf & Hev).
  split; [exact Hf|]. split; [exact Hev|].
  intros ->. exact (proj2 (proj2 (main_done _ _ _ _ Hm))).
Qed.

Lemma run_writes_only_its_outputs_witness :
  files (fst (main sample_args two_dirs empty_world)) "include/net/ip.h"
  = files empty_world "include/net/ip.h".
Proof.
  apply (run_writes_only_its_outputs
           sample_args two_dirs empty_world
           (fst (main sample_args two_dirs empty_world))
           (snd (main sample_args two_dirs empty_world))).
  - vm_compute. reflexivity.
  - vm_compute. discriminate.
  - vm_compute. intuition discriminate.
Defined.

(** ** A tree without declarations *)

(** X16: when no scanned header holds a declaration, a run that ends well
    has written a dispatch table with no weak declaration and the entry of
    [K_SYSCALL_BAD] alone, has printed a listing that enumerates the two
    sentinels alone, has made the output directory and has written no
    invocation header; and on a host that refuses nothing the run does end
    well. *)
Theorem run_without_declarations (args : Args) (tree : Dir) (w : World) :
  (forall fn mo, ~ scanned (include args) tree fn mo) ->
  (permissive w -> exists w', main args tree w = (w', inr tt)) /\
  forall w',
    main args tree w = (w', inr tt) ->
    events w'
    = (events w
         ++ [EvTruncate (syscall_dispatch args);
             EvWrite (syscall_dispatch args)
               ("/* auto-generated by gen_syscalls.py, don't edit */

/* Weak handler functions that get replaced by the real ones unles a system
 * call is not implemented due to kernel configuration
 */
"
                ++ ""
                ++ "

const _k_syscall_handler_t _k_syscall_table[K_SYSCALL_LIMIT] = {
"
                ++ String Py.tab ""
                ++ "[K_SYSCALL_BAD] = _handler_bad_syscall"
                ++ "
};
");
             EvMakedirs (base_output args)])%list /\
    stdout w'
    = stdout w
        ++ ("
/* auto-generated by gen_syscalls.py, don't edit */
#ifndef _ZEPHYR_SYSCALL_LIST_H_
#define _ZEPHYR_SYSCALL_LIST_H_

#ifndef _ASMLANGUAGE

#ifdef __cplusplus
extern "
            ++ String Py.dquote ""
            ++ "C"
            ++ String Py.dquote ""
            ++ " {
#endif

enum {
"
            ++ String Py.tab ""
            ++ "K_SYSCALL_BAD," ++ String Py.nl (String Py.tab "K_SYSCALL_LIMIT")
            ++ "
};

"
            ++ ""
            ++ "

#ifdef __cplusplus
}
#endif

#endif /* _ASMLANGUAGE */

#endif /* _ZEPHYR_SYSCALL_LIST_H_ */
").
Proof.
  intros Hnone.
  assert (tree_records (include args) tree = []) as Hrec.
  { destruct (tree_records (include args) tree) as [|r l] eqn:E; [reflexivity|].
    exfalso.
    destruct (tree_records_fn (include args) tree r) as
        (root & dir_files & text & Hd & Hf & Hs & Hin).
    { rewrite E. now left. }
    unfold file_records in Hin. apply in_flat_map in Hin.
    destruct Hin as (mo & Hmo & _).
    apply (Hnone (fn r) mo). exists root, dir_files, text. auto. }
  split.
  - intros Hp. apply run_succeeds_when_all_analyse; [exact Hp|].
    intros fn mo Hsc. destruct (Hnone _ _ Hsc).
  - intros w' Hm. destruct (main_returns _ _ _ _ Hm) as [_ Hw].
    rewrite Hrec in Hw. cbn [collect fold_left invocations] in Hw.
    unfold write_headers in Hw. cbn [for_each] in Hw.
    injection Hw as <-. split; [|reflexivity].
    cbn [before_headers written truncated with_event with_file with_stdout
                        events].
    rewrite <- !List.app_assoc. reflexivity.
Qed.

Lemma run_without_declarations_witness :
  exists w',
    main sample_args
         (mkDir [("version.h", "#define KERNEL_VERSION 1");
                 ("api.c", "__syscall int bar(void);")] [])
         empty_world = (w', inr tt).
Proof.
  apply (run_without_declarations
           sample_args
           (mkDir [("version.h", "#define KERNEL_VERSION 1");
                   ("api.c", "__syscall int bar(void);")] [])
           empty_world).
  - intros fn mo (root & dir_files & text & Hd & Hf & Hs & Hin).
    destruct Hd as [Hd|[]]. injection Hd as <- <-.
    destruct Hf as [Hf|[Hf|[]]]; injection Hf as <- <-.
    + exact Hin.
    + discriminate Hs.
  - intros done rq. reflexivity.
Defined.
